(** * YAK real-time kernel: a shallow embedding of the C kernel and its list helpers

    The development follows [yak_c.c] (kernel entry points), [yak_help.c]
    (ready / delayed / pending list helpers and the static-pool allocators)
    and the kernel part of [handlers.c] (tick handler).

    Data is modelled as the C code has it:
    - the static pools [YKTasks], [YKSemaphores], [YKQueues] are lists
      indexed by position; a [TCBPtr] is [NULL] or the address of a pool
      entry, a [YKSEM*] / [YKQ*] is the index of a pool entry;
    - [int] and [unsigned] are the 16-bit types of the 8086 target
      ("1 integer (2 bytes)" in [YKNewTask]); arithmetic wraps;
    - the caller-owned queue buffers live in a word-addressed message memory;
    - [printString] appends to a console log.

    Dereferencing [NULL], or a pool address past the end of its array, has
    no defined behaviour in C: the embedding stops with a [Fault].

    The machine context (saved stack pointers, the manufactured stack frames
    and the register save/restore of the assembly dispatcher) is outside the
    model: it never influences the kernel data the C code reads.  So is the
    body of the idle task, an endless loop that counts in [YKIdleCount]. *)

From Stdlib Require Import ZArith Lia String.
From stdpp Require Import base list.

Open Scope Z_scope.

(** ** Constants of [kernel.h] and [user.h] *)

Definition IDLE_TASK_ID : Z := 0.
Definition MAX_TASKS : nat := 64.
Definition MAX_SEMAPHORES : nat := 64.
Definition MAX_QUEUES : nat := 64.
Definition LOWEST_TASK_PRIORITY : Z := 100.

(** ** Machine integers *)

Definition wrap_int (z : Z) : Z := (z + 32768) mod 65536 - 32768.
Definition wrap_uint (z : Z) : Z := z mod 65536.
Definition wrap_uchar (z : Z) : Z := z mod 256.

(** ** Data structures of [kernel.h] *)

Definition TCBPtr : Type := option nat.
Definition NULL : TCBPtr := None.

Definition is_null (p : TCBPtr) : bool :=
  match p with None => true | Some _ => false end.

Definition ptr_eqb (p q : TCBPtr) : bool :=
  match p, q with
  | None, None => true
  | Some i, Some j => Nat.eqb i j
  | _, _ => false
  end.

Record TCB : Type := mkTCB {
  taskID : Z;
  delayCount : Z;
  priority : Z;
  next : TCBPtr;
  prev : TCBPtr
}.

Record YKSEM : Type := mkSEM {
  value : Z;
  sem_pendHead : TCBPtr
}.

Record YKQ : Type := mkQ {
  numEntries : Z;
  maxEntries : Z;
  q_start : Z;
  q_end : Z;
  nextSlot : Z;
  nextMsg : Z;
  q_pendHead : TCBPtr
}.

Definition set_taskID (v : Z) (t : TCB) : TCB :=
  mkTCB v (delayCount t) (priority t) (next t) (prev t).
Definition set_delayCount (v : Z) (t : TCB) : TCB :=
  mkTCB (taskID t) v (priority t) (next t) (prev t).
Definition set_priority (v : Z) (t : TCB) : TCB :=
  mkTCB (taskID t) (delayCount t) v (next t) (prev t).
Definition set_next (v : TCBPtr) (t : TCB) : TCB :=
  mkTCB (taskID t) (delayCount t) (priority t) v (prev t).
Definition set_prev (v : TCBPtr) (t : TCB) : TCB :=
  mkTCB (taskID t) (delayCount t) (priority t) (next t) v.

Definition set_value (v : Z) (m : YKSEM) : YKSEM := mkSEM v (sem_pendHead m).
Definition set_sem_pendHead (v : TCBPtr) (m : YKSEM) : YKSEM := mkSEM (value m) v.

Definition set_numEntries (v : Z) (q : YKQ) : YKQ :=
  mkQ v (maxEntries q) (q_start q) (q_end q) (nextSlot q) (nextMsg q) (q_pendHead q).
Definition set_nextSlot (v : Z) (q : YKQ) : YKQ :=
  mkQ (numEntries q) (maxEntries q) (q_start q) (q_end q) v (nextMsg q) (q_pendHead q).
Definition set_nextMsg (v : Z) (q : YKQ) : YKQ :=
  mkQ (numEntries q) (maxEntries q) (q_start q) (q_end q) (nextSlot q) v (q_pendHead q).
Definition set_q_pendHead (v : TCBPtr) (q : YKQ) : YKQ :=
  mkQ (numEntries q) (maxEntries q) (q_start q) (q_end q) (nextSlot q) (nextMsg q) v.

(** ** Kernel state: the globals of [yak_c.c], the function statics, the
    interrupt-enable flag, the message memory and the console *)

Record kstate : Type := mkState {
  YKCtxSwCount : Z;
  YKTickNum : Z;
  YKInterruptNestLevel : Z;
  YKStartedFlag : Z;
  YKSemaphores : list YKSEM;
  YKQueues : list YKQ;
  YKTasks : list TCB;
  YKCurrentTask : TCBPtr;
  YKReadyHead : TCBPtr;
  YKReadyTail : TCBPtr;
  YKDelayedHead : TCBPtr;
  YKDelayedTail : TCBPtr;
  dummyTask : TCBPtr;            (* static in YKInitialize *)
  taskIDCount : Z;               (* static in YKNewTask *)
  numTasksCreated : nat;         (* static in allocateTCB *)
  numSemaphoresCreated : nat;    (* static in allocateSemaphore *)
  numQueuesCreated : nat;        (* static in allocateQueue *)
  intEnabled : bool;             (* CPU interrupt-enable flag *)
  msgmem : Z -> Z;               (* caller-owned queue buffers *)
  console : list string          (* output of printString *)
}.

Definition with_YKCtxSwCount (v : Z) (s : kstate) : kstate :=
  mkState v (YKTickNum s) (YKInterruptNestLevel s) (YKStartedFlag s) (YKSemaphores s)
    (YKQueues s) (YKTasks s) (YKCurrentTask s) (YKReadyHead s) (YKReadyTail s)
    (YKDelayedHead s) (YKDelayedTail s) (dummyTask s) (taskIDCount s)
    (numTasksCreated s) (numSemaphoresCreated s) (numQueuesCreated s) (intEnabled s)
    (msgmem s) (console s).
Definition with_YKTickNum (v : Z) (s : kstate) : kstate :=
  mkState (YKCtxSwCount s) v (YKInterruptNestLevel s) (YKStartedFlag s) (YKSemaphores s)
    (YKQueues s) (YKTasks s) (YKCurrentTask s) (YKReadyHead s) (YKReadyTail s)
    (YKDelayedHead s) (YKDelayedTail s) (dummyTask s) (taskIDCount s)
    (numTasksCreated s) (numSemaphoresCreated s) (numQueuesCreated s) (intEnabled s)
    (msgmem s) (console s).
Definition with_YKInterruptNestLevel (v : Z) (s : kstate) : kstate :=
  mkState (YKCtxSwCount s) (YKTickNum s) v (YKStartedFlag s) (YKSemaphores s)
    (YKQueues s) (YKTasks s) (YKCurrentTask s) (YKReadyHead s) (YKReadyTail s)
    (YKDelayedHead s) (YKDelayedTail s) (dummyTask s) (taskIDCount s)
    (numTasksCreated s) (numSemaphoresCreated s) (numQueuesCreated s) (intEnabled s)
    (msgmem s) (console s).
Definition with_YKStartedFlag (v : Z) (s : kstate) : kstate :=
  mkState (YKCtxSwCount s) (YKTickNum s) (YKInterruptNestLevel s) v (YKSemaphores s)
    (YKQueues s) (YKTasks s) (YKCurrentTask s) (YKReadyHead s) (YKReadyTail s)
    (YKDelayedHead s) (YKDelayedTail s) (dummyTask s) (taskIDCount s)
    (numTasksCreated s) (numSemaphoresCreated s) (numQueuesCreated s) (intEnabled s)
    (msgmem s) (console s).
Definition with_YKSemaphores (v : list YKSEM) (s : kstate) : kstate :=
  mkState (YKCtxSwCount s) (YKTickNum s) (YKInterruptNestLevel s) (YKStartedFlag s) v
    (YKQueues s) (YKTasks s) (YKCurrentTask s) (YKReadyHead s) (YKReadyTail s)
    (YKDelayedHead s) (YKDelayedTail s) (dummyTask s) (taskIDCount s)
    (numTasksCreated s) (numSemaphoresCreated s) (numQueuesCreated s) (intEnabled s)
    (msgmem s) (console s).
Definition with_YKQueues (v : list YKQ) (s : kstate) : kstate :=
  mkState (YKCtxSwCount s) (YKTickNum s) (YKInterruptNestLevel s) (YKStartedFlag s)
    (YKSemaphores s) v (YKTasks s) (YKCurrentTask s) (YKReadyHead s) (YKReadyTail s)
    (YKDelayedHead s) (YKDelayedTail s) (dummyTask s) (taskIDCount s)
    (numTasksCreated s) (numSemaphoresCreated s) (numQueuesCreated s) (intEnabled s)
    (msgmem s) (console s).
Definition with_YKTasks (v : list TCB) (s : kstate) : kstate :=
  mkState (YKCtxSwCount s) (YKTickNum s) (YKInterruptNestLevel s) (YKStartedFlag s)
    (YKSemaphores s) (YKQueues s) v (YKCurrentTask s) (YKReadyHead s) (YKReadyTail s)
    (YKDelayedHead s) (YKDelayedTail s) (dummyTask s) (taskIDCount s)
    (numTasksCreated s) (numSemaphoresCreated s) (numQueuesCreated s) (intEnabled s)
    (msgmem s) (console s).
Definition with_YKCurrentTask (v : TCBPtr) (s : kstate) : kstate :=
  mkState (YKCtxSwCount s) (YKTickNum s) (YKInterruptNestLevel s) (YKStartedFlag s)
    (YKSemaphores s) (YKQueues s) (YKTasks s) v (YKReadyHead s) (YKReadyTail s)
    (YKDelayedHead s) (YKDelayedTail s) (dummyTask s) (taskIDCount s)
    (numTasksCreated s) (numSemaphoresCreated s) (numQueuesCreated s) (intEnabled s)
    (msgmem s) (console s).
Definition with_YKReadyHead (v : TCBPtr) (s : kstate) : kstate :=
  mkState (YKCtxSwCount s) (YKTickNum s) (YKInterruptNestLevel s) (YKStartedFlag s)
    (YKSemaphores s) (YKQueues s) (YKTasks s) (YKCurrentTask s) v (YKReadyTail s)
    (YKDelayedHead s) (YKDelayedTail s) (dummyTask s) (taskIDCount s)
    (numTasksCreated s) (numSemaphoresCreated s) (numQueuesCreated s) (intEnabled s)
    (msgmem s) (console s).
Definition with_YKReadyTail (v : TCBPtr) (s : kstate) : kstate :=
  mkState (YKCtxSwCount s) (YKTickNum s) (YKInterruptNestLevel s) (YKStartedFlag s)
    (YKSemaphores s) (YKQueues s) (YKTasks s) (YKCurrentTask s) (YKReadyHead s) v
    (YKDelayedHead s) (YKDelayedTail s) (dummyTask s) (taskIDCount s)
    (numTasksCreated s) (numSemaphoresCreated s) (numQueuesCreated s) (intEnabled s)
    (msgmem s) (console s).
Definition with_YKDelayedHead (v : TCBPtr) (s : kstate) : kstate :=
  mkState (YKCtxSwCount s) (YKTickNum s) (YKInterruptNestLevel s) (YKStartedFlag s)
    (YKSemaphores s) (YKQueues s) (YKTasks s) (YKCurrentTask s) (YKReadyHead s)
    (YKReadyTail s) v (YKDelayedTail s) (dummyTask s) (taskIDCount s)
    (numTasksCreated s) (numSemaphoresCreated s) (numQueuesCreated s) (intEnabled s)
    (msgmem s) (console s).
Definition with_YKDelayedTail (v : TCBPtr) (s : kstate) : kstate :=
  mkState (YKCtxSwCount s) (YKTickNum s) (YKInterruptNestLevel s) (YKStartedFlag s)
    (YKSemaphores s) (YKQueues s) (YKTasks s) (YKCurrentTask s) (YKReadyHead s)
    (YKReadyTail s) (YKDelayedHead s) v (dummyTask s) (taskIDCount s)
    (numTasksCreated s) (numSemaphoresCreated s) (numQueuesCreated s) (intEnabled s)
    (msgmem s) (console s).
Definition with_taskIDCount (v : Z) (s : kstate) : kstate :=
  mkState (YKCtxSwCount s) (YKTickNum s) (YKInterruptNestLevel s) (YKStartedFlag s)
    (YKSemaphores s) (YKQueues s) (YKTasks s) (YKCurrentTask s) (YKReadyHead s)
    (YKReadyTail s) (YKDelayedHead s) (YKDelayedTail s) (dummyTask s) v
    (numTasksCreated s) (numSemaphoresCreated s) (numQueuesCreated s) (intEnabled s)
    (msgmem s) (console s).
Definition with_numTasksCreated (v : nat) (s : kstate) : kstate :=
  mkState (YKCtxSwCount s) (YKTickNum s) (YKInterruptNestLevel s) (YKStartedFlag s)
    (YKSemaphores s) (YKQueues s) (YKTasks s) (YKCurrentTask s) (YKReadyHead s)
    (YKReadyTail s) (YKDelayedHead s) (YKDelayedTail s) (dummyTask s) (taskIDCount s) v
    (numSemaphoresCreated s) (numQueuesCreated s) (intEnabled s) (msgmem s) (console s).
Definition with_numSemaphoresCreated (v : nat) (s : kstate) : kstate :=
  mkState (YKCtxSwCount s) (YKTickNum s) (YKInterruptNestLevel s) (YKStartedFlag s)
    (YKSemaphores s) (YKQueues s) (YKTasks s) (YKCurrentTask s) (YKReadyHead s)
    (YKReadyTail s) (YKDelayedHead s) (YKDelayedTail s) (dummyTask s) (taskIDCount s)
    (numTasksCreated s) v (numQueuesCreated s) (intEnabled s) (msgmem s) (console s).
Definition with_numQueuesCreated (v : nat) (s : kstate) : kstate :=
  mkState (YKCtxSwCount s) (YKTickNum s) (YKInterruptNestLevel s) (YKStartedFlag s)
    (YKSemaphores s) (YKQueues s) (YKTasks s) (YKCurrentTask s) (YKReadyHead s)
    (YKReadyTail s) (YKDelayedHead s) (YKDelayedTail s) (dummyTask s) (taskIDCount s)
    (numTasksCreated s) (numSemaphoresCreated s) v (intEnabled s) (msgmem s) (console s).
Definition with_intEnabled (v : bool) (s : kstate) : kstate :=
  mkState (YKCtxSwCount s) (YKTickNum s) (YKInterruptNestLevel s) (YKStartedFlag s)
    (YKSemaphores s) (YKQueues s) (YKTasks s) (YKCurrentTask s) (YKReadyHead s)
    (YKReadyTail s) (YKDelayedHead s) (YKDelayedTail s) (dummyTask s) (taskIDCount s)
    (numTasksCreated s) (numSemaphoresCreated s) (numQueuesCreated s) v (msgmem s)
    (console s).
Definition with_msgmem (v : Z -> Z) (s : kstate) : kstate :=
  mkState (YKCtxSwCount s) (YKTickNum s) (YKInterruptNestLevel s) (YKStartedFlag s)
    (YKSemaphores s) (YKQueues s) (YKTasks s) (YKCurrentTask s) (YKReadyHead s)
    (YKReadyTail s) (YKDelayedHead s) (YKDelayedTail s) (dummyTask s) (taskIDCount s)
    (numTasksCreated s) (numSemaphoresCreated s) (numQueuesCreated s) (intEnabled s) v
    (console s).
Definition with_console (v : list string) (s : kstate) : kstate :=
  mkState (YKCtxSwCount s) (YKTickNum s) (YKInterruptNestLevel s) (YKStartedFlag s)
    (YKSemaphores s) (YKQueues s) (YKTasks s) (YKCurrentTask s) (YKReadyHead s)
    (YKReadyTail s) (YKDelayedHead s) (YKDelayedTail s) (dummyTask s) (taskIDCount s)
    (numTasksCreated s) (numSemaphoresCreated s) (numQueuesCreated s) (intEnabled s)
    (msgmem s) v.

(** ** Outcomes of kernel code

    A kernel function either returns, stops at an access with no defined
    behaviour, or reaches the dispatcher: control then leaves the calling
    task, and the rest of the function runs when the task is dispatched
    again, on the kernel state of that moment. *)

Inductive fault : Type :=
| NullDeref      (* access through a NULL TCB pointer *)
| OutOfBounds    (* access past the end of a static pool *)
| Cyclic.        (* a list walk that visits more nodes than the pool holds *)

Inductive outcome (A : Type) : Type :=
| Ret (a : A) (s : kstate)
| Fault (f : fault)
| Switch (s : kstate) (k : kstate -> outcome A).

Arguments Ret {A} a s.
Arguments Fault {A} f.
Arguments Switch {A} s k.

Fixpoint obind {A B : Type} (o : outcome A) (f : A -> kstate -> outcome B) : outcome B :=
  match o with
  | Ret a s => f a s
  | Fault e => Fault e
  | Switch s k => Switch s (fun s' => obind (k s') f)
  end.

Definition M (A : Type) : Type := kstate -> outcome A.

Definition ret {A : Type} (a : A) : M A := fun s => Ret a s.
Definition bind {A B : Type} (m : M A) (f : A -> M B) : M B :=
  fun s => obind (m s) f.
Definition gets {A : Type} (f : kstate -> A) : M A := fun s => Ret (f s) s.
Definition modify (f : kstate -> kstate) : M unit := fun s => Ret tt (f s).
Definition raise {A : Type} (e : fault) : M A := fun _ => Fault e.

Declare Scope kernel_scope.
Delimit Scope kernel_scope with kernel.
Notation "x <- m ;; k" := (bind m (fun x => k))
  (at level 100, m at next level, k at level 200, right associativity) : kernel_scope.
Notation "m ;; k" := (bind m (fun _ => k))
  (at level 100, k at level 200, right associativity) : kernel_scope.
Open Scope kernel_scope.

Definition when (b : bool) (m : M unit) : M unit := if b then m else ret tt.

(** The state in which a call left the processor, and the state and value
    with which it returned. *)
Definition switched {A : Type} (o : outcome A) : option kstate :=
  match o with Switch s _ => Some s | _ => None end.
Definition returned {A : Type} (o : outcome A) : option (A * kstate) :=
  match o with Ret a s => Some (a, s) | _ => None end.
Definition resume {A : Type} (o : outcome A) (s' : kstate) : outcome A :=
  match o with Switch _ k => k s' | _ => o end.

(** ** Memory accesses *)

Definition printString (msg : string) : M unit :=
  modify (fun s => with_console (console s ++ [msg]) s).

(** [*p] for a TCB pointer. *)
Definition load (p : TCBPtr) : M TCB := fun s =>
  match p with
  | None => Fault NullDeref
  | Some i =>
      match YKTasks s !! i with
      | Some t => Ret t s
      | None => Fault OutOfBounds
      end
  end.

(** [p->f] read and [p->f = v] written for a field [f]. *)
Definition rd {A : Type} (f : TCB -> A) (p : TCBPtr) : M A :=
  t <- load p ;; ret (f t).

Definition wr (upd : TCB -> TCB) (p : TCBPtr) : M unit :=
  t <- load p ;;
  match p with
  | Some i => modify (fun s => with_YKTasks (<[i := upd t]> (YKTasks s)) s)
  | None => raise NullDeref
  end.

(** A store to a TCB field that the model does not keep ([sp],
    [stackBottom]): only the validity of the pointer matters. *)
Definition touch (p : TCBPtr) : M unit := _ <- load p ;; ret tt.

Definition load_sem (i : nat) : M YKSEM := fun s =>
  match YKSemaphores s !! i with
  | Some m => Ret m s
  | None => Fault OutOfBounds
  end.

Definition wr_sem (upd : YKSEM -> YKSEM) (i : nat) : M unit :=
  m <- load_sem i ;;
  modify (fun s => with_YKSemaphores (<[i := upd m]> (YKSemaphores s)) s).

Definition load_q (i : nat) : M YKQ := fun s =>
  match YKQueues s !! i with
  | Some q => Ret q s
  | None => Fault OutOfBounds
  end.

Definition wr_q (upd : YKQ -> YKQ) (i : nat) : M unit :=
  q <- load_q i ;;
  modify (fun s => with_YKQueues (<[i := upd q]> (YKQueues s)) s).

Definition mem_store (a v : Z) : M unit :=
  modify (fun s => with_msgmem (fun b => if Z.eqb b a then v else msgmem s b) s).

(** Bound on the length of a walk along [next]: a list of distinct pool
    entries has no more nodes than the pool. *)
Definition walk_fuel : M nat := gets (fun s => S (length (YKTasks s))).

(** ** Assembly primitives ([YKEnterMutex], [YKExitMutex], [YKDispatcher]) *)

(** Modelled from the spec: the assembly routine [YKEnterMutex] is not part
    of the C sources; "enter() returns the prior interrupt-enable state and
    disables interrupts". *)
Definition YKEnterMutex : M bool :=
  i <- gets intEnabled ;;
  modify (with_intEnabled false) ;;
  ret i.

(** Modelled from the spec: the assembly routine [YKExitMutex] is not part of
    the C sources; it re-enables interrupts (the C callers test the saved
    status themselves). *)
Definition YKExitMutex : M unit := modify (with_intEnabled true).

(** Modelled from the spec: the assembly routine [YKDispatcher] is not part
    of the C sources; on kernel data its contract is "set current_task to the
    ready-list head"; the caller is resumed only when it is dispatched again. *)
Definition YKDispatcher : M unit := fun s =>
  Switch (with_YKCurrentTask (YKReadyHead s) s) (fun s' => Ret tt s').

(** ** List helpers of [yak_help.c] *)

Fixpoint insertReady_walk (fuel : nat) (curTCB newTCB : TCBPtr) : M TCBPtr :=
  match fuel with
  | O => raise Cyclic
  | S fuel' =>
      cp <- rd priority curTCB ;;
      np <- rd priority newTCB ;;
      if cp <? np then
        nx <- rd next curTCB ;;
        insertReady_walk fuel' nx newTCB
      else ret curTCB
  end.

Definition insertReady (newTCB : TCBPtr) : M unit :=
  rh <- gets YKReadyHead ;;
  if is_null newTCB then
    printString "ERROR in insertReady(): cannot insert NULL pointer.\n\r"
  else if is_null rh then
    modify (with_YKReadyHead newTCB) ;;
    modify (with_YKReadyTail newTCB) ;;
    wr (set_prev NULL) newTCB ;;
    wr (set_next NULL) newTCB
  else
    np <- rd priority newTCB ;;
    hp <- rd priority rh ;;
    if np <? hp then
      wr (set_prev newTCB) rh ;;
      wr (set_next rh) newTCB ;;
      wr (set_prev NULL) newTCB ;;
      modify (with_YKReadyHead newTCB)
    else
      rt <- gets YKReadyTail ;;
      tp <- rd priority rt ;;
      if tp <? np then
        printString
          "ERROR in insertReady(): New task priority shouldn't be lowest in ready queue!\n\r" ;;
        wr (set_next newTCB) rt ;;
        wr (set_prev rt) newTCB ;;
        wr (set_next NULL) newTCB ;;
        modify (with_YKReadyTail newTCB)
      else
        fuel <- walk_fuel ;;
        curTCB <- insertReady_walk fuel rh newTCB ;;
        cprev <- rd prev curTCB ;;
        wr (set_next newTCB) cprev ;;
        wr (set_prev cprev) newTCB ;;
        wr (set_prev newTCB) curTCB ;;
        wr (set_next curTCB) newTCB.

Definition removeReady (remTask : TCBPtr) : M unit :=
  rid <- rd taskID remTask ;;
  rh <- gets YKReadyHead ;;
  rt <- gets YKReadyTail ;;
  if rid =? IDLE_TASK_ID then
    printString "ERROR in removeReady(): Cannot remove IDLE task from ready list!\n\r"
  else if is_null rh then
    printString "ERROR in removeReady(): Trying to remove from an empty list.\n\r"
  else if ptr_eqb rh remTask && ptr_eqb rt remTask then
    modify (with_YKReadyHead NULL) ;;
    modify (with_YKReadyTail NULL) ;;
    wr (set_prev NULL) remTask ;;
    wr (set_next NULL) remTask
  else if ptr_eqb rh remTask then
    nx <- rd next remTask ;;
    modify (with_YKReadyHead nx) ;;
    wr (set_prev NULL) nx ;;
    wr (set_next NULL) remTask
  else if ptr_eqb rt remTask then
    pv <- rd prev remTask ;;
    modify (with_YKReadyTail pv) ;;
    wr (set_next NULL) pv ;;
    wr (set_prev NULL) remTask
  else
    nx <- rd next remTask ;;
    pv <- rd prev remTask ;;
    wr (set_prev pv) nx ;;
    wr (set_next nx) pv ;;
    wr (set_next NULL) remTask ;;
    wr (set_prev NULL) remTask.

(** The loop of [insertDelayed]: its condition reads [curTCB->delayCount]
    before it tests [curTCB != NULL]. *)
Fixpoint insertDelayed_walk (fuel : nat) (curTCB newTCB : TCBPtr) : M TCBPtr :=
  match fuel with
  | O => raise Cyclic
  | S fuel' =>
      nd <- rd delayCount newTCB ;;
      cd <- rd delayCount curTCB ;;
      if (cd <=? nd) && negb (is_null curTCB) then
        wr (set_delayCount (wrap_int (nd - cd))) newTCB ;;
        nx <- rd next curTCB ;;
        insertDelayed_walk fuel' nx newTCB
      else ret curTCB
  end.

Definition insertDelayed (newTCB : TCBPtr) : M unit :=
  if is_null newTCB then
    printString "ERROR in insertDelayed(): cannot insert NULL pointer.\n\r"
  else
    nid <- rd taskID newTCB ;;
    dh <- gets YKDelayedHead ;;
    if nid =? IDLE_TASK_ID then
      printString "ERROR in insertDelayed(): Cannot delay IDLE task!\n\r"
    else if is_null dh then
      modify (with_YKDelayedHead newTCB) ;;
      modify (with_YKDelayedTail newTCB) ;;
      wr (set_prev NULL) newTCB ;;
      wr (set_next NULL) newTCB
    else
      nd <- rd delayCount newTCB ;;
      hd <- rd delayCount dh ;;
      if nd <? hd then
        wr (set_delayCount (wrap_int (hd - nd))) dh ;;
        wr (set_prev newTCB) dh ;;
        wr (set_next dh) newTCB ;;
        wr (set_prev NULL) newTCB ;;
        modify (with_YKDelayedHead newTCB)
      else
        fuel <- walk_fuel ;;
        curTCB <- insertDelayed_walk fuel dh newTCB ;;
        if is_null curTCB then
          dt <- gets YKDelayedTail ;;
          wr (set_next newTCB) dt ;;
          wr (set_prev dt) newTCB ;;
          wr (set_next NULL) newTCB ;;
          modify (with_YKDelayedTail newTCB)
        else
          cprev <- rd prev curTCB ;;
          wr (set_next newTCB) cprev ;;
          wr (set_prev cprev) newTCB ;;
          wr (set_prev newTCB) curTCB ;;
          wr (set_next curTCB) newTCB ;;
          nn <- rd next newTCB ;;
          nnd <- rd delayCount nn ;;
          nd' <- rd delayCount newTCB ;;
          wr (set_delayCount (wrap_int (nnd - nd'))) nn.

Definition removeDelayed : M TCBPtr :=
  dh <- gets YKDelayedHead ;;
  if is_null dh then ret NULL
  else
    hd <- rd delayCount dh ;;
    if hd =? 0 then
      nx <- rd next dh ;;
      modify (with_YKDelayedHead nx) ;;
      wr (set_prev NULL) nx ;;
      wr (set_next NULL) dh ;;
      ret dh
    else ret NULL.

(** The loop shared by [insertPendSem] and [insertPendQ]. *)
Fixpoint insertPend_walk (fuel : nat) (curTCB newTCB : TCBPtr) : M TCBPtr :=
  match fuel with
  | O => raise Cyclic
  | S fuel' =>
      cp <- rd priority curTCB ;;
      np <- rd priority newTCB ;;
      if cp <? np then
        nx <- rd next curTCB ;;
        if is_null nx then ret curTCB
        else insertPend_walk fuel' nx newTCB
      else ret curTCB
  end.

(** The body shared by [insertPendSem] and [insertPendQ], which differ only
    in the structure holding [pendHead] and in the name they print. *)
Definition insertPend (null_msg : string) (get_head : M TCBPtr)
    (set_head : TCBPtr -> M unit) (newTCB : TCBPtr) : M unit :=
  if is_null newTCB then printString null_msg
  else
    ph <- get_head ;;
    if is_null ph then
      set_head newTCB ;;
      wr (set_prev NULL) newTCB ;;
      wr (set_next NULL) newTCB
    else
      np <- rd priority newTCB ;;
      hp <- rd priority ph ;;
      if np <? hp then
        wr (set_prev newTCB) ph ;;
        wr (set_next ph) newTCB ;;
        wr (set_prev NULL) newTCB ;;
        set_head newTCB
      else
        fuel <- walk_fuel ;;
        curTCB <- insertPend_walk fuel ph newTCB ;;
        cnext <- rd next curTCB ;;
        np' <- rd priority newTCB ;;
        cp <- rd priority curTCB ;;
        if is_null cnext && (cp <? np') then
          wr (set_next newTCB) curTCB ;;
          wr (set_prev curTCB) newTCB ;;
          wr (set_next NULL) newTCB
        else
          cprev <- rd prev curTCB ;;
          wr (set_next newTCB) cprev ;;
          wr (set_prev cprev) newTCB ;;
          wr (set_prev newTCB) curTCB ;;
          wr (set_next curTCB) newTCB.

(** The body shared by [removePendSem] and [removePendQ]. *)
Definition removePend (get_head : M TCBPtr) (set_head : TCBPtr -> M unit) : M TCBPtr :=
  ph <- get_head ;;
  if is_null ph then ret NULL
  else
    nx <- rd next ph ;;
    set_head nx ;;
    wr (set_prev NULL) nx ;;
    wr (set_next NULL) ph ;;
    ret ph.

Definition insertPendSem (newTCB : TCBPtr) (ptr : nat) : M unit :=
  insertPend "ERROR in insertPendSem(): cannot insert NULL pointer.\n\r"
    (m <- load_sem ptr ;; ret (sem_pendHead m))
    (fun p => wr_sem (set_sem_pendHead p) ptr) newTCB.

Definition removePendSem (ptr : nat) : M TCBPtr :=
  removePend (m <- load_sem ptr ;; ret (sem_pendHead m))
    (fun p => wr_sem (set_sem_pendHead p) ptr).

Definition insertPendQ (newTCB : TCBPtr) (ptr : nat) : M unit :=
  insertPend "ERROR in insertPendQ(): cannot insert NULL pointer.\n\r"
    (q <- load_q ptr ;; ret (q_pendHead q))
    (fun p => wr_q (set_q_pendHead p) ptr) newTCB.

Definition removePendQ (ptr : nat) : M TCBPtr :=
  removePend (q <- load_q ptr ;; ret (q_pendHead q))
    (fun p => wr_q (set_q_pendHead p) ptr).

(** ** Static-pool allocators: the address of the next entry is returned
    even when the pool is exhausted *)

Definition allocateTCB : M TCBPtr :=
  n <- gets numTasksCreated ;;
  when (Nat.leb (MAX_TASKS + 1) n)
    (printString "ERROR in allocateTCB(): storage space exceeded.\n\r") ;;
  modify (with_numTasksCreated (S n)) ;;
  ret (Some n).

Definition allocateSemaphore : M nat :=
  n <- gets numSemaphoresCreated ;;
  when (Nat.leb MAX_SEMAPHORES n)
    (printString "ERROR in allocateSemaphore(): storage space exceeded.\n\r") ;;
  modify (with_numSemaphoresCreated (S n)) ;;
  ret n.

Definition allocateQueue : M nat :=
  n <- gets numQueuesCreated ;;
  when (Nat.leb MAX_QUEUES n)
    (printString "ERROR in allocateQueue(): storage space exceeded.\n\r") ;;
  modify (with_numQueuesCreated (S n)) ;;
  ret n.

(** ** Kernel functions of [yak_c.c] *)

Definition YKScheduler : M unit :=
  iStatus <- YKEnterMutex ;;
  rh <- gets YKReadyHead ;;
  hid <- rd taskID rh ;;
  cur <- gets YKCurrentTask ;;
  cid <- rd taskID cur ;;
  when (negb (hid =? cid))
    (c <- gets YKCtxSwCount ;;
     modify (with_YKCtxSwCount (wrap_int (c + 1))) ;;
     YKDispatcher) ;;
  when iStatus YKExitMutex.

(** [taskCode] and [taskStack] only feed the saved stack pointer and the
    manufactured stack frame. *)
Definition YKNewTask (taskCode taskStack taskPriority : Z) : M unit :=
  iStatus <- YKEnterMutex ;;
  newTCBPtr <- allocateTCB ;;
  touch newTCBPtr ;;                              (* stackBottom *)
  id <- gets taskIDCount ;;
  modify (with_taskIDCount (wrap_int (id + 1))) ;;
  wr (set_taskID id) newTCBPtr ;;
  wr (set_delayCount 0) newTCBPtr ;;
  wr (set_priority (wrap_uchar taskPriority)) newTCBPtr ;;
  wr (set_next NULL) newTCBPtr ;;
  wr (set_prev NULL) newTCBPtr ;;
  touch newTCBPtr ;;                              (* sp *)
  insertReady newTCBPtr ;;
  when iStatus YKExitMutex ;;
  started <- gets YKStartedFlag ;;
  when (negb (started =? 0)) YKScheduler.

(** Addresses of the idle task's code and of the top of its stack: they
    belong to the machine context. *)
Definition YKIdleTask_addr : Z := 0.
Definition YKIdleStack_top : Z := 0.

Definition YKInitialize : M unit :=
  _ <- YKEnterMutex ;;
  YKNewTask YKIdleTask_addr YKIdleStack_top LOWEST_TASK_PRIORITY ;;
  d <- gets dummyTask ;;
  touch d ;;                                      (* sp *)
  touch d ;;                                      (* stackBottom *)
  wr (set_taskID (-1)) d ;;
  wr (set_delayCount 0) d ;;
  wr (set_priority LOWEST_TASK_PRIORITY) d ;;
  wr (set_next NULL) d ;;
  wr (set_prev NULL) d ;;
  modify (with_YKCurrentTask d).

Definition YKRun : M unit :=
  modify (with_YKStartedFlag 1) ;;
  YKExitMutex ;;
  YKScheduler ;;
  printString "ERROR in YKRun(): function should not return!\n\r".

Definition YKEnterISR : M unit :=
  n <- gets YKInterruptNestLevel ;;
  modify (with_YKInterruptNestLevel (wrap_int (n + 1))).

Definition YKExitISR : M unit :=
  n <- gets YKInterruptNestLevel ;;
  modify (with_YKInterruptNestLevel (wrap_int (n - 1))) ;;
  n' <- gets YKInterruptNestLevel ;;
  when (n' =? 0) YKScheduler.

(** The parameter is [unsigned]: the argument of a call is converted. *)
Definition YKDelayTask (n : Z) : M unit :=
  let count := wrap_uint n in
  iStatus <- YKEnterMutex ;;
  when (count <=? 0)
    (printString "ERROR in YKDelayTask(): invalid delay count.\n\r") ;;
  cur <- gets YKCurrentTask ;;
  removeReady cur ;;
  cur' <- gets YKCurrentTask ;;
  wr (set_delayCount (wrap_int count)) cur' ;;
  cur'' <- gets YKCurrentTask ;;
  insertDelayed cur'' ;;
  when iStatus YKExitMutex ;;
  YKScheduler.

Definition YKSemCreate (initialValue : Z) : M nat :=
  iStatus <- YKEnterMutex ;;
  newSem <- allocateSemaphore ;;
  wr_sem (set_value (wrap_int initialValue)) newSem ;;
  wr_sem (set_sem_pendHead NULL) newSem ;;
  when iStatus YKExitMutex ;;
  ret newSem.

Definition YKSemPend (semPtr : nat) : M unit :=
  iStatus <- YKEnterMutex ;;
  m <- load_sem semPtr ;;
  let oldVal := value m in
  wr_sem (set_value (wrap_int (oldVal - 1))) semPtr ;;
  when (oldVal <=? 0)
    (cur <- gets YKCurrentTask ;;
     removeReady cur ;;
     cur' <- gets YKCurrentTask ;;
     insertPendSem cur' semPtr ;;
     YKScheduler) ;;
  when iStatus YKExitMutex.

Definition YKSemPost (semPtr : nat) : M unit :=
  iStatus <- YKEnterMutex ;;
  m <- load_sem semPtr ;;
  let oldVal := value m in
  wr_sem (set_value (wrap_int (oldVal + 1))) semPtr ;;
  when (oldVal <? 0)
    (tmp <- removePendSem semPtr ;;
     insertReady tmp ;;
     nest <- gets YKInterruptNestLevel ;;
     when (nest =? 0) YKScheduler) ;;
  when iStatus YKExitMutex.

Definition YKQCreate (base size : Z) : M nat :=
  let size := wrap_uint size in
  iStatus <- YKEnterMutex ;;
  newQ <- allocateQueue ;;
  wr_q (fun _ => mkQ 0 size base (base + wrap_uint (size - 1)) base base NULL) newQ ;;
  when iStatus YKExitMutex ;;
  ret newQ.

Definition YKQPend (QPtr : nat) : M Z :=
  iStatus <- YKEnterMutex ;;
  q <- load_q QPtr ;;
  when (numEntries q =? 0)
    (cur <- gets YKCurrentTask ;;
     removeReady cur ;;
     cur' <- gets YKCurrentTask ;;
     insertPendQ cur' QPtr ;;
     YKScheduler) ;;
  q1 <- load_q QPtr ;;
  msg <- gets (fun s => msgmem s (nextMsg q1)) ;;
  (if nextMsg q1 =? q_end q1
   then wr_q (set_nextMsg (q_start q1)) QPtr
   else wr_q (set_nextMsg (nextMsg q1 + 1)) QPtr) ;;
  q2 <- load_q QPtr ;;
  wr_q (set_numEntries (wrap_uint (numEntries q2 - 1))) QPtr ;;
  when iStatus YKExitMutex ;;
  ret msg.

Definition YKQPost (QPtr : nat) (msg : Z) : M Z :=
  iStatus <- YKEnterMutex ;;
  q <- load_q QPtr ;;
  if maxEntries q <=? numEntries q then
    when iStatus YKExitMutex ;;
    ret 0
  else
    mem_store (nextSlot q) msg ;;
    (if nextSlot q =? q_end q
     then wr_q (set_nextSlot (q_start q)) QPtr
     else wr_q (set_nextSlot (nextSlot q + 1)) QPtr) ;;
    q1 <- load_q QPtr ;;
    wr_q (set_numEntries (wrap_uint (numEntries q1 + 1))) QPtr ;;
    q2 <- load_q QPtr ;;
    when (negb (is_null (q_pendHead q2)))
      (tmp <- removePendQ QPtr ;;
       insertReady tmp ;;
       nest <- gets YKInterruptNestLevel ;;
       when (nest =? 0) YKScheduler) ;;
    when iStatus YKExitMutex ;;
    ret 1.

(** ** Tick handler of [handlers.c]

    The message the handler builds lives in application memory; its address
    [&MsgArray[index]] and the application's queue [MsgQPtr] are taken as
    parameters. *)

Fixpoint undelay (fuel : nat) (tmp : TCBPtr) : M unit :=
  match fuel with
  | O => raise Cyclic
  | S fuel' =>
      if is_null tmp then ret tt
      else
        insertReady tmp ;;
        tmp' <- removeDelayed ;;
        undelay fuel' tmp'
  end.

Definition YKTickHandler (MsgQPtr : nat) (msg : Z) : M unit :=
  _ <- YKEnterMutex ;;
  t <- gets YKTickNum ;;
  modify (with_YKTickNum (wrap_int (t + 1))) ;;
  dh <- gets YKDelayedHead ;;
  when (negb (is_null dh))
    (d <- rd delayCount dh ;;
     wr (set_delayCount (wrap_int (d - 1))) dh ;;
     tmp <- removeDelayed ;;
     fuel <- walk_fuel ;;
     undelay fuel tmp) ;;
  r <- YKQPost MsgQPtr msg ;;
  when (r =? 0)
    (printString "ERROR in YKTickHandler(): queue overflow!\n\r") ;;
  YKExitMutex.

(** ** The state at reset: C statics are zero, interrupts are on *)

Definition zeroTCB : TCB := mkTCB 0 0 0 NULL NULL.
Definition zeroSEM : YKSEM := mkSEM 0 NULL.
Definition zeroQ : YKQ := mkQ 0 0 0 0 0 0 NULL.

Definition boot : kstate :=
  mkState 0 0 0 0
    (replicate MAX_SEMAPHORES zeroSEM)
    (replicate MAX_QUEUES zeroQ)
    (replicate (MAX_TASKS + 1) zeroTCB)
    NULL NULL NULL NULL NULL NULL
    0 0%nat 0%nat 0%nat true (fun _ => 0) [].

(** State in which a call returned or left the processor; [boot] stands for
    a call that did neither. *)
Definition after {A : Type} (o : outcome A) : kstate :=
  match o with Ret _ s => s | Switch s _ => s | Fault _ => boot end.

(** Pool entries reached from [p] along [next]. *)
Fixpoint chain (fuel : nat) (tasks : list TCB) (p : TCBPtr) : list nat :=
  match fuel, p with
  | S fuel', Some i =>
      match tasks !! i with
      | Some t => i :: chain fuel' tasks (next t)
      | None => [i]
      end
  | _, _ => []
  end.

Definition ready_list (s : kstate) : list nat :=
  chain (S (length (YKTasks s))) (YKTasks s) (YKReadyHead s).
Definition delayed_list (s : kstate) : list nat :=
  chain (S (length (YKTasks s))) (YKTasks s) (YKDelayedHead s).
Definition pend_list (s : kstate) (p : TCBPtr) : list nat :=
  chain (S (length (YKTasks s))) (YKTasks s) p.
Definition delays_of (s : kstate) (l : list nat) : list Z :=
  omap (fun i => delayCount <$> YKTasks s !! i) l.

(** ** Well-formedness predicates *)

(** Doubly-linked list over the pool: the nodes [l] in order, [pv] before
    the first one and [nx] after the last one. *)
Definition head_or (l : list nat) (nx : TCBPtr) : TCBPtr :=
  match l with i :: _ => Some i | [] => nx end.

Definition node (tasks : list TCB) (pv : TCBPtr) (i : nat) (nx : TCBPtr) : Prop :=
  exists t, tasks !! i = Some t /\ prev t = pv /\ next t = nx.

Fixpoint dll (tasks : list TCB) (pv : TCBPtr) (l : list nat) (nx : TCBPtr) : Prop :=
  match l with
  | [] => True
  | i :: l' => node tasks pv i (head_or l' nx) /\ dll tasks (Some i) l' nx
  end.

Definition last_or (l : list nat) (pv : TCBPtr) : TCBPtr :=
  match last l with Some i => Some i | None => pv end.

Definition prio_of (tasks : list TCB) (i : nat) : Z :=
  match tasks !! i with Some t => priority t | None => 0 end.

(** The ready list of [s] is the list [l] of distinct pool entries. *)
Definition ready_is (s : kstate) (l : list nat) : Prop :=
  NoDup l /\ dll (YKTasks s) NULL l NULL /\
  YKReadyHead s = head_or l NULL /\ YKReadyTail s = last_or l NULL.

(** A queue over the buffer [q_start .. q_end] whose write position is
    [numEntries] slots (circularly) after its read position. *)
Definition queue_wf (q : YKQ) : Prop :=
  0 < maxEntries q < 65536 /\
  q_end q = q_start q + maxEntries q - 1 /\
  q_start q <= nextMsg q <= q_end q /\
  0 <= numEntries q <= maxEntries q /\
  nextSlot q = q_start q + (nextMsg q - q_start q + numEntries q) mod maxEntries q.

(** The queue invariant of the specification, and its first half. *)
Definition Qbound (s : kstate) : Prop :=
  Forall (fun q => 0 <= numEntries q <= maxEntries q) (YKQueues s).

Definition Qinv (s : kstate) : Prop :=
  Forall (fun q => 0 <= numEntries q <= maxEntries q /\
                   (0 < numEntries q -> q_pendHead q = NULL)) (YKQueues s).

(** [I] holds whenever the call returns or leaves the processor, and again
    when it returns after having been resumed in a state satisfying [I];
    every value it returns satisfies [P]. *)
Fixpoint osat {A : Type} (I : kstate -> Prop) (P : A -> Prop) (o : outcome A) : Prop :=
  match o with
  | Ret a s => I s /\ P a
  | Fault _ => True
  | Switch s k => I s /\ forall s', I s' -> osat I P (k s')
  end.

Definition preserves {A : Type} (I : kstate -> Prop) (m : M A) : Prop :=
  forall s, I s -> osat I (fun _ => True) (m s).

(** What the list helpers and the scheduler never touch: the message memory
    and, pending lists apart, the queues. *)
Definition qcores (s : kstate) : list YKQ := set_q_pendHead NULL <$> YKQueues s.

Definition qstable (I : kstate -> Prop) : Prop :=
  forall s s', msgmem s' = msgmem s -> qcores s' = qcores s -> I s -> I s'.

(** The message [msg] has been placed in queue [QPtr] of [s], giving [s']. *)
Definition placed (QPtr : nat) (msg : Z) (s s' : kstate) : Prop :=
  exists q q', YKQueues s !! QPtr = Some q /\ YKQueues s' !! QPtr = Some q' /\
    msgmem s' (nextSlot q) = msg /\
    numEntries q' = wrap_uint (numEntries q + 1).

(** ** Scenarios *)

(** The kernel as [YKInitialize] and [YKRun] start it, the stores to the
    dummy TCB left out: the idle task, then the tasks, semaphores and queues
    of [setup], are created with interrupts off; the started flag is set,
    interrupts are turned on and the ready-list head is dispatched. *)
Definition started_with (setup : M unit) : kstate :=
  after ((_ <- YKEnterMutex ;;
          YKNewTask YKIdleTask_addr YKIdleStack_top LOWEST_TASK_PRIORITY ;;
          setup ;;
          modify (with_YKStartedFlag 1) ;;
          YKExitMutex ;;
          YKDispatcher) boot).

(** Semaphore handoff: task L (priority 50, [YKTasks[1]]) and semaphore S
    ([YKSemaphores[0]], initial value 0); L pends and blocks. *)
Definition handoff_start : kstate :=
  started_with (YKNewTask 0 0 50 ;; _ <- YKSemCreate 0 ;; ret tt).
Definition handoff_blocked : kstate := after (YKSemPend 0%nat handoff_start).

(** Delay ordering: tasks of priority 1, 2, 3 ([YKTasks[1..3]]); the first
    delays itself by 10 ticks, the second by 7. *)
Definition delay_start : kstate :=
  started_with (YKNewTask 0 0 1 ;; YKNewTask 0 0 2 ;; YKNewTask 0 0 3).
Definition delay_10 : kstate := after (YKDelayTask 10 delay_start).
Definition delay_10_7 : kstate := after (YKDelayTask 7 delay_10).

(** One task delayed by one tick, after the tick handler has decremented
    its delay count. *)
Definition last_expired : kstate :=
  after ((dh <- gets YKDelayedHead ;;
          d <- rd delayCount dh ;;
          wr (set_delayCount (wrap_int (d - 1))) dh)
         (after (YKDelayTask 1 delay_start))).

(** A ready list holding a task of priority 5 and the idle task, and a
    fresh TCB ([YKTasks[2]]) with the idle task's priority. *)
Definition dup_state : kstate :=
  let s := started_with (YKNewTask 0 0 5) in
  with_YKTasks (<[2%nat := mkTCB 2 0 LOWEST_TASK_PRIORITY NULL NULL]> (YKTasks s)) s.

(** A queue of four slots at address 1000 on which the tasks of priority 10
    and 20 ([YKTasks[1]], [YKTasks[2]]) both pend; the idle task runs. *)
Definition waiters_start : kstate :=
  started_with (YKNewTask 0 0 10 ;; YKNewTask 0 0 20 ;; _ <- YKQCreate 1000 4 ;; ret tt).
Definition two_waiters : kstate :=
  after (YKQPend 0%nat (after (YKQPend 0%nat waiters_start))).

(** A queue of four slots at address 1000 and one task. *)
Definition queue_start : kstate :=
  started_with (YKNewTask 0 0 50 ;; _ <- YKQCreate 1000 4 ;; ret tt).

(** What a call of the scheduler that dispatches leaves behind, and what it
    keeps. *)
Definition sched_switch_state (s : kstate) : kstate :=
  with_YKCurrentTask (YKReadyHead s)
    (with_YKCtxSwCount (wrap_int (YKCtxSwCount s + 1)) (with_intEnabled false s)).

Definition sched_frame (s s' : kstate) : Prop :=
  YKTasks s' = YKTasks s /\
  YKReadyHead s' = YKReadyHead s /\ YKReadyTail s' = YKReadyTail s /\
  YKDelayedHead s' = YKDelayedHead s /\ YKDelayedTail s' = YKDelayedTail s /\
  YKSemaphores s' = YKSemaphores s /\
  YKQueues s' = YKQueues s /\ msgmem s' = msgmem s /\
  YKTickNum s' = YKTickNum s.

(** The queue record after a message has been written at [nextSlot], and
    after the message at [nextMsg] has been read. *)
Definition q_put (q : YKQ) : YKQ :=
  set_numEntries (wrap_uint (numEntries q + 1))
    (set_nextSlot (if nextSlot q =? q_end q then q_start q else nextSlot q + 1) q).

Definition q_take (q : YKQ) : YKQ :=
  set_numEntries (wrap_uint (numEntries q - 1))
    (set_nextMsg (if nextMsg q =? q_end q then q_start q else nextMsg q + 1) q).

(** The state after [msg] has been posted to the queue [QPtr] (with record
    [q]), and after a message has been taken from it. *)
Definition posted (QPtr : nat) (q : YKQ) (msg : Z) (s : kstate) : kstate :=
  with_YKQueues (<[QPtr := q_put q]> (YKQueues s))
    (with_msgmem (fun b => if b =? nextSlot q then msg else msgmem s b) s).

Definition taken (QPtr : nat) (q : YKQ) (s : kstate) : kstate :=
  with_YKQueues (<[QPtr := q_take q]> (YKQueues s)) s.

(** The rest of [YKQPost] once the message is in the queue. *)
Definition post_wake (QPtr : nat) (iStatus : bool) : M Z :=
  q2 <- load_q QPtr ;;
  when (negb (is_null (q_pendHead q2)))
    (tmp <- removePendQ QPtr ;;
     insertReady tmp ;;
     nest <- gets YKInterruptNestLevel ;;
     when (nest =? 0) YKScheduler) ;;
  when iStatus YKExitMutex ;;
  ret 1.

(** Queue full: a queue of two slots at address 1000 after two posts. *)
Definition full_queue : kstate :=
  after ((YKQPost 0%nat 11 ;; YKQPost 0%nat 22)
           (started_with (YKNewTask 0 0 50 ;; _ <- YKQCreate 1000 2 ;; ret tt))).

(** Queue order: three posts followed by three pends, with the values the
    six calls return. *)
Definition post3_pend3 (QPtr : nat) (m1 m2 m3 : Z) : M (Z * Z * Z * (Z * Z * Z)) :=
  r1 <- YKQPost QPtr m1 ;;
  r2 <- YKQPost QPtr m2 ;;
  r3 <- YKQPost QPtr m3 ;;
  a <- YKQPend QPtr ;;
  b <- YKQPend QPtr ;;
  c <- YKQPend QPtr ;;
  ret (r1, r2, r3, (a, b, c)).

(** The kernel after the part of [YKInitialize] that precedes the stores to
    the dummy TCB. *)
Definition idle_created : kstate :=
  after ((_ <- YKEnterMutex ;;
          YKNewTask YKIdleTask_addr YKIdleStack_top LOWEST_TASK_PRIORITY) boot).

(** The interrupt that posts the semaphore on which L is blocked. *)
Definition handoff_in_isr : kstate := after (YKEnterISR handoff_blocked).

(** The calls of the kernel interface, and the tick handler. *)
Inductive kcall : Type :=
| CNewTask (taskCode taskStack taskPriority : Z)
| CDelayTask (n : Z)
| CSemCreate (initialValue : Z)
| CSemPend (semPtr : nat)
| CSemPost (semPtr : nat)
| CQCreate (base size : Z)
| CQPend (QPtr : nat)
| CQPost (QPtr : nat) (msg : Z)
| CEnterISR
| CExitISR
| CScheduler
| CTick (MsgQPtr : nat) (msg : Z).

Definition void {A : Type} (m : M A) : M unit := _ <- m ;; ret tt.

Definition run_call (c : kcall) : M unit :=
  match c with
  | CNewTask taskCode taskStack taskPriority => YKNewTask taskCode taskStack taskPriority
  | CDelayTask n => YKDelayTask n
  | CSemCreate initialValue => void (YKSemCreate initialValue)
  | CSemPend semPtr => YKSemPend semPtr
  | CSemPost semPtr => YKSemPost semPtr
  | CQCreate base size => void (YKQCreate base size)
  | CQPend QPtr => void (YKQPend QPtr)
  | CQPost QPtr msg => void (YKQPost QPtr msg)
  | CEnterISR => YKEnterISR
  | CExitISR => YKExitISR
  | CScheduler => YKScheduler
  | CTick MsgQPtr msg => YKTickHandler MsgQPtr msg
  end.

(** [c] is a pend on a queue of [s] that holds no message. *)
Definition pend_on_empty (c : kcall) (s : kstate) : Prop :=
  exists QPtr q, c = CQPend QPtr /\ YKQueues s !! QPtr = Some q /\ numEntries q = 0.

(** The interrupt in which a message is posted to the queue on which two
    tasks pend. *)
Definition two_waiters_in_isr : kstate := after (YKEnterISR two_waiters).

(** A waiter that finds the queue empty when it resumes.  Tasks D, H, P and
    W of priority 1, 5, 10 and 20 ([YKTasks[1..4]]) and a queue of four
    slots.  D delays itself by 5 ticks and H by 1; P, then W, pend on the
    empty queue.  The tick readies H and posts a message, which readies P;
    H, dispatched first, takes the message and delays itself again; P is
    dispatched and resumes its pend. *)
Definition race_start : kstate :=
  started_with (YKNewTask 0 0 1 ;; YKNewTask 0 0 5 ;; YKNewTask 0 0 10 ;;
                YKNewTask 0 0 20 ;; _ <- YKQCreate 1000 4 ;; ret tt).
Definition race_P_pends : outcome Z :=
  YKQPend 0%nat (after (YKDelayTask 1 (after (YKDelayTask 5 race_start)))).
Definition race_P_dispatched : kstate :=
  after ((_ <- YKQPend 0%nat ;; YKDelayTask 1)
           (after ((YKEnterISR ;; YKTickHandler 0%nat 77 ;; YKExitISR)
                     (after (YKQPend 0%nat (after race_P_pends)))))).


(** What the specification says of [ready_insert(t)] when the priority of
    [t] is already in the ready list: the violation is reported and the task
    is not inserted. *)
Definition insert_rejected (newTCB : TCBPtr) (s : kstate) : Prop :=
  (exists msg, console (after (insertReady newTCB s)) = console s ++ [msg]) /\
  ready_list (after (insertReady newTCB s)) = ready_list s.

(** ** The messages held by a queue

    The [k]-th slot after the read position, and the messages of the queue
    from the oldest to the newest. *)
Definition slot_at (q : YKQ) (k : Z) : Z :=
  q_start q + (nextMsg q - q_start q + k) mod maxEntries q.

Definition contents (mem : Z -> Z) (q : YKQ) : list Z :=
  (fun k => mem (slot_at q (Z.of_nat k))) <$> seq 0 (Z.to_nat (numEntries q)).

Definition queue_contents (s : kstate) (QPtr : nat) : option (list Z) :=
  contents (msgmem s) <$> YKQueues s !! QPtr.

(** ** Calls that do not reach the dispatcher

    The call returns (in a state satisfying [I]) or stops; it never leaves
    the processor. *)
Definition nosw {A : Type} (I : kstate -> Prop) (o : outcome A) : Prop :=
  match o with
  | Ret _ s => I s
  | Fault _ => True
  | Switch _ _ => False
  end.

Definition quiet {A : Type} (I : kstate -> Prop) (m : M A) : Prop :=
  forall s, I s -> nosw I (m s).

(** The interrupt nesting level, the started flag and the current task of
    [s] are those of [s0]. *)
Definition same_context (s0 s : kstate) : Prop :=
  YKInterruptNestLevel s = YKInterruptNestLevel s0 /\
  YKStartedFlag s = YKStartedFlag s0 /\
  YKCurrentTask s = YKCurrentTask s0.

(** ** What the list helpers change

    The pool with the links erased: the list helpers change [next] and
    [prev] only. *)
Definition tcores (tasks : list TCB) : list TCB :=
  (fun t => set_next NULL (set_prev NULL t)) <$> tasks.

(** [s'] differs from [s] in the links of the tasks of [l], in the ends of
    the ready list and in the console only. *)
Definition ready_relinked (l : list nat) (s s' : kstate) : Prop :=
  s' = with_console (console s')
         (with_YKTasks (YKTasks s')
            (with_YKReadyTail (YKReadyTail s') (with_YKReadyHead (YKReadyHead s') s))) /\
  tcores (YKTasks s') = tcores (YKTasks s) /\
  forall i, i ∉ l -> YKTasks s' !! i = YKTasks s !! i.

(** Boolean versions of [dll] and [ready_is], to check a concrete state. *)
Definition dllb (tasks : list TCB) : TCBPtr -> list nat -> TCBPtr -> bool :=
  fix go pv l nx :=
    match l with
    | [] => true
    | i :: l' =>
        match tasks !! i with
        | Some t => ptr_eqb (prev t) pv && ptr_eqb (next t) (head_or l' nx) && go (Some i) l' nx
        | None => false
        end
    end.

Definition ready_isb (s : kstate) (l : list nat) : bool :=
  bool_decide (NoDup l) && dllb (YKTasks s) NULL l NULL &&
  ptr_eqb (YKReadyHead s) (head_or l NULL) && ptr_eqb (YKReadyTail s) (last_or l NULL).

(** ** The delayed list

    Delay counts are relative: a task is due [total_delay] ticks from now,
    the sum of the counts up to it. *)
Definition delay_of (tasks : list TCB) (i : nat) : Z :=
  match tasks !! i with Some t => delayCount t | None => 0 end.

Definition total_delay (tasks : list TCB) (l : list nat) : Z :=
  foldr (fun i a => delay_of tasks i + a) 0 l.

(** The delayed list of [s] is the list [l] of distinct pool entries. *)
Definition delayed_is (s : kstate) (l : list nat) : Prop :=
  NoDup l /\ dll (YKTasks s) NULL l NULL /\
  YKDelayedHead s = head_or l NULL /\ YKDelayedTail s = last_or l NULL.

(** The pool with the links and the delay counts erased, and what
    [insertDelayed] leaves unchanged. *)
Definition dcores (tasks : list TCB) : list TCB :=
  (fun t => set_delayCount 0 (set_next NULL (set_prev NULL t))) <$> tasks.

Definition delayed_relinked (l : list nat) (s s' : kstate) : Prop :=
  s' = with_YKTasks (YKTasks s')
         (with_YKDelayedTail (YKDelayedTail s') (with_YKDelayedHead (YKDelayedHead s') s)) /\
  dcores (YKTasks s') = dcores (YKTasks s) /\
  forall i, i ∉ l -> YKTasks s' !! i = YKTasks s !! i.

Definition delayed_isb (s : kstate) (l : list nat) : bool :=
  bool_decide (NoDup l) && dllb (YKTasks s) NULL l NULL &&
  ptr_eqb (YKDelayedHead s) (head_or l NULL) && ptr_eqb (YKDelayedTail s) (last_or l NULL).

(** The third of three tasks has left the ready list with a delay count of
    8, as in the first half of [YKDelayTask]; the other two are due in 7 and
    in 10 ticks. *)
Definition delay_8_pending : kstate :=
  after ((removeReady (Some 3%nat) ;; wr (set_delayCount 8) (Some 3%nat)) delay_10_7).

(** ** Pending lists

    A pending list hangs from the [pendHead] of a semaphore or of a queue:
    [ok] says that the structure exists, [hd] reads its [pendHead] and [upd]
    writes it. *)
Definition pend_is (ok : kstate -> Prop) (hd : kstate -> TCBPtr) (s : kstate)
    (l : list nat) : Prop :=
  ok s /\ NoDup l /\ dll (YKTasks s) NULL l NULL /\ hd s = head_or l NULL.

Definition pend_relinked (hd : kstate -> TCBPtr) (upd : TCBPtr -> kstate -> kstate)
    (l : list nat) (s s' : kstate) : Prop :=
  s' = upd (hd s') (with_YKTasks (YKTasks s') s) /\
  tcores (YKTasks s') = tcores (YKTasks s) /\
  forall i, i ∉ l -> YKTasks s' !! i = YKTasks s !! i.

(** The pending list of the semaphore [i]. *)
Definition sem_ok (i : nat) (s : kstate) : Prop := is_Some (YKSemaphores s !! i).

Definition sem_head (i : nat) (s : kstate) : TCBPtr :=
  match YKSemaphores s !! i with Some m => sem_pendHead m | None => NULL end.

Definition sem_set_head (i : nat) (p : TCBPtr) (s : kstate) : kstate :=
  match YKSemaphores s !! i with
  | Some m => with_YKSemaphores (<[i := set_sem_pendHead p m]> (YKSemaphores s)) s
  | None => s
  end.

(** Two tasks of priority 10 and 20 and a semaphore of value 0, on which
    first the one, then both pend. *)
Definition sem_waiters_start : kstate :=
  started_with (YKNewTask 0 0 10 ;; YKNewTask 0 0 20 ;; _ <- YKSemCreate 0 ;; ret tt).
Definition sem_one_waiter : kstate := after (YKSemPend 0%nat sem_waiters_start).
Definition sem_two_waiters : kstate := after (YKSemPend 0%nat sem_one_waiter).

(** The pending list of the queue [i]. *)
Definition q_ok (i : nat) (s : kstate) : Prop := is_Some (YKQueues s !! i).

Definition q_head (i : nat) (s : kstate) : TCBPtr :=
  match YKQueues s !! i with Some q => q_pendHead q | None => NULL end.

Definition q_set_head (i : nat) (p : TCBPtr) (s : kstate) : kstate :=
  match YKQueues s !! i with
  | Some q => with_YKQueues (<[i := set_q_pendHead p q]> (YKQueues s)) s
  | None => s
  end.

(** The rest of [YKQPend] once the queue is known, or believed, to hold a
    message. *)
Definition pend_take (QPtr : nat) (iStatus : bool) : M Z :=
  q1 <- load_q QPtr ;;
  msg <- gets (fun s => msgmem s (nextMsg q1)) ;;
  (if nextMsg q1 =? q_end q1
   then wr_q (set_nextMsg (q_start q1)) QPtr
   else wr_q (set_nextMsg (nextMsg q1 + 1)) QPtr) ;;
  q2 <- load_q QPtr ;;
  wr_q (set_numEntries (wrap_uint (numEntries q2 - 1))) QPtr ;;
  when iStatus YKExitMutex ;;
  ret msg.

(** The task of priority 10 waits on the empty queue. *)
Definition q_one_waiter : kstate := after (YKQPend 0%nat waiters_start).

(** The state in which the tick handler returns, from the state [s] in
    which it reaches its post to the queue [MsgQPtr] (with record [q] and no
    waiter): the message is in the queue, or the overflow is reported;
    interrupts are on. *)
Definition tick_posted (MsgQPtr : nat) (q : YKQ) (msg : Z) (s : kstate) : kstate :=
  with_intEnabled true
    (if maxEntries q <=? numEntries q
     then with_console (console s ++ ["ERROR in YKTickHandler(): queue overflow!\n\r"%string]) s
     else posted MsgQPtr q msg s).

(** Two tasks delayed: the task of priority 5 is due in one tick, the task
    of priority 1 four ticks later; the tasks of priority 10 and 20 and the
    idle task are ready. *)
Definition two_delayed : kstate :=
  after (YKDelayTask 1 (after (YKDelayTask 5 race_start))).

(** The interrupt has posted a message to the queue on which two tasks
    wait. *)
Definition posted_in_isr : kstate := after (YKQPost 0%nat 77 two_waiters_in_isr).

(** The tasks of [l] are in strictly increasing order of priority value:
    the most urgent task first. *)
Fixpoint prio_sorted (tasks : list TCB) (l : list nat) : Prop :=
  match l with
  | [] => True
  | i :: l' => Forall (fun j => prio_of tasks i < prio_of tasks j) l' /\ prio_sorted tasks l'
  end.


(** * Properties *)

(** ** Symbolic execution *)

Section Exec.
Context {A B : Type}.

Lemma bind_Ret (m : M A) (f : A -> M B) (s s' : kstate) (a : A) :
    m s = Ret a s' -> (x <- m ;; f x) s = f a s'.
Proof. unfold bind. intros ->. reflexivity. Qed.

Lemma bind_Fault (m : M A) (f : A -> M B) (s : kstate) (e : fault) :
    m s = Fault e -> (x <- m ;; f x) s = Fault e.
Proof. unfold bind. intros ->. reflexivity. Qed.
End Exec.

Lemma load_Some (s : kstate) (i : nat) (t : TCB) :
  YKTasks s !! i = Some t -> load (Some i) s = Ret t s.
Proof. unfold load. intros ->. reflexivity. Qed.

Lemma rd_Some {A : Type} (f : TCB -> A) (s : kstate) (i : nat) (t : TCB) :
  YKTasks s !! i = Some t -> rd f (Some i) s = Ret (f t) s.
Proof. intros H. unfold rd. rewrite (bind_Ret _ _ _ _ _ (load_Some _ _ _ H)). reflexivity. Qed.

Lemma rd_NULL {A : Type} (f : TCB -> A) (s : kstate) : rd f NULL s = Fault NullDeref.
Proof. reflexivity. Qed.

Lemma wr_Some (upd : TCB -> TCB) (s : kstate) (i : nat) (t : TCB) :
  YKTasks s !! i = Some t ->
  wr upd (Some i) s = Ret tt (with_YKTasks (<[i := upd t]> (YKTasks s)) s).
Proof. intros H. unfold wr. rewrite (bind_Ret _ _ _ _ _ (load_Some _ _ _ H)). reflexivity. Qed.

Lemma wr_NULL (upd : TCB -> TCB) (s : kstate) : wr upd NULL s = Fault NullDeref.
Proof. reflexivity. Qed.

Lemma load_q_Some (s : kstate) (i : nat) (q : YKQ) :
  YKQueues s !! i = Some q -> load_q i s = Ret q s.
Proof. unfold load_q. intros ->. reflexivity. Qed.

Lemma wr_q_Some (upd : YKQ -> YKQ) (s : kstate) (i : nat) (q : YKQ) :
  YKQueues s !! i = Some q ->
  wr_q upd i s = Ret tt (with_YKQueues (<[i := upd q]> (YKQueues s)) s).
Proof. intros H. unfold wr_q. rewrite (bind_Ret _ _ _ _ _ (load_q_Some _ _ _ H)). reflexivity. Qed.

Lemma with_intEnabled_same (s : kstate) : with_intEnabled (intEnabled s) s = s.
Proof. destruct s; reflexivity. Qed.

Lemma with_intEnabled_twice (a b : bool) (s : kstate) :
  with_intEnabled a (with_intEnabled b s) = with_intEnabled a s.
Proof. reflexivity. Qed.

(** Leaving the critical section restores the interrupt flag found on entry. *)
Lemma mutex_restore (s : kstate) :
  when (intEnabled s) YKExitMutex (with_intEnabled false s) = Ret tt s.
Proof.
  destruct (intEnabled s) eqn:E; cbn.
  - unfold YKExitMutex, modify. rewrite with_intEnabled_twice, <- E.
    now rewrite with_intEnabled_same.
  - rewrite <- E. now rewrite with_intEnabled_same.
Qed.

(** ** The scheduler *)

(** Run the code on the state of the goal, using the facts at hand about
    the pointers and pool entries it reads. *)
Ltac run :=
  cbn;
  repeat match goal with
         | H : ?l = ?r |- context [?l] =>
             first [is_var l; fail 1 | rewrite H; cbn]
         end.

Lemma YKScheduler_cases (s : kstate) :
  match load (YKReadyHead s) s, load (YKCurrentTask s) s with
  | Ret th _, Ret tc _ =>
      if taskID th =? taskID tc then YKScheduler s = Ret tt s
      else YKScheduler s =
           Switch (sched_switch_state s)
             (fun s' => when (intEnabled s) YKExitMutex s')
  | Fault e, _ => YKScheduler s = Fault e
  | _, Fault e => YKScheduler s = Fault e
  | _, _ => True
  end.
Proof.
  unfold load.
  destruct (YKReadyHead s) as [h|] eqn:Eh.
  2:{ unfold YKScheduler, YKEnterMutex, rd, load. now run. }
  destruct (YKTasks s !! h) as [th|] eqn:Eth.
  2:{ unfold YKScheduler, YKEnterMutex, rd, load. now run. }
  destruct (YKCurrentTask s) as [c|] eqn:Ec.
  2:{ unfold YKScheduler, YKEnterMutex, rd, load. now run. }
  destruct (YKTasks s !! c) as [tc|] eqn:Etc.
  2:{ unfold YKScheduler, YKEnterMutex, rd, load. now run. }
  destruct (taskID th =? taskID tc) eqn:E.
  - unfold YKScheduler, YKEnterMutex, rd, load. run. apply mutex_restore.
  - unfold YKScheduler, YKEnterMutex, rd, load, sched_switch_state. now run.
Qed.

(** C10: a call of the scheduler either changes nothing, or, the ready-list
    head not being the current task, counts one context switch and makes the
    head current; the ready and delayed lists, the semaphores, the queues and
    their messages and the tick counter are as before.  Interrupts are off
    while the processor is away and restored when the call returns. *)
Theorem scheduler_frame (s : kstate) :
  match YKScheduler s with
  | Ret _ s' => s' = s
  | Switch s' k =>
      YKReadyHead s <> YKCurrentTask s /\
      s' = sched_switch_state s /\
      sched_frame s s' /\
      YKCtxSwCount s' = wrap_int (YKCtxSwCount s + 1) /\
      YKCurrentTask s' = YKReadyHead s /\
      forall s'', k s'' = Ret tt (if intEnabled s then with_intEnabled true s'' else s'')
  | Fault _ => True
  end.
Proof.
  pose proof (YKScheduler_cases s) as H.
  destruct (load (YKReadyHead s) s) as [th s1|e|] eqn:E1.
  - destruct (load (YKCurrentTask s) s) as [tc s2|e|] eqn:E2.
    + destruct (taskID th =? taskID tc) eqn:E; rewrite H; [reflexivity|].
      split.
      { intros Heq. rewrite Heq, E2 in E1. injection E1 as -> _.
        rewrite Z.eqb_refl in E. discriminate. }
      split; [reflexivity|]. split; [now repeat split|].
      split; [reflexivity|]. split; [reflexivity|].
      intros s''. now destruct (intEnabled s).
    + now rewrite H.
    + unfold load in E2. now repeat case_match.
  - now rewrite H.
  - unfold load in E1. now repeat case_match.
Qed.

(** Both cases of the scheduler occur: with the highest-priority task
    running nothing happens; with the idle task current, it is preempted. *)
Example scheduler_frame_cases :
  YKScheduler delay_start = Ret tt delay_start /\
  switched (YKScheduler (with_YKCurrentTask (Some 0%nat) delay_start))
  = Some (with_intEnabled false (with_YKCtxSwCount 1 delay_start)).
Proof. split; vm_compute; reflexivity. Qed.

(** ** Invariants that depend on the queues and their messages only *)

Section Outcomes.
Context {A B : Type}.
Variable I : kstate -> Prop.

Lemma osat_obind (P : B -> Prop) (o : outcome A) (f : A -> kstate -> outcome B) :
    osat I (fun _ => True) o ->
    (forall a s, I s -> osat I P (f a s)) ->
    osat I P (obind o f).
Proof.
    intros Ho Hf. induction o as [a s|e|s k IH]; simpl in *.
    - apply Hf, Ho.
    - trivial.
    - destruct Ho as [Hs Hk]. split; [exact Hs|].
      intros s' Hs'. apply IH, Hk, Hs'.
Qed.

Lemma osat_bind (P : B -> Prop) (m : M A) (f : A -> M B) (s : kstate) :
    osat I (fun _ => True) (m s) ->
    (forall a s', I s' -> osat I P (f a s')) ->
    osat I P ((x <- m ;; f x) s).
Proof. apply osat_obind. Qed.

Lemma preserves_bind (m : M A) (f : A -> M B) :
    preserves I m -> (forall a, preserves I (f a)) -> preserves I (x <- m ;; f x).
Proof. intros Hm Hf s Hs. apply osat_bind; [now apply Hm|]. intros a s'. apply Hf. Qed.
End Outcomes.

Section Stable.
Variable I : kstate -> Prop.
Hypothesis I_stable : qstable I.

Lemma preserves_ret {A : Type} (a : A) : preserves I (ret a).
Proof. intros s Hs. now split. Qed.

Lemma preserves_gets {A : Type} (f : kstate -> A) : preserves I (gets f).
Proof. intros s Hs. now split. Qed.

Lemma preserves_raise {A : Type} (e : fault) : preserves I (@raise A e).
Proof. intros s Hs. exact Logic.I. Qed.

Lemma preserves_modify (f : kstate -> kstate) :
    (forall s, msgmem (f s) = msgmem s /\ YKQueues (f s) = YKQueues s) ->
    preserves I (modify f).
Proof.
    intros Hf s Hs. split; [|trivial]. destruct (Hf s) as [Hm Hq].
    apply (I_stable s); [exact Hm| |exact Hs]. unfold qcores. now rewrite Hq.
Qed.

Lemma preserves_when (b : bool) (m : M unit) : preserves I m -> preserves I (when b m).
Proof. destruct b; [trivial|]. intros _. apply preserves_ret. Qed.

Lemma preserves_printString (msg : string) : preserves I (printString msg).
Proof. apply preserves_modify. now intros s. Qed.

Lemma preserves_load (p : TCBPtr) : preserves I (load p).
Proof. intros s Hs. unfold load. repeat case_match; simpl; auto. Qed.

Lemma preserves_rd {A : Type} (f : TCB -> A) (p : TCBPtr) : preserves I (rd f p).
Proof.
    apply preserves_bind; [apply preserves_load|]. intros t. apply preserves_ret.
Qed.

Lemma preserves_wr (upd : TCB -> TCB) (p : TCBPtr) : preserves I (wr upd p).
Proof.
    apply preserves_bind; [apply preserves_load|]. intros t.
    destruct p; [|apply preserves_raise]. apply preserves_modify. now intros s.
Qed.

Lemma preserves_touch (p : TCBPtr) : preserves I (touch p).
Proof.
    apply preserves_bind; [apply preserves_load|]. intros t. apply preserves_ret.
Qed.

Lemma preserves_load_sem (i : nat) : preserves I (load_sem i).
Proof. intros s Hs. unfold load_sem. case_match; simpl; auto. Qed.

Lemma preserves_wr_sem (upd : YKSEM -> YKSEM) (i : nat) : preserves I (wr_sem upd i).
Proof.
    apply preserves_bind; [apply preserves_load_sem|]. intros m.
    apply preserves_modify. now intros s.
Qed.

Lemma preserves_load_q (i : nat) : preserves I (load_q i).
Proof. intros s Hs. unfold load_q. case_match; simpl; auto. Qed.

Lemma preserves_wr_q_pendHead (p : TCBPtr) (i : nat) :
    preserves I (wr_q (set_q_pendHead p) i).
Proof.
    intros s Hs. unfold wr_q, bind, load_q.
    destruct (YKQueues s !! i) as [q|] eqn:Hq; simpl; [|trivial].
    split; [|trivial]. apply (I_stable s); [reflexivity| |exact Hs].
    unfold qcores. simpl. rewrite list_fmap_insert.
    apply list_insert_id. rewrite list_lookup_fmap, Hq. reflexivity.
Qed.

Lemma preserves_YKEnterMutex : preserves I YKEnterMutex.
Proof.
    apply preserves_bind; [apply preserves_gets|]. intros i.
    apply preserves_bind; [apply preserves_modify; now intros s|]. intros _.
    apply preserves_ret.
Qed.

Lemma preserves_YKExitMutex : preserves I YKExitMutex.
Proof. apply preserves_modify. now intros s. Qed.

Lemma preserves_YKDispatcher : preserves I YKDispatcher.
Proof.
    intros s Hs. simpl. split.
    - apply (I_stable s); [reflexivity|reflexivity|exact Hs].
    - intros s' Hs'. now split.
Qed.
End Stable.

(** Decompose the code of a helper into its memory accesses. *)
Ltac pres1 :=
  lazymatch goal with
  | |- qstable _ => assumption
  | |- preserves _ (bind _ _) => apply preserves_bind; [|intros ?]
  | |- preserves _ (ret _) => apply preserves_ret
  | |- preserves _ (gets _) => apply preserves_gets
  | |- preserves _ (raise _) => apply preserves_raise
  | |- preserves _ (printString _) => apply preserves_printString
  | |- preserves _ (rd _ _) => apply preserves_rd
  | |- preserves _ (wr _ _) => apply preserves_wr
  | |- preserves _ (touch _) => apply preserves_touch
  | |- preserves _ (load_sem _) => apply preserves_load_sem
  | |- preserves _ (wr_sem _ _) => apply preserves_wr_sem
  | |- preserves _ (load_q _) => apply preserves_load_q
  | |- preserves _ (wr_q (set_q_pendHead _) _) => apply preserves_wr_q_pendHead
  | |- preserves _ YKEnterMutex => apply preserves_YKEnterMutex
  | |- preserves _ YKExitMutex => apply preserves_YKExitMutex
  | |- preserves _ YKDispatcher => apply preserves_YKDispatcher
  | |- preserves _ (when _ _) => apply preserves_when
  | |- preserves _ (modify _) => apply preserves_modify; [|now intros ?]
  | |- preserves _ (if ?b then _ else _) => destruct b
  end.

Ltac pres := repeat pres1.

Section Helpers.
Variable I : kstate -> Prop.
Hypothesis I_stable : qstable I.

Lemma preserves_insertReady_walk (fuel : nat) (curTCB newTCB : TCBPtr) :
  preserves I (insertReady_walk fuel curTCB newTCB).
Proof. revert curTCB. induction fuel as [|fuel IH]; intros curTCB; simpl; pres. apply IH. Qed.

Lemma preserves_insertReady (newTCB : TCBPtr) : preserves I (insertReady newTCB).
Proof. unfold insertReady, walk_fuel. pres. apply preserves_insertReady_walk. Qed.

Lemma preserves_removeReady (remTask : TCBPtr) : preserves I (removeReady remTask).
Proof. unfold removeReady. pres. Qed.

Lemma preserves_insertDelayed_walk (fuel : nat) (curTCB newTCB : TCBPtr) :
  preserves I (insertDelayed_walk fuel curTCB newTCB).
Proof. revert curTCB. induction fuel as [|fuel IH]; intros curTCB; simpl; pres. apply IH. Qed.

Lemma preserves_insertDelayed (newTCB : TCBPtr) : preserves I (insertDelayed newTCB).
Proof. unfold insertDelayed, walk_fuel. pres. apply preserves_insertDelayed_walk. Qed.

Lemma preserves_removeDelayed : preserves I removeDelayed.
Proof. unfold removeDelayed. pres. Qed.

Lemma preserves_insertPend_walk (fuel : nat) (curTCB newTCB : TCBPtr) :
  preserves I (insertPend_walk fuel curTCB newTCB).
Proof. revert curTCB. induction fuel as [|fuel IH]; intros curTCB; simpl; pres. apply IH. Qed.

Lemma preserves_insertPend (msg : string) (get_head : M TCBPtr)
    (set_head : TCBPtr -> M unit) (newTCB : TCBPtr) :
  preserves I get_head -> (forall p, preserves I (set_head p)) ->
  preserves I (insertPend msg get_head set_head newTCB).
Proof.
  intros Hg Hs. unfold insertPend, walk_fuel.
  pres; first [exact Hg | apply Hs | apply preserves_insertPend_walk].
Qed.

Lemma preserves_removePend (get_head : M TCBPtr) (set_head : TCBPtr -> M unit) :
  preserves I get_head -> (forall p, preserves I (set_head p)) ->
  preserves I (removePend get_head set_head).
Proof. intros Hg Hs. unfold removePend. pres; first [exact Hg | apply Hs]. Qed.

Lemma preserves_insertPendSem (newTCB : TCBPtr) (ptr : nat) :
  preserves I (insertPendSem newTCB ptr).
Proof. apply preserves_insertPend; [|intros p]; pres. Qed.

Lemma preserves_removePendSem (ptr : nat) : preserves I (removePendSem ptr).
Proof. apply preserves_removePend; [|intros p]; pres. Qed.

Lemma preserves_insertPendQ (newTCB : TCBPtr) (ptr : nat) :
  preserves I (insertPendQ newTCB ptr).
Proof. apply preserves_insertPend; [|intros p]; pres. Qed.

Lemma preserves_removePendQ (ptr : nat) : preserves I (removePendQ ptr).
Proof. apply preserves_removePend; [|intros p]; pres. Qed.

Lemma preserves_allocateTCB : preserves I allocateTCB.
Proof. unfold allocateTCB. pres. Qed.

Lemma preserves_allocateSemaphore : preserves I allocateSemaphore.
Proof. unfold allocateSemaphore. pres. Qed.

Lemma preserves_allocateQueue : preserves I allocateQueue.
Proof. unfold allocateQueue. pres. Qed.

Lemma preserves_YKScheduler : preserves I YKScheduler.
Proof. unfold YKScheduler. pres. Qed.

Lemma preserves_YKNewTask (taskCode taskStack taskPriority : Z) :
  preserves I (YKNewTask taskCode taskStack taskPriority).
Proof.
  unfold YKNewTask. pres;
    first [apply preserves_allocateTCB | apply preserves_insertReady
          | apply preserves_YKScheduler].
Qed.

Lemma preserves_YKEnterISR : preserves I YKEnterISR.
Proof. unfold YKEnterISR. pres. Qed.

Lemma preserves_YKExitISR : preserves I YKExitISR.
Proof. unfold YKExitISR. pres. apply preserves_YKScheduler. Qed.

Lemma preserves_YKDelayTask (n : Z) : preserves I (YKDelayTask n).
Proof.
  unfold YKDelayTask. pres;
    first [apply preserves_removeReady | apply preserves_insertDelayed
          | apply preserves_YKScheduler].
Qed.

Lemma preserves_YKSemCreate (initialValue : Z) : preserves I (YKSemCreate initialValue).
Proof. unfold YKSemCreate. pres. apply preserves_allocateSemaphore. Qed.

Lemma preserves_YKSemPend (semPtr : nat) : preserves I (YKSemPend semPtr).
Proof.
  unfold YKSemPend. pres;
    first [apply preserves_removeReady | apply preserves_insertPendSem
          | apply preserves_YKScheduler].
Qed.

Lemma preserves_YKSemPost (semPtr : nat) : preserves I (YKSemPost semPtr).
Proof.
  unfold YKSemPost. pres;
    first [apply preserves_removePendSem | apply preserves_insertReady
          | apply preserves_YKScheduler].
Qed.

End Helpers.

(** ** Message queues *)

Lemma YKQPost_full (s : kstate) (QPtr : nat) (q : YKQ) (msg : Z) :
  YKQueues s !! QPtr = Some q -> maxEntries q <= numEntries q ->
  YKQPost QPtr msg s = Ret 0 s.
Proof.
  intros Hq Hfull. apply Z.leb_le in Hfull.
  unfold YKQPost, YKEnterMutex, load_q. run.
  rewrite (bind_Ret _ _ _ _ _ (mutex_restore s)). reflexivity.
Qed.

Lemma YKEnterMutex_Ret (s : kstate) :
  YKEnterMutex s = Ret (intEnabled s) (with_intEnabled false s).
Proof. reflexivity. Qed.

(** Execute the first statement of the code in the goal. *)
Ltac step_by tac := erewrite bind_Ret; [|tac].

Lemma YKQPost_not_full (s : kstate) (QPtr : nat) (q : YKQ) (msg : Z) :
  YKQueues s !! QPtr = Some q -> numEntries q < maxEntries q ->
  YKQPost QPtr msg s
  = post_wake QPtr (intEnabled s) (with_intEnabled false (posted QPtr q msg s)).
Proof.
  intros Hq Hfull. apply Z.leb_gt in Hfull.
  assert (Hlen : (QPtr < length (YKQueues s))%nat) by (eapply lookup_lt_Some; eauto).
  unfold YKQPost.
  step_by ltac:(apply YKEnterMutex_Ret).
  step_by ltac:(apply load_q_Some; exact Hq).
  rewrite Hfull.
  step_by ltac:(reflexivity).
  unfold posted, q_put.
  destruct (nextSlot q =? q_end q);
    (step_by ltac:(apply wr_q_Some; exact Hq);
     step_by ltac:(apply load_q_Some; cbn; apply list_lookup_insert_eq; exact Hlen);
     step_by ltac:(apply wr_q_Some; cbn; apply list_lookup_insert_eq; exact Hlen);
     cbn; rewrite list_insert_insert_eq; reflexivity).
Qed.

Lemma posted_lookup (QPtr : nat) (q : YKQ) (msg : Z) (s : kstate) :
  YKQueues s !! QPtr = Some q ->
  YKQueues (posted QPtr q msg s) !! QPtr = Some (q_put q).
Proof. intros Hq. cbn. apply list_lookup_insert_eq. eapply lookup_lt_Some; eauto. Qed.

Lemma taken_lookup (QPtr : nat) (q : YKQ) (s : kstate) :
  YKQueues s !! QPtr = Some q ->
  YKQueues (taken QPtr q s) !! QPtr = Some (q_take q).
Proof. intros Hq. cbn. apply list_lookup_insert_eq. eapply lookup_lt_Some; eauto. Qed.

Lemma YKQPost_no_waiter (s : kstate) (QPtr : nat) (q : YKQ) (msg : Z) :
  YKQueues s !! QPtr = Some q -> numEntries q < maxEntries q ->
  q_pendHead q = NULL ->
  YKQPost QPtr msg s = Ret 1 (posted QPtr q msg s).
Proof.
  intros Hq Hfull Hp. rewrite (YKQPost_not_full _ _ _ _ Hq Hfull).
  assert (Hlen : (QPtr < length (YKQueues s))%nat) by (eapply lookup_lt_Some; eauto).
  unfold post_wake, load_q, posted, q_put, YKExitMutex.
  destruct s as [? ? ? ? ? ? ? ? ? ? ? ? ? ? ? ? ? ie ? ?]; cbn in *.
  rewrite list_lookup_insert_eq by exact Hlen. cbn. rewrite Hp. cbn.
  now destruct ie.
Qed.

Lemma YKQPend_nonempty (s : kstate) (QPtr : nat) (q : YKQ) :
  YKQueues s !! QPtr = Some q -> numEntries q <> 0 ->
  YKQPend QPtr s = Ret (msgmem s (nextMsg q)) (taken QPtr q s).
Proof.
  intros Hq Hne. apply Z.eqb_neq in Hne.
  assert (Hlen : (QPtr < length (YKQueues s))%nat) by (eapply lookup_lt_Some; eauto).
  unfold YKQPend, YKEnterMutex, load_q, wr_q, load_q, taken, q_take, YKExitMutex.
  destruct s as [? ? ? ? ? ? ? ? ? ? ? ? ? ? ? ? ? ie ? ?]; cbn in *.
  rewrite Hq. cbn. rewrite Hne. cbn. rewrite Hq. cbn.
  destruct (nextMsg q =? q_end q); cbn; rewrite Hq; cbn;
    rewrite list_lookup_insert_eq by exact Hlen; cbn;
    rewrite list_lookup_insert_eq by exact Hlen; cbn;
    rewrite list_insert_insert_eq; now destruct ie.
Qed.

Lemma wrap_uint_small (z : Z) : 0 <= z < 65536 -> wrap_uint z = z.
Proof. intros H. unfold wrap_uint. now apply Z.mod_small. Qed.

Lemma queue_wf_empty (q : YKQ) :
  queue_wf q -> numEntries q = 0 -> nextSlot q = nextMsg q.
Proof.
  intros (Hmax & Hend & Hmsg & Hn & Hslot) H0. rewrite Hslot, H0, Z.add_0_r.
  rewrite Z.mod_small by lia. lia.
Qed.


Lemma queue_wf_take (q : YKQ) :
  queue_wf q -> 0 < numEntries q -> queue_wf (q_take q).
Proof.
  intros (Hmax & Hend & Hmsg & Hn & Hslot) Hne.
  unfold queue_wf, q_take. cbn.
  rewrite wrap_uint_small by lia.
  repeat split; try (destruct (nextMsg q =? q_end q) eqn:E;
                     [apply Z.eqb_eq in E|apply Z.eqb_neq in E]; lia).
  rewrite Hslot.
  destruct (nextMsg q =? q_end q) eqn:E; [apply Z.eqb_eq in E|apply Z.eqb_neq in E].
  - f_equal.
    replace (nextMsg q - q_start q + numEntries q)
      with ((q_start q - q_start q + (numEntries q - 1)) + 1 * maxEntries q) by lia.
    now rewrite Z.mod_add by lia.
  - f_equal. f_equal. lia.
Qed.

(** Queues made by [YKQCreate] with a size in [1 .. 65535] are well formed. *)
Lemma YKQCreate_wf (s : kstate) (base size : Z) (q0 : YKQ) :
  0 < size < 65536 ->
  YKQueues s !! numQueuesCreated s = Some q0 ->
  exists s' q,
    YKQCreate base size s = Ret (numQueuesCreated s) s' /\
    YKQueues s' !! numQueuesCreated s = Some q /\
    queue_wf q /\ numEntries q = 0 /\ maxEntries q = size /\ q_pendHead q = NULL.
Proof.
  intros Hsize Hq.
  assert (Hlen : (numQueuesCreated s < length (YKQueues s))%nat)
    by (eapply lookup_lt_Some; eauto).
  unfold YKQCreate, YKEnterMutex, allocateQueue, wr_q, load_q, printString, YKExitMutex.
  rewrite !wrap_uint_small by lia.
  destruct s as [? ? ? ? ? qs ? ? ? ? ? ? ? ? ? ? nq ie ? ?]; cbn -[Nat.leb] in *.
  destruct (Nat.leb MAX_QUEUES nq); cbn; rewrite Hq; cbn;
    destruct ie; cbn; eexists _, _;
    (split; [reflexivity|]); cbn;
    (split; [apply list_lookup_insert_eq; exact Hlen|]);
    unfold queue_wf; cbn; rewrite Z.add_0_r, Z.sub_diag, Z.mod_0_l by lia;
    repeat split; lia.
Qed.

Lemma qcores_lookup (s s' : kstate) (i : nat) (q : YKQ) :
  qcores s' = qcores s -> YKQueues s !! i = Some q ->
  exists q', YKQueues s' !! i = Some q' /\
             numEntries q' = numEntries q /\ maxEntries q' = maxEntries q.
Proof.
  unfold qcores. intros Hc Hq.
  assert (H : (set_q_pendHead NULL <$> YKQueues s') !! i
              = Some (set_q_pendHead NULL q))
    by (rewrite Hc, list_lookup_fmap, Hq; reflexivity).
  rewrite list_lookup_fmap in H.
  destruct (YKQueues s' !! i) as [q'|]; [|discriminate].
  exists q'. injection H as Hn Hm _ _ _ _. now repeat split.
Qed.

Lemma placed_stable (QPtr : nat) (msg : Z) (s : kstate) : qstable (placed QPtr msg s).
Proof.
  intros s1 s2 Hm Hc (q & q1 & Hq & Hq1 & Hmsg & Hn).
  destruct (qcores_lookup _ _ _ _ Hc Hq1) as (q2 & Hq2 & Hn2 & _).
  exists q, q2. rewrite Hm. repeat split; [exact Hq|exact Hq2|exact Hmsg|congruence].
Qed.

(** One post to a well-formed, empty queue without waiters, then one pend. *)
Lemma post_then_pend (s : kstate) (QPtr : nat) (q : YKQ) (m : Z) :
  YKQueues s !! QPtr = Some q -> queue_wf q ->
  numEntries q = 0 -> q_pendHead q = NULL ->
  YKQPost QPtr m s = Ret 1 (posted QPtr q m s) /\
  YKQPend QPtr (posted QPtr q m s)
  = Ret m (taken QPtr (q_put q) (posted QPtr q m s)) /\
  numEntries (q_take (q_put q)) = 0.
Proof.
  intros Hq Hwf H0 Hp.
  pose proof Hwf as (Hmax & Hend & Hmsg & Hn & Hslot).
  assert (H1 : numEntries (q_put q) = 1).
  { cbn. rewrite H0. reflexivity. }
  split; [apply YKQPost_no_waiter; auto; lia|].
  split.
  - rewrite (YKQPend_nonempty _ _ _ (posted_lookup _ _ m _ Hq)) by lia.
    f_equal. cbn. rewrite (queue_wf_empty q Hwf H0), Z.eqb_refl. reflexivity.
  - cbn. rewrite H0. reflexivity.
Qed.

(** Decide the comparisons of slot addresses in the goal. *)
Ltac zcases :=
  repeat match goal with
         | H : (_ =? _) = true |- _ => apply Z.eqb_eq in H
         | H : (_ =? _) = false |- _ => apply Z.eqb_neq in H
         | |- context [?x =? ?y] => destruct (x =? y) eqn:?
         | H : context [?x =? ?y] |- _ => destruct (x =? y) eqn:?
         end;
  try lia; try reflexivity.

Lemma three_posts_three_pends (s : kstate) (QPtr : nat) (q : YKQ) (m1 m2 m3 : Z) :
  YKQueues s !! QPtr = Some q -> queue_wf q ->
  numEntries q = 0 -> q_pendHead q = NULL -> maxEntries q = 4 ->
  exists s' q',
    post3_pend3 QPtr m1 m2 m3 s = Ret (1, 1, 1, (m1, m2, m3)) s' /\
    YKQueues s' !! QPtr = Some q' /\ numEntries q' = 0.
Proof.
  intros Hq Hwf H0 Hp H4.
  pose proof Hwf as (Hmax & Hend & Hmsg & Hn & Hslot).
  pose proof (queue_wf_empty q Hwf H0) as Hsm.
  set (q1 := q_put q). set (q2 := q_put q1). set (q3 := q_put q2).
  set (s1 := posted QPtr q m1 s). set (s2 := posted QPtr q1 m2 s1).
  set (s3 := posted QPtr q2 m3 s2).
  set (p1 := q_take q3). set (p2 := q_take p1). set (p3 := q_take p2).
  set (t1 := taken QPtr q3 s3). set (t2 := taken QPtr p1 t1).
  set (t3 := taken QPtr p2 t2).
  assert (L1 : YKQueues s1 !! QPtr = Some q1) by exact (posted_lookup _ _ _ _ Hq).
  assert (L2 : YKQueues s2 !! QPtr = Some q2) by exact (posted_lookup _ _ _ _ L1).
  assert (L3 : YKQueues s3 !! QPtr = Some q3) by exact (posted_lookup _ _ _ _ L2).
  assert (T1 : YKQueues t1 !! QPtr = Some p1) by exact (taken_lookup _ _ _ L3).
  assert (T2 : YKQueues t2 !! QPtr = Some p2) by exact (taken_lookup _ _ _ T1).
  assert (T3 : YKQueues t3 !! QPtr = Some p3) by exact (taken_lookup _ _ _ T2).
  assert (N1 : numEntries q1 = 1) by (cbn; now rewrite H0).
  assert (N2 : numEntries q2 = 2) by (cbn; now rewrite H0).
  assert (N3 : numEntries q3 = 3) by (cbn; now rewrite H0).
  assert (M1 : numEntries p1 = 2) by (cbn; now rewrite H0).
  assert (M2 : numEntries p2 = 1) by (cbn; now rewrite H0).
  assert (M3 : numEntries p3 = 0) by (cbn; now rewrite H0).
  exists t3, p3. split; [|split; [exact T3|exact M3]].
  unfold post3_pend3.
  step_by ltac:(apply (YKQPost_no_waiter _ _ _ _ Hq); [lia|exact Hp]).
  step_by ltac:(apply (YKQPost_no_waiter _ _ _ _ L1); [rewrite N1; cbn; lia|exact Hp]).
  step_by ltac:(apply (YKQPost_no_waiter _ _ _ _ L2); [rewrite N2; cbn; lia|exact Hp]).
  step_by ltac:(apply (YKQPend_nonempty _ _ _ L3); lia).
  step_by ltac:(apply (YKQPend_nonempty _ _ _ T1); lia).
  step_by ltac:(apply (YKQPend_nonempty _ _ _ T2); lia).
  unfold ret. f_equal.
  assert (E1 : msgmem s3 (nextMsg q3) = m1).
  { cbn. rewrite Hsm. zcases. }
  assert (E2 : msgmem t1 (nextMsg p1) = m2).
  { cbn. rewrite Hsm. zcases. }
  assert (E3 : msgmem t2 (nextMsg p2) = m3).
  { cbn. rewrite Hsm. zcases. }
  now rewrite E1, E2, E3.
Qed.

(** C3: on a queue that is empty, has no waiting task and is laid out as
    [YKQCreate] makes it and posts and pends keep it ([YKQCreate_wf],
    [queue_wf_put], [queue_wf_take]), a post of [m] returns 1 and the pend
    that follows returns the same pointer [m], leaving the queue empty; when
    the capacity is 4, three posts of [m1], [m2], [m3] followed by three pends
    return [m1], [m2], [m3] in that order and leave the occupancy at 0. *)
Theorem queue_fifo_roundtrip (s : kstate) (QPtr : nat) (q : YKQ) :
  YKQueues s !! QPtr = Some q -> queue_wf q ->
  numEntries q = 0 -> q_pendHead q = NULL ->
  (forall m, exists s1 s2 q2,
      YKQPost QPtr m s = Ret 1 s1 /\ YKQPend QPtr s1 = Ret m s2 /\
      YKQueues s2 !! QPtr = Some q2 /\ numEntries q2 = 0) /\
  (maxEntries q = 4 ->
   forall m1 m2 m3, exists s' q',
      post3_pend3 QPtr m1 m2 m3 s = Ret (1, 1, 1, (m1, m2, m3)) s' /\
      YKQueues s' !! QPtr = Some q' /\ numEntries q' = 0).
Proof.
  intros Hq Hwf H0 Hp. split.
  - intros m.
    destruct (post_then_pend s QPtr q m Hq Hwf H0 Hp) as (Hpost & Hpend & Hn).
    exists (posted QPtr q m s), (taken QPtr (q_put q) (posted QPtr q m s)),
      (q_take (q_put q)).
    split; [exact Hpost|]. split; [exact Hpend|]. split; [|exact Hn].
    exact (taken_lookup _ _ _ (posted_lookup _ _ m _ Hq)).
  - intros H4 m1 m2 m3. exact (three_posts_three_pends s QPtr q m1 m2 m3 Hq Hwf H0 Hp H4).
Qed.

(** The queue of four slots made by [YKQCreate 1000 4]. *)
Lemma queue_fifo_roundtrip_witness :
  YKQueues queue_start !! 0%nat = Some (mkQ 0 4 1000 1003 1000 1000 NULL) /\
  queue_wf (mkQ 0 4 1000 1003 1000 1000 NULL) /\
  (exists s1 s2 q2,
      YKQPost 0%nat 7 queue_start = Ret 1 s1 /\ YKQPend 0%nat s1 = Ret 7 s2 /\
      YKQueues s2 !! 0%nat = Some q2 /\ numEntries q2 = 0) /\
  (exists s' q',
      post3_pend3 0%nat 11 22 33 queue_start = Ret (1, 1, 1, (11, 22, 33)) s' /\
      YKQueues s' !! 0%nat = Some q' /\ numEntries q' = 0).
Proof.
  assert (Hq : YKQueues queue_start !! 0%nat = Some (mkQ 0 4 1000 1003 1000 1000 NULL))
    by (vm_compute; reflexivity).
  assert (Hwf : queue_wf (mkQ 0 4 1000 1003 1000 1000 NULL))
    by (unfold queue_wf; vm_compute; intuition discriminate).
  split; [exact Hq|]. split; [exact Hwf|].
  destruct (queue_fifo_roundtrip queue_start 0%nat _ Hq Hwf eq_refl eq_refl) as [H1 H3].
  split; [apply H1|apply H3; reflexivity].
Defined.

(** ** The delayed list *)

Lemma removeDelayed_empty (s : kstate) :
  YKDelayedHead s = NULL -> removeDelayed s = Ret NULL s.
Proof. intros H. unfold removeDelayed. now run. Qed.

Lemma removeDelayed_not_expired (s : kstate) (h : nat) (t : TCB) :
  YKDelayedHead s = Some h -> YKTasks s !! h = Some t -> delayCount t <> 0 ->
  removeDelayed s = Ret NULL s.
Proof.
  intros Hh Ht Hd. apply Z.eqb_neq in Hd.
  unfold removeDelayed, rd, load. now run.
Qed.

(** An expired head that has a successor is unlinked and returned; the
    successor becomes the head. *)
Lemma removeDelayed_expired (s : kstate) (h j : nat) (t tj : TCB) :
  YKDelayedHead s = Some h -> YKTasks s !! h = Some t -> delayCount t = 0 ->
  next t = Some j -> YKTasks s !! j = Some tj -> j <> h ->
  removeDelayed s
  = Ret (Some h)
      (with_YKTasks (<[h := set_next NULL t]> (<[j := set_prev NULL tj]> (YKTasks s)))
         (with_YKDelayedHead (Some j) s)).
Proof.
  intros Hh Ht Hd Hn Hj Hne. apply Z.eqb_eq in Hd.
  unfold removeDelayed, rd, wr, load. run.
  rewrite list_lookup_insert_ne by exact Hne. now run.
Qed.

(** C7: when the head of the delayed list has delay zero and is the last
    element of the list, [removeDelayed] makes the list head NULL and then
    stores [prev] through it. *)
Theorem removeDelayed_last (s : kstate) (h : nat) (t : TCB) :
  YKDelayedHead s = Some h -> YKTasks s !! h = Some t ->
  delayCount t = 0 -> next t = NULL ->
  removeDelayed s = Fault NullDeref.
Proof.
  intros Hh Ht Hd Hn. apply Z.eqb_eq in Hd.
  unfold removeDelayed, rd, wr, load. now run.
Qed.

(** The only delayed task, its delay decremented to zero by the tick. *)
Lemma removeDelayed_last_witness :
  delayed_list last_expired = [1%nat] /\
  removeDelayed last_expired = Fault NullDeref.
Proof.
  split; [vm_compute; reflexivity|].
  refine (removeDelayed_last last_expired 1%nat (mkTCB 1 0 1 NULL NULL) _ _ _ _);
    vm_compute; reflexivity.
Defined.

(** The tick that expires the only delayed task stops in the same way. *)
Example tick_expires_last :
  YKTickHandler 0%nat 0 (after (YKDelayTask 1 delay_start)) = Fault NullDeref.
Proof. vm_compute. reflexivity. Qed.

(** The walk of [insertDelayed] never ends on NULL: the loop condition reads
    [curTCB->delayCount] first. *)
Lemma insertDelayed_walk_not_NULL (fuel : nat) (curTCB newTCB : TCBPtr) (s s' : kstate) :
  insertDelayed_walk fuel curTCB newTCB s <> Ret NULL s'.
Proof.
  revert curTCB s. induction fuel as [|fuel IH]; intros curTCB s; [discriminate|].
  cbn [insertDelayed_walk]. unfold rd at 1, bind.
  destruct (load newTCB s) as [tn s1|e|] eqn:E1; cbn; try discriminate.
  assert (s1 = s) as -> by (unfold load in E1; repeat case_match; congruence).
  destruct curTCB as [c|]; [|discriminate].
  unfold rd, bind, load at 1.
  destruct (YKTasks s !! c) as [tc|] eqn:E2; cbn; [|discriminate].
  destruct (delayCount tc <=? delayCount tn); cbn; [|discriminate].
  destruct (wr (set_delayCount (wrap_int (delayCount tn - delayCount tc))) newTCB s)
    as [[] s2|e|] eqn:E3; cbn; try discriminate.
  destruct (YKTasks s2 !! c) as [tc'|] eqn:E4; cbn; [apply IH|discriminate].
Qed.

(** C2: after the delays 10 and 7 the delayed list holds the deltas (7, 3);
    the third task, with delay 15, belongs behind the tail, and the walk of
    [insertDelayed] reads the delay count of the NULL that follows the tail
    before it tests for NULL: the deltas (7, 3, 5) are never produced. *)
Theorem delay_ordering_tail_insert :
  delayed_list delay_10_7 = [2%nat; 1%nat] /\
  delays_of delay_10_7 (delayed_list delay_10_7) = [7; 3] /\
  YKCurrentTask delay_10_7 = Some 3%nat /\
  YKDelayTask 15 delay_10_7 = Fault NullDeref.
Proof. repeat split; vm_compute; reflexivity. Qed.

(** A delay that belongs in the middle of the list is inserted, and the
    deltas still sum to the delays asked for (7, 8, 10). *)
Example delay_ordering_middle_insert :
  delays_of (after (YKDelayTask 8 delay_10_7))
    (delayed_list (after (YKDelayTask 8 delay_10_7))) = [7; 1; 2].
Proof. vm_compute. reflexivity. Qed.

(** ** Start of the kernel *)

(** C9: [dummyTask] is a static pointer that is never assigned; the stores
    that are to set up the dummy TCB go through NULL, and so does the first
    comparison of the scheduler once the current task is that pointer. *)
Theorem initialize_dummy_null :
  dummyTask boot = NULL /\
  YKInitialize boot = Fault NullDeref /\
  ready_list idle_created = [0%nat] /\
  YKCurrentTask idle_created = NULL /\
  YKRun idle_created = Fault NullDeref.
Proof. repeat split; vm_compute; reflexivity. Qed.

(** ** Semaphores *)

(** C1: a post to a semaphore whose value is negative and whose pending list
    holds a single task makes the pending list empty and then stores [prev]
    through its NULL head; the task is not inserted into the ready list. *)
Theorem semaphore_handoff_last_pender (s : kstate) (semPtr : nat) (m : YKSEM)
    (h : nat) (t : TCB) :
  YKSemaphores s !! semPtr = Some m -> value m < 0 ->
  sem_pendHead m = Some h -> YKTasks s !! h = Some t -> next t = NULL ->
  YKSemPost semPtr s = Fault NullDeref.
Proof.
  intros Hm Hv Hp Ht Hn. apply Z.ltb_lt in Hv.
  assert (Hlen : (semPtr < length (YKSemaphores s))%nat) by (eapply lookup_lt_Some; eauto).
  unfold YKSemPost, YKEnterMutex, removePendSem, removePend, load_sem, wr_sem, load_sem,
    rd, wr, load.
  run.
  repeat (rewrite list_lookup_insert_eq by (rewrite ?length_insert; exact Hlen); run).
  reflexivity.
Qed.

(** Semaphore S, created with value 0, on which only L pends, posted from
    an interrupt. *)
Lemma semaphore_handoff_last_pender_witness :
  YKSemaphores handoff_start !! 0%nat = Some (mkSEM 0 NULL) /\
  YKSemaphores handoff_in_isr !! 0%nat = Some (mkSEM (-1) (Some 1%nat)) /\
  pend_list handoff_in_isr (Some 1%nat) = [1%nat] /\
  ready_list handoff_in_isr = [0%nat] /\
  YKInterruptNestLevel handoff_in_isr = 1 /\
  YKSemPost 0%nat handoff_in_isr = Fault NullDeref.
Proof.
  repeat (split; [vm_compute; reflexivity|]).
  refine (semaphore_handoff_last_pender handoff_in_isr 0%nat (mkSEM (-1) (Some 1%nat))
            1%nat (mkTCB 1 0 50 NULL NULL) _ _ _ _ _); vm_compute; reflexivity.
Defined.

(** ** The queue invariant *)

Lemma wrap_uint_le (z : Z) : 0 <= z -> 0 <= wrap_uint z <= z.
Proof.
  intros H. unfold wrap_uint. split.
  - apply Z.mod_pos_bound. lia.
  - apply Z.mod_le; lia.
Qed.

Lemma Qbound_stable : qstable Qbound.
Proof.
  intros s s' _ Hc. unfold Qbound. rewrite !Forall_lookup. intros H i q' Hq'.
  destruct (qcores_lookup s' s i q' (eq_sym Hc) Hq') as (q & Hq & Hn & Hm).
  specialize (H i q Hq). lia.
Qed.

Lemma Qbound_insert (s : kstate) (i : nat) (q : YKQ) :
  Qbound s -> 0 <= numEntries q <= maxEntries q ->
  Qbound (with_YKQueues (<[i := q]> (YKQueues s)) s).
Proof. intros H Hq. unfold Qbound. cbn. now apply Forall_insert. Qed.

Lemma preserves_YKQPost (QPtr : nat) (msg : Z) : preserves Qbound (YKQPost QPtr msg).
Proof.
  intros s Hs.
  destruct (YKQueues s !! QPtr) as [q|] eqn:Hq.
  2:{ unfold YKQPost, YKEnterMutex, load_q. run. exact Logic.I. }
  pose proof (proj1 (Forall_lookup _ _) Hs QPtr q Hq) as Hb. cbn beta in Hb.
  destruct (Z_lt_le_dec (numEntries q) (maxEntries q)) as [Hlt|Hge].
  - rewrite (YKQPost_not_full _ _ _ _ Hq Hlt).
    assert (H0 : Qbound (with_intEnabled false (posted QPtr q msg s))).
    { apply (Qbound_insert (with_msgmem _ (with_intEnabled false s))); [exact Hs|].
      cbn. pose proof (wrap_uint_le (numEntries q + 1)). lia. }
    revert H0. generalize (with_intEnabled false (posted QPtr q msg s)).
    change (preserves Qbound (post_wake QPtr (intEnabled s))).
    unfold post_wake. pose proof Qbound_stable.
    pres; first [now apply preserves_removePendQ | now apply preserves_insertReady
                | now apply preserves_YKScheduler].
  - rewrite (YKQPost_full _ _ _ _ Hq Hge). now split.
Qed.

Lemma preserves_YKQPend_nonempty (QPtr : nat) (q : YKQ) (s : kstate) :
  Qbound s -> YKQueues s !! QPtr = Some q -> numEntries q <> 0 ->
  osat Qbound (fun _ => True) (YKQPend QPtr s).
Proof.
  intros Hs Hq Hne.
  pose proof (proj1 (Forall_lookup _ _) Hs QPtr q Hq) as Hb. cbn beta in Hb.
  rewrite (YKQPend_nonempty _ _ _ Hq Hne). split; [|trivial].
  apply Qbound_insert; [exact Hs|]. cbn.
  pose proof (wrap_uint_le (numEntries q - 1)). lia.
Qed.

Lemma preserves_YKQCreate (base size : Z) : preserves Qbound (YKQCreate base size).
Proof.
  pose proof Qbound_stable.
  unfold YKQCreate. pres; try now apply preserves_allocateQueue.
  intros s Hs. unfold wr_q, bind, load_q.
  destruct (YKQueues s !! a0); cbn; [|trivial].
  split; [|trivial]. apply Qbound_insert; [exact Hs|]. cbn.
  unfold wrap_uint. pose proof (Z.mod_pos_bound size 65536). lia.
Qed.

Lemma preserves_undelay (I : kstate -> Prop) (fuel : nat) (tmp : TCBPtr) :
  qstable I -> preserves I (undelay fuel tmp).
Proof.
  intros HI. revert tmp. induction fuel as [|fuel IH]; intros tmp; cbn [undelay]; pres.
  - now apply preserves_insertReady.
  - now apply preserves_removeDelayed.
  - apply IH.
Qed.

Lemma preserves_YKTickHandler (MsgQPtr : nat) (msg : Z) :
  preserves Qbound (YKTickHandler MsgQPtr msg).
Proof.
  pose proof Qbound_stable.
  unfold YKTickHandler, walk_fuel. pres.
  - now apply preserves_removeDelayed.
  - now apply preserves_undelay.
  - apply preserves_YKQPost.
Qed.

Lemma preserves_void {A : Type} (I : kstate -> Prop) (m : M A) :
  preserves I m -> preserves I (void m).
Proof. intros Hm. unfold void. apply preserves_bind; [exact Hm|]. intros a s Hs. now split. Qed.

(** C8, as the code has it: every kernel call other than a pend on an empty
    queue keeps [0 <= numEntries <= maxEntries] for every queue, at its
    return, where it leaves the processor, and when it returns after having
    been resumed. *)
Theorem queue_bound_preserved (c : kcall) (s : kstate) :
  Qbound s -> ~ pend_on_empty c s ->
  osat Qbound (fun _ => True) (run_call c s).
Proof.
  intros Hs Hc. pose proof Qbound_stable as HQ.
  destruct c; cbn [run_call].
  - now apply preserves_YKNewTask.
  - now apply preserves_YKDelayTask.
  - apply preserves_void; [|exact Hs]. now apply preserves_YKSemCreate.
  - now apply preserves_YKSemPend.
  - now apply preserves_YKSemPost.
  - apply preserves_void; [|exact Hs]. apply preserves_YKQCreate.
  - unfold void. apply osat_bind; [|intros a s' Hs'; now split].
    destruct (YKQueues s !! QPtr) as [q|] eqn:Hq.
    + apply (preserves_YKQPend_nonempty QPtr q); [exact Hs|exact Hq|].
      intros H0. apply Hc. now exists QPtr, q.
    + unfold YKQPend, YKEnterMutex, load_q. run. exact Logic.I.
  - apply preserves_void; [|exact Hs]. apply preserves_YKQPost.
  - now apply preserves_YKEnterISR.
  - now apply preserves_YKExitISR.
  - now apply preserves_YKScheduler.
  - now apply preserves_YKTickHandler.
Qed.

(** A post from an interrupt to the empty queue on which two tasks pend. *)
Lemma queue_bound_preserved_witness :
  Qbound two_waiters_in_isr /\
  osat Qbound (fun _ => True) (run_call (CQPost 0%nat 77) two_waiters_in_isr).
Proof.
  assert (H : Qbound two_waiters_in_isr).
  { unfold Qbound.
    replace (YKQueues two_waiters_in_isr)
      with (mkQ 0 4 1000 1003 1000 1000 (Some 1%nat) :: replicate 63 zeroQ)
      by (vm_compute; reflexivity).
    constructor; [cbn; lia|]. apply Forall_replicate. cbn. lia. }
  split; [exact H|].
  apply (queue_bound_preserved (CQPost 0%nat 77) two_waiters_in_isr H).
  intros (QPtr & q & Hc & _). discriminate Hc.
Defined.

(** C8, as stated, fails: a post to an empty queue on which two tasks pend
    readies the first of them and leaves the message in the queue, whose
    occupancy is then 1 while the second task is still on its pending
    list. *)
Lemma queue_invariant_broken_by_post :
  Qinv two_waiters_in_isr /\
  fst <$> returned (YKQPost 0%nat 77 two_waiters_in_isr) = Some 1 /\
  ~ Qinv (after (YKQPost 0%nat 77 two_waiters_in_isr)).
Proof.
  split; [|split].
  - unfold Qinv.
    replace (YKQueues two_waiters_in_isr)
      with (mkQ 0 4 1000 1003 1000 1000 (Some 1%nat) :: replicate 63 zeroQ)
      by (vm_compute; reflexivity).
    constructor; [cbn; lia|]. apply Forall_replicate. cbn. split; [lia|reflexivity].
  - vm_compute. reflexivity.
  - unfold Qinv. intros H.
    assert (Hq : YKQueues (after (YKQPost 0%nat 77 two_waiters_in_isr)) !! 0%nat
                 = Some (mkQ 1 4 1000 1003 1001 1000 (Some 2%nat)))
      by (vm_compute; reflexivity).
    destruct (proj1 (Forall_lookup _ _) H 0%nat _ Hq) as [_ Hp].
    cbn in Hp. discriminate Hp. lia.
Qed.

(** A pend that blocked on the empty queue and resumes after another task
    has taken the message posted for it: it returns the stale content of the
    next slot, not the message 77, and the occupancy wraps around. *)
Example pend_resumed_on_empty :
  numEntries <$> YKQueues race_P_dispatched !! 0%nat = Some 0 /\
  YKCurrentTask race_P_dispatched = Some 3%nat /\
  fst <$> returned (resume race_P_pends race_P_dispatched) = Some 0 /\
  numEntries <$> YKQueues (after (resume race_P_pends race_P_dispatched)) !! 0%nat
  = Some 65535.
Proof. repeat split; vm_compute; reflexivity. Qed.

(** ** Delays *)

Lemma ptr_eqb_eq (p q : TCBPtr) : ptr_eqb p q = true <-> p = q.
Proof.
  destruct p as [i|], q as [j|]; cbn; try (split; congruence).
  rewrite Nat.eqb_eq. split; congruence.
Qed.

Lemma ptr_eqb_refl (p : TCBPtr) : ptr_eqb p p = true.
Proof. now apply ptr_eqb_eq. Qed.

Lemma ptr_eqb_neq (p q : TCBPtr) : p <> q -> ptr_eqb p q = false.
Proof.
  intros H. destruct (ptr_eqb p q) eqn:E; [|reflexivity].
  now apply ptr_eqb_eq in E.
Qed.

(** Resolve the reads of pool entries that have just been written. *)
Ltac lk :=
  repeat first
    [ rewrite list_lookup_insert_eq by (rewrite ?length_insert; eauto using lookup_lt_Some)
    | rewrite list_lookup_insert_ne by congruence ].

Ltac runs := run; repeat (progress lk; run).

(** Reduce the accesses to the fields of a state that has been written. *)
Ltac sproj :=
  cbn [
    YKCtxSwCount YKTickNum YKInterruptNestLevel YKStartedFlag YKSemaphores YKQueues
    YKTasks YKCurrentTask YKReadyHead YKReadyTail YKDelayedHead YKDelayedTail
    dummyTask taskIDCount numTasksCreated numSemaphoresCreated numQueuesCreated
    intEnabled msgmem console with_YKCtxSwCount with_YKTickNum
    with_YKInterruptNestLevel with_YKStartedFlag with_YKSemaphores with_YKQueues
    with_YKTasks with_YKCurrentTask with_YKReadyHead with_YKReadyTail
    with_YKDelayedHead with_YKDelayedTail with_taskIDCount with_numTasksCreated
    with_numSemaphoresCreated with_numQueuesCreated with_intEnabled with_msgmem
    with_console ].

(** Removal of the head of a ready list that has a second element. *)
Lemma removeReady_head (s : kstate) (c j : nat) (t tj : TCB) :
  YKReadyHead s = Some c -> YKReadyTail s <> Some c ->
  YKTasks s !! c = Some t -> taskID t <> IDLE_TASK_ID ->
  next t = Some j -> j <> c -> YKTasks s !! j = Some tj ->
  removeReady (Some c) s
  = Ret tt (with_YKTasks (<[c := set_next NULL t]> (<[j := set_prev NULL tj]> (YKTasks s)))
              (with_YKReadyHead (Some j) s)).
Proof.
  intros Hh Ht Htc Hid Hn Hjc Htj.
  apply Z.eqb_neq in Hid. apply ptr_eqb_neq in Ht.
  unfold removeReady.
  step_by ltac:(apply (rd_Some taskID _ _ _ Htc)).
  step_by ltac:(reflexivity). step_by ltac:(reflexivity).
  rewrite Hid, Hh, Ht, ptr_eqb_refl. cbn [is_null andb].
  step_by ltac:(apply (rd_Some next _ _ _ Htc)).
  step_by ltac:(reflexivity). rewrite Hn.
  step_by ltac:(apply wr_Some; exact Htj).
  rewrite (wr_Some _ _ c t) by (cbn; now rewrite list_lookup_insert_ne).
  reflexivity.
Qed.

(** Insertion into the empty delayed list. *)
Lemma insertDelayed_empty (s : kstate) (c : nat) (t : TCB) :
  YKDelayedHead s = NULL -> YKTasks s !! c = Some t -> taskID t <> IDLE_TASK_ID ->
  insertDelayed (Some c) s
  = Ret tt (with_YKTasks (<[c := set_next NULL (set_prev NULL t)]> (YKTasks s))
              (with_YKDelayedTail (Some c) (with_YKDelayedHead (Some c) s))).
Proof.
  intros Hd Htc Hid. apply Z.eqb_neq in Hid.
  assert (Hlen : (c < length (YKTasks s))%nat) by (eapply lookup_lt_Some; eauto).
  unfold insertDelayed. cbn [is_null].
  step_by ltac:(apply (rd_Some taskID _ _ _ Htc)).
  step_by ltac:(reflexivity).
  rewrite Hid, Hd. cbn [is_null NULL].
  step_by ltac:(reflexivity). step_by ltac:(reflexivity).
  step_by ltac:(apply wr_Some; exact Htc).
  rewrite (wr_Some _ _ c (set_prev NULL t))
    by (cbn; now rewrite list_lookup_insert_eq).
  cbn. now rewrite list_insert_insert_eq.
Qed.





(** What the two calls do. *)
Example delay_zero_and_negative :
  ready_list (after (YKDelayTask 0 delay_start)) = [2%nat; 3%nat; 0%nat] /\
  delayed_list (after (YKDelayTask 0 delay_start)) = [1%nat] /\
  console (after (YKDelayTask (-1) delay_start)) = [] /\
  delayed_list (after (YKDelayTask (-1) delay_start)) = [1%nat] /\
  delays_of (after (YKDelayTask (-1) delay_start)) [1%nat] = [-1].
Proof. repeat split; vm_compute; reflexivity. Qed.

(** ** The ready list *)

Lemma head_or_app (l1 l2 : list nat) (nx : TCBPtr) :
  head_or (l1 ++ l2) nx = head_or l1 (head_or l2 nx).
Proof. now destruct l1. Qed.

Lemma last_or_cons (i : nat) (l : list nat) (pv : TCBPtr) :
  last_or (i :: l) pv = last_or l (Some i).
Proof.
  unfold last_or. destruct l as [|j l]; [reflexivity|].
  rewrite last_cons. now destruct (last (j :: l)).
Qed.

Lemma last_or_app (l1 l2 : list nat) (pv : TCBPtr) :
  last_or (l1 ++ l2) pv = last_or l2 (last_or l1 pv).
Proof.
  revert pv. induction l1 as [|i l1 IH]; intros pv; [reflexivity|].
  cbn [app]. now rewrite !last_or_cons, IH.
Qed.

Lemma dll_app (tasks : list TCB) (pv nx : TCBPtr) (l1 l2 : list nat) :
  dll tasks pv (l1 ++ l2) nx <->
  dll tasks pv l1 (head_or l2 nx) /\ dll tasks (last_or l1 pv) l2 nx.
Proof.
  revert pv. induction l1 as [|i l1 IH]; intros pv.
  - cbn. tauto.
  - cbn [app dll]. rewrite IH, head_or_app, last_or_cons. tauto.
Qed.

Lemma node_frame (tasks tasks' : list TCB) (pv nx : TCBPtr) (i : nat) :
  tasks' !! i = tasks !! i -> node tasks pv i nx -> node tasks' pv i nx.
Proof. intros H (t & Ht & Hp & Hn). exists t. now rewrite H. Qed.

Lemma dll_frame (tasks tasks' : list TCB) (pv nx : TCBPtr) (l : list nat) :
  (forall i, i ∈ l -> tasks' !! i = tasks !! i) ->
  dll tasks pv l nx -> dll tasks' pv l nx.
Proof.
  revert pv. induction l as [|i l IH]; intros pv H; [trivial|].
  cbn. intros [Hn Hl]. split.
  - apply (node_frame tasks); [apply H; left|exact Hn].
  - apply IH; [|exact Hl]. intros k Hk. apply H. now right.
Qed.

Lemma dll_valid (tasks : list TCB) (pv nx : TCBPtr) (l : list nat) (i : nat) :
  dll tasks pv l nx -> i ∈ l -> (i < length tasks)%nat.
Proof.
  revert pv. induction l as [|k l IH]; intros pv Hl Hi; [now apply elem_of_nil in Hi|].
  destruct Hl as [(t & Ht & _) Hl]. apply elem_of_cons in Hi as [->|Hi].
  - eapply lookup_lt_Some; eauto.
  - eapply IH; eauto.
Qed.

(** A list of distinct pool entries is no longer than the pool. *)
Lemma dll_length (tasks : list TCB) (pv nx : TCBPtr) (l : list nat) :
  NoDup l -> dll tasks pv l nx -> (length l <= length tasks)%nat.
Proof.
  intros Hnd Hl.
  assert (H : l ⊆+ seq 0 (length tasks)).
  { apply NoDup_submseteq; [exact Hnd|].
    intros i Hi. apply elem_of_seq. pose proof (dll_valid _ _ _ _ _ Hl Hi). lia. }
  apply submseteq_length in H. now rewrite length_seq in H.
Qed.

Lemma prio_of_Some (tasks : list TCB) (i : nat) (t : TCB) :
  tasks !! i = Some t -> prio_of tasks i = priority t.
Proof. unfold prio_of. now intros ->. Qed.

(** The walk of [insertReady] stops at the first task whose priority is not
    smaller than the new task's. *)
Lemma insertReady_walk_finds (s : kstate) (l1 l2 : list nat) (c new : nat) (tn : TCB)
    (pv nx : TCBPtr) (fuel : nat) :
  dll (YKTasks s) pv (l1 ++ c :: l2) nx ->
  YKTasks s !! new = Some tn ->
  Forall (fun i => prio_of (YKTasks s) i < priority tn) l1 ->
  priority tn <= prio_of (YKTasks s) c ->
  (length l1 < fuel)%nat ->
  insertReady_walk fuel (head_or (l1 ++ c :: l2) nx) (Some new) s = Ret (Some c) s.
Proof.
  intros Hl Hn Hlt Hge. revert pv fuel Hl Hlt.
  induction l1 as [|i l1 IH]; intros pv fuel Hl Hlt Hf.
  - destruct fuel as [|fuel]; [cbn in Hf; lia|].
    destruct Hl as [(tc & Htc & _) _].
    rewrite (prio_of_Some _ _ _ Htc) in Hge. apply Z.ltb_ge in Hge.
    cbn [app head_or insertReady_walk]. unfold rd, load. now run.
  - destruct fuel as [|fuel]; [cbn in Hf; lia|].
    cbn [app] in Hl. destruct Hl as [(ti & Hti & _ & Hnx) Hl].
    apply Forall_cons in Hlt as [Hi Hlt].
    rewrite (prio_of_Some _ _ _ Hti) in Hi. apply Z.ltb_lt in Hi.
    cbn [app head_or insertReady_walk].
    rewrite (bind_Ret _ _ _ _ _ (rd_Some priority _ _ _ Hti)).
    rewrite (bind_Ret _ _ _ _ _ (rd_Some priority _ _ _ Hn)).
    rewrite Hi.
    rewrite (bind_Ret _ _ _ _ _ (rd_Some next _ _ _ Hti)).
    rewrite Hnx. apply (IH (Some i)); [exact Hl|exact Hlt|cbn in Hf; lia].
Qed.

Lemma dll_lookup (tasks : list TCB) (pv nx : TCBPtr) (l : list nat) (i : nat) :
  dll tasks pv l nx -> i ∈ l -> exists t, tasks !! i = Some t.
Proof.
  intros Hl Hi. apply lookup_lt_is_Some_2. eapply dll_valid; eauto.
Qed.

Lemma last_or_in (l : list nat) (i : nat) (pv : TCBPtr) :
  exists x, last_or (i :: l) pv = Some x /\ x ∈ i :: l.
Proof.
  revert i pv. induction l as [|j l IH]; intros i pv.
  - exists i. split; [reflexivity|left].
  - destruct (IH j (Some i)) as (x & Hx & Hin).
    exists x. rewrite last_or_cons. split; [exact Hx|now right].
Qed.

Lemma move_middle (l0 l2 : list nat) (p : nat) :
  l0 ++ p :: l2 = (l0 ++ [p]) ++ l2.
Proof. now rewrite <- app_assoc. Qed.

(** C6, as the code has it: [insertReady] compares priorities with [<] only
    and has no case for equal ones.  A task whose priority equals that of a
    ready task [c] other than the head is linked into the list immediately
    before [c], and nothing is reported. *)
Theorem insertReady_duplicate_priority (s : kstate) (l0 l2 : list nat)
    (p c new : nat) (tn : TCB) :
  ready_is s (l0 ++ p :: c :: l2) ->
  new ∉ l0 ++ p :: c :: l2 ->
  YKTasks s !! new = Some tn ->
  Forall (fun i => prio_of (YKTasks s) i < priority tn) (l0 ++ [p]) ->
  prio_of (YKTasks s) c = priority tn ->
  Forall (fun i => priority tn <= prio_of (YKTasks s) i) l2 ->
  exists s',
    insertReady (Some new) s = Ret tt s' /\
    console s' = console s /\
    ready_is s' (l0 ++ p :: new :: c :: l2).
Proof.
  intros (Hnd & Hdll & Hhead & Htail) Hnew Htn Hlt Hc Hge.
  pose proof (dll_length _ _ _ _ Hnd Hdll) as Hlen.
  (* the nodes around the place of insertion *)
  pose proof Hdll as Hd. apply dll_app in Hd as [D0 Hd].
  destruct Hd as [(tp & Htp & Hpp & Hpn) [(tc & Htc & Hcp & Hcn) D2]].
  cbn [head_or] in D0, Hpn.
  assert (Hpc : p <> c).
  { intros ->. apply NoDup_app in Hnd as (_ & _ & Hnd).
    apply NoDup_cons in Hnd as [Hnd _]. apply Hnd. left. }
  assert (Hpn' : p <> new).
  { intros ->. apply Hnew. apply elem_of_app. right. left. }
  assert (Hcn' : c <> new).
  { intros ->. apply Hnew. apply elem_of_app. right. right. left. }
  (* head and tail *)
  assert (Hh : exists h th, YKReadyHead s = Some h /\ YKTasks s !! h = Some th /\
                            priority th < priority tn).
  { destruct l0 as [|i l0].
    - exists p, tp. split; [exact Hhead|]. split; [exact Htp|].
      apply Forall_cons in Hlt as [Hlt _]. now rewrite (prio_of_Some _ _ _ Htp) in Hlt.
    - destruct D0 as [(ti & Hti & _) _]. exists i, ti. split; [exact Hhead|].
      split; [exact Hti|].
      apply Forall_cons in Hlt as [Hlt _]. now rewrite (prio_of_Some _ _ _ Hti) in Hlt. }
  destruct Hh as (h & th & Hrh & Hth & Hhp).
  assert (Ht : exists x tx, YKReadyTail s = Some x /\ YKTasks s !! x = Some tx /\
                            priority tn <= priority tx).
  { rewrite Htail. rewrite (move_middle l0 (c :: l2) p), last_or_app.
    destruct (last_or_in l2 c (last_or (l0 ++ [p]) NULL)) as (x & Hx & Hin).
    assert (Hin' : x ∈ l0 ++ p :: c :: l2).
    { apply elem_of_app. right. now right. }
    destruct (dll_lookup _ _ _ _ _ Hdll Hin') as (tx & Htx).
    exists x, tx. split; [exact Hx|]. split; [exact Htx|].
    rewrite <- (prio_of_Some _ _ _ Htx).
    apply elem_of_cons in Hin as [->|Hin]; [lia|].
    exact (proj1 (Forall_forall _ _) Hge x Hin). }
  destruct Ht as (x & tx & Hrt & Htx & Hxp).
  (* the walk *)
  assert (Hwalk : insertReady_walk (S (length (YKTasks s))) (Some h) (Some new) s
                  = Ret (Some c) s).
  { replace (Some h) with (head_or ((l0 ++ [p]) ++ c :: l2) NULL)
      by (rewrite <- move_middle, <- Hhead; exact Hrh).
    apply (insertReady_walk_finds s _ _ _ _ tn NULL); try assumption.
    - now rewrite <- move_middle.
    - lia.
    - rewrite (move_middle l0 (c :: l2) p), length_app in Hlen. lia. }
  (* the code *)
  set (tasks4 := <[new := set_next (Some c) (set_prev (Some p) tn)]>
                   (<[c := set_prev (Some new) tc]>
                      (<[new := set_prev (Some p) tn]>
                         (<[p := set_next (Some new) tp]> (YKTasks s))))).
  assert (Hrun : insertReady (Some new) s = Ret tt (with_YKTasks tasks4 s)).
  { apply Z.ltb_ge in Hxp. assert (Hhp' : (priority tn <? priority th) = false)
      by (apply Z.ltb_ge; lia).
    unfold insertReady. cbn [is_null].
    step_by ltac:(reflexivity). rewrite Hrh. cbn [is_null].
    step_by ltac:(apply (rd_Some priority _ _ _ Htn)).
    step_by ltac:(apply (rd_Some priority _ _ _ Hth)).
    rewrite Hhp'.
    step_by ltac:(reflexivity). rewrite Hrt.
    step_by ltac:(apply (rd_Some priority _ _ _ Htx)).
    rewrite Hxp.
    step_by ltac:(reflexivity).
    step_by ltac:(exact Hwalk).
    step_by ltac:(apply (rd_Some prev _ _ _ Htc)).
    rewrite Hcp.
    unfold wr, load. runs. reflexivity. }
  exists (with_YKTasks tasks4 s). split; [exact Hrun|]. split; [reflexivity|].
  assert (L0 : forall i, i <> p -> i <> c -> i <> new -> tasks4 !! i = YKTasks s !! i).
  { intros i H1 H2 H3. unfold tasks4. now lk. }
  assert (Hin : forall i, i ∈ l0 ++ p :: c :: l2 -> i <> new).
  { intros i Hi ->. now apply Hnew. }
  pose proof Hnd as Hnd'.
  apply NoDup_app in Hnd' as (Hnd0 & Hdisj & Hnd2).
  apply NoDup_cons in Hnd2 as [Hp2 Hnd2]. apply NoDup_cons in Hnd2 as [Hc2 Hnd2].
  repeat split.
  - rewrite (move_middle l0 (new :: c :: l2) p).
    apply (NoDup_Permutation_proper (new :: (l0 ++ [p]) ++ c :: l2));
      [apply Permutation_middle|].
    apply NoDup_cons. rewrite <- move_middle. now split.
  - cbn [YKTasks with_YKTasks]. apply dll_app. split.
    + cbn [head_or]. apply (dll_frame (YKTasks s)); [|exact D0].
      intros i Hi. apply L0.
      * intros ->. apply (Hdisj p Hi). left.
      * intros ->. apply (Hdisj c Hi). right. left.
      * apply Hin. apply elem_of_app. now left.
    + cbn [dll head_or]. split; [|split; [|split]].
      * exists (set_next (Some new) tp). unfold tasks4. lk. now repeat split.
      * exists (set_next (Some c) (set_prev (Some p) tn)). unfold tasks4. lk.
        now repeat split.
      * exists (set_prev (Some new) tc). unfold tasks4. lk. now repeat split.
      * apply (dll_frame (YKTasks s)); [|exact D2].
        intros i Hi. apply L0.
        -- intros ->. apply Hp2. now right.
        -- intros ->. now apply Hc2.
        -- apply Hin. apply elem_of_app. right. right. now right.
  - cbn [YKReadyHead with_YKTasks]. rewrite Hhead. now destruct l0.
  - cbn [YKReadyTail with_YKTasks]. rewrite Htail.
    rewrite (move_middle l0 (c :: l2) p), (move_middle l0 (new :: c :: l2) p).
    rewrite !last_or_app, !last_or_cons. reflexivity.
Qed.

(** A task with the priority of the idle task is inserted before it. *)
Lemma insertReady_duplicate_priority_witness :
  ready_list dup_state = [1%nat; 0%nat] /\
  prio_of (YKTasks dup_state) 2 = prio_of (YKTasks dup_state) 0 /\
  exists s',
    insertReady (Some 2%nat) dup_state = Ret tt s' /\
    console s' = console dup_state /\
    ready_is s' [1%nat; 2%nat; 0%nat].
Proof.
  split; [vm_compute; reflexivity|]. split; [vm_compute; reflexivity|].
  apply (insertReady_duplicate_priority dup_state [] [] 1%nat 0%nat 2%nat
           (mkTCB 2 0 100 NULL NULL)).
  - split; [|split; [|split]].
    + apply NoDup_cons. split; [now intros ?%list_elem_of_singleton|].
      apply NoDup_singleton.
    + split; [|split; [|exact Logic.I]].
      * exists (mkTCB 1 0 5 (Some 0%nat) NULL). now vm_compute.
      * exists (mkTCB 0 0 100 NULL (Some 1%nat)). now vm_compute.
    + vm_compute. reflexivity.
    + vm_compute. reflexivity.
  - intros [?|[?|?%elem_of_nil]%elem_of_cons]%elem_of_cons; [discriminate|discriminate|trivial].
  - vm_compute. reflexivity.
  - apply Forall_cons. split; [now vm_compute|apply Forall_nil_2].
  - vm_compute. reflexivity.
  - apply Forall_nil_2.
Defined.

(** C6, as stated, fails: a task whose priority is that of the idle task,
    which is in the ready list, is inserted and nothing is reported. *)
Lemma insertReady_duplicate_counterexample :
  0%nat ∈ ready_list dup_state /\
  prio_of (YKTasks dup_state) 2 = prio_of (YKTasks dup_state) 0 /\
  ~ insert_rejected (Some 2%nat) dup_state.
Proof.
  split; [|split].
  - replace (ready_list dup_state) with [1%nat; 0%nat] by (vm_compute; reflexivity).
    right. left.
  - vm_compute. reflexivity.
  - intros [[msg Hmsg] Hlist]. vm_compute in Hlist. discriminate Hlist.
Qed.

(** A priority equal to that of the head of the ready list: the walk stops
    on the head, whose [prev] is NULL, and the new task is linked through
    it. *)
Example insertReady_duplicate_of_head :
  insertReady (Some 2%nat)
    (with_YKTasks (<[2%nat := mkTCB 2 0 5 NULL NULL]> (YKTasks dup_state)) dup_state)
  = Fault NullDeref.
Proof. vm_compute. reflexivity. Qed.

(** ** The remainder of the delayed list after a pop *)

(** An expired head that is not the last element is unlinked, and what is
    left is again a doubly-linked list from the new head. *)
Lemma removeDelayed_expired_wf (s : kstate) (h j : nat) (l : list nat) (t : TCB) :
  YKDelayedHead s = Some h -> NoDup (h :: j :: l) ->
  dll (YKTasks s) NULL (h :: j :: l) NULL ->
  YKTasks s !! h = Some t -> delayCount t = 0 ->
  exists s',
    removeDelayed s = Ret (Some h) s' /\
    YKDelayedHead s' = Some j /\
    dll (YKTasks s') NULL (j :: l) NULL /\
    node (YKTasks s') NULL h NULL.
Proof.
  intros Hh Hnd [(t' & Ht' & Hp & Hn) [(tj & Htj & Hjp & Hjn) Hl]] Ht Hd.
  rewrite Ht in Ht'. injection Ht' as <-. cbn [head_or] in Hn.
  apply NoDup_cons in Hnd as [Hh' Hnd]. apply NoDup_cons in Hnd as [Hj' _].
  assert (Hjh : j <> h) by (intros ->; apply Hh'; left).
  eexists. split; [apply (removeDelayed_expired s h j t tj); assumption|].
  split; [reflexivity|]. sproj. split; [split|].
  - exists (set_prev NULL tj). lk. now repeat split.
  - apply (dll_frame (YKTasks s)); [|exact Hl].
    intros i Hi.
    assert (Hih : h <> i) by (intros ->; apply Hh'; now right).
    assert (Hij : j <> i) by (intros ->; now apply Hj').
    now lk.
  - exists (set_next NULL t). lk. now repeat split.
Qed.

(** ** Queues as first-in first-out lists *)



Lemma slot_at_next (q : YKQ) (k : Z) :
  queue_wf q -> 0 <= k < maxEntries q ->
  slot_at (q_take q) k = slot_at q (k + 1).
Proof.
  intros (Hmax & Hend & Hmsg & Hn & Hslot) Hk. unfold slot_at, q_take. cbn.
  destruct (nextMsg q =? q_end q) eqn:E; [apply Z.eqb_eq in E|apply Z.eqb_neq in E].
  - replace (nextMsg q - q_start q + (k + 1)) with (k + 1 * maxEntries q) by lia.
    rewrite Z.mod_add by lia. f_equal. f_equal. lia.
  - f_equal. f_equal. lia.
Qed.


Lemma contents_take (mem : Z -> Z) (q : YKQ) :
  queue_wf q -> 0 < numEntries q ->
  contents mem q = mem (nextMsg q) :: contents mem (q_take q).
Proof.
  intros Hwf Hpos. pose proof Hwf as (Hmax & Hend & Hmsg & Hn & Hslot).
  unfold contents. cbn [numEntries q_take set_numEntries set_nextMsg].
  rewrite wrap_uint_small by lia.
  replace (Z.to_nat (numEntries q)) with (S (Z.to_nat (numEntries q - 1))) by lia.
  cbn [seq fmap list_fmap]. f_equal.
  - f_equal. unfold slot_at. rewrite Z.add_0_r, Z.mod_small by lia. lia.
  - rewrite <- fmap_S_seq, <- list_fmap_compose.
    apply list_fmap_ext. intros i k Hk. apply lookup_seq in Hk as [-> Hi]. cbn.
    rewrite (slot_at_next q) by (auto; lia). f_equal. f_equal. lia.
Qed.





(** X2: A pend on a queue that holds messages returns the oldest one and leaves
    the others, in their order. *)
Theorem YKQPend_pops (s : kstate) (QPtr : nat) (q : YKQ) :
  YKQueues s !! QPtr = Some q -> queue_wf q -> 0 < numEntries q ->
  exists m rest s' q',
    queue_contents s QPtr = Some (m :: rest) /\
    YKQPend QPtr s = Ret m s' /\
    YKQueues s' !! QPtr = Some q' /\ queue_wf q' /\
    queue_contents s' QPtr = Some rest.
Proof.
  intros Hq Hwf Hpos.
  exists (msgmem s (nextMsg q)), (contents (msgmem s) (q_take q)), (taken QPtr q s), (q_take q).
  split; [unfold queue_contents; rewrite Hq; cbn; f_equal; now apply contents_take|].
  split; [apply YKQPend_nonempty; [exact Hq|lia]|].
  split; [exact (taken_lookup _ _ _ Hq)|].
  split; [now apply queue_wf_take|].
  unfold queue_contents. now rewrite (taken_lookup _ _ _ Hq).
Qed.

(** A pend on the queue of two slots that holds the messages 11 and 22. *)
Lemma YKQPend_pops_witness :
  exists m rest s' q',
    queue_contents full_queue 0%nat = Some (m :: rest) /\
    YKQPend 0%nat full_queue = Ret m s' /\
    YKQueues s' !! 0%nat = Some q' /\ queue_wf q' /\
    queue_contents s' 0%nat = Some rest.
Proof.
  apply (YKQPend_pops full_queue 0%nat (mkQ 2 2 1000 1001 1000 1000 NULL)).
  - vm_compute. reflexivity.
  - unfold queue_wf; vm_compute; intuition discriminate.
  - vm_compute. reflexivity.
Defined.

(** X3: [YKQCreate] with a size between 1 and 65535, while the pool has a free
    entry, returns that entry as an empty queue over the buffer, with no
    waiter. *)
Theorem YKQCreate_empty_queue (s : kstate) (base size : Z) :
  0 < size < 65536 -> (numQueuesCreated s < length (YKQueues s))%nat ->
  exists s' q,
    YKQCreate base size s = Ret (numQueuesCreated s) s' /\
    YKQueues s' !! numQueuesCreated s = Some q /\
    queue_wf q /\ maxEntries q = size /\ q_start q = base /\
    q_pendHead q = NULL /\ queue_contents s' (numQueuesCreated s) = Some [] /\
    numQueuesCreated s' = S (numQueuesCreated s).
Proof.
  intros Hsize Hlen.
  destruct (lookup_lt_is_Some_2 _ _ Hlen) as [q0 Hq0].
  unfold YKQCreate, YKEnterMutex, allocateQueue, wr_q, load_q, printString, YKExitMutex.
  rewrite !wrap_uint_small by lia.
  destruct s as [? ? ? ? ? qs ? ? ? ? ? ? ? ? ? ? nq ie ? ?]; cbn -[Nat.leb] in *.
  destruct (Nat.leb MAX_QUEUES nq); cbn; rewrite Hq0; cbn;
    destruct ie; cbn; eexists _, _;
    (split; [reflexivity|]); cbn;
    (split; [apply list_lookup_insert_eq; exact Hlen|]);
    (split; [unfold queue_wf; cbn; rewrite Z.add_0_r, Z.sub_diag, Z.mod_0_l by lia;
             repeat split; lia|]);
    unfold queue_contents; cbn; rewrite list_lookup_insert_eq by exact Hlen;
    now repeat split.
Qed.

Lemma YKQCreate_empty_queue_witness :
  exists s' q,
    YKQCreate 1000 4 boot = Ret 0%nat s' /\
    YKQueues s' !! 0%nat = Some q /\
    queue_wf q /\ maxEntries q = 4 /\ q_start q = 1000 /\
    q_pendHead q = NULL /\ queue_contents s' 0%nat = Some [] /\
    numQueuesCreated s' = 1%nat.
Proof.
  apply (YKQCreate_empty_queue boot 1000 4).
  - lia.
  - vm_compute. lia.
Defined.

(** ** Counting semaphores *)

Lemma load_sem_Some (s : kstate) (i : nat) (m : YKSEM) :
  YKSemaphores s !! i = Some m -> load_sem i s = Ret m s.
Proof. unfold load_sem. intros ->. reflexivity. Qed.

Lemma wr_sem_Some (upd : YKSEM -> YKSEM) (s : kstate) (i : nat) (m : YKSEM) :
  YKSemaphores s !! i = Some m ->
  wr_sem upd i s = Ret tt (with_YKSemaphores (<[i := upd m]> (YKSemaphores s)) s).
Proof. intros H. unfold wr_sem. rewrite (bind_Ret _ _ _ _ _ (load_sem_Some _ _ _ H)). reflexivity. Qed.

Lemma wrap_int_small (z : Z) : -32768 <= z < 32768 -> wrap_int z = z.
Proof. intros H. unfold wrap_int. rewrite Z.mod_small by lia. lia. Qed.

(** A post to a semaphore whose value is not negative readies nobody. *)
Lemma YKSemPost_no_waiter (s : kstate) (i : nat) (m : YKSEM) :
  YKSemaphores s !! i = Some m -> 0 <= value m ->
  YKSemPost i s
  = Ret tt (with_YKSemaphores
              (<[i := set_value (wrap_int (value m + 1)) m]> (YKSemaphores s)) s).
Proof.
  intros Hm Hv. apply Z.ltb_ge in Hv.
  unfold YKSemPost.
  step_by ltac:(apply YKEnterMutex_Ret).
  step_by ltac:(apply load_sem_Some; exact Hm).
  step_by ltac:(apply wr_sem_Some; exact Hm).
  rewrite Hv. cbn [when].
  step_by ltac:(reflexivity).
  unfold YKExitMutex, modify.
  destruct s as [? ? ? ? ? ? ? ? ? ? ? ? ? ? ? ? ? ie ? ?]. now destruct ie.
Qed.

(** A pend on a semaphore whose value is positive returns at once. *)
Lemma YKSemPend_available (s : kstate) (i : nat) (m : YKSEM) :
  YKSemaphores s !! i = Some m -> 0 < value m ->
  YKSemPend i s
  = Ret tt (with_YKSemaphores
              (<[i := set_value (wrap_int (value m - 1)) m]> (YKSemaphores s)) s).
Proof.
  intros Hm Hv. apply Z.leb_gt in Hv.
  unfold YKSemPend.
  step_by ltac:(apply YKEnterMutex_Ret).
  step_by ltac:(apply load_sem_Some; exact Hm).
  step_by ltac:(apply wr_sem_Some; exact Hm).
  rewrite Hv. cbn [when].
  step_by ltac:(reflexivity).
  unfold YKExitMutex, modify.
  destruct s as [? ? ? ? ? ? ? ? ? ? ? ? ? ? ? ? ? ie ? ?]. now destruct ie.
Qed.

(** X4: A semaphore counts: with a value [v] in [0 .. 32766], a post returns at
    once with the value [v + 1] and touches nothing else, and the pend that
    follows returns at once and restores the whole kernel state. *)
Theorem sem_post_pend_roundtrip (s : kstate) (i : nat) (m : YKSEM) :
  YKSemaphores s !! i = Some m -> 0 <= value m < 32767 ->
  exists s1,
    YKSemPost i s = Ret tt s1 /\
    YKSemaphores s1 !! i = Some (set_value (value m + 1) m) /\
    s1 = with_YKSemaphores (YKSemaphores s1) s /\
    YKSemPend i s1 = Ret tt s.
Proof.
  intros Hm Hv.
  assert (Hlen : (i < length (YKSemaphores s))%nat) by (eapply lookup_lt_Some; eauto).
  rewrite (YKSemPost_no_waiter s i m Hm) by lia.
  rewrite wrap_int_small by lia.
  eexists. split; [reflexivity|].
  assert (H1 : YKSemaphores
                 (with_YKSemaphores (<[i := set_value (value m + 1) m]> (YKSemaphores s)) s)
               !! i = Some (set_value (value m + 1) m))
    by (cbn; now apply list_lookup_insert_eq).
  split; [exact H1|]. split; [reflexivity|].
  rewrite (YKSemPend_available _ i _ H1) by (cbn; lia).
  cbn. rewrite list_insert_insert_eq, wrap_int_small by lia.
  replace (value m + 1 - 1) with (value m) by lia.
  rewrite list_insert_id by (destruct m; exact Hm).
  now destruct s.
Qed.

(** A semaphore created with the value 0 in the reset state. *)
Lemma sem_post_pend_roundtrip_witness :
  exists s1,
    YKSemPost 0%nat handoff_start = Ret tt s1 /\
    YKSemaphores s1 !! 0%nat = Some (mkSEM 1 NULL) /\
    s1 = with_YKSemaphores (YKSemaphores s1) handoff_start /\
    YKSemPend 0%nat s1 = Ret tt handoff_start.
Proof.
  apply (sem_post_pend_roundtrip handoff_start 0%nat (mkSEM 0 NULL)).
  - vm_compute. reflexivity.
  - cbn. lia.
Defined.

(** ** Interrupt nesting *)

(** X5: The exit of a nested interrupt does not call the scheduler: entering and
    leaving an interrupt while another one is being served restores the
    whole kernel state. *)
Theorem nested_isr_roundtrip (s : kstate) :
  0 < YKInterruptNestLevel s < 32767 ->
  (YKEnterISR ;; YKExitISR) s = Ret tt s.
Proof.
  intros Hn. unfold YKEnterISR, YKExitISR.
  destruct s as [? ? n ? ? ? ? ? ? ? ? ? ? ? ? ? ? ? ? ?]. cbn in Hn |- *.
  rewrite (wrap_int_small (n + 1)) by lia.
  replace (n + 1 - 1) with n by lia. rewrite (wrap_int_small n) by lia.
  destruct (n =? 0) eqn:E; [apply Z.eqb_eq in E; lia|]. reflexivity.
Qed.

(** An interrupt that arrives while the semaphore-posting interrupt runs. *)
Lemma nested_isr_roundtrip_witness :
  (YKEnterISR ;; YKExitISR) handoff_in_isr = Ret tt handoff_in_isr.
Proof. apply nested_isr_roundtrip. vm_compute. split; reflexivity. Defined.

(** ** Calls that do not reach the dispatcher *)

Section Quiet.
Variable s0 : kstate.

Lemma quiet_bind {A B : Type} (m : M A) (f : A -> M B) :
  quiet (same_context s0) m -> (forall a, quiet (same_context s0) (f a)) ->
  quiet (same_context s0) (x <- m ;; f x).
Proof.
  intros Hm Hf s Hs. specialize (Hm s Hs). unfold bind.
  destruct (m s) as [a s1|e|s1 k]; cbn in *; [now apply Hf|trivial|contradiction].
Qed.

Lemma quiet_ret {A : Type} (a : A) : quiet (same_context s0) (ret a).
Proof. now intros s Hs. Qed.

Lemma quiet_gets {A : Type} (f : kstate -> A) : quiet (same_context s0) (gets f).
Proof. now intros s Hs. Qed.

Lemma quiet_raise {A : Type} (e : fault) : quiet (same_context s0) (@raise A e).
Proof. now intros s Hs. Qed.

Lemma quiet_modify (f : kstate -> kstate) :
  (forall s, same_context s (f s)) -> quiet (same_context s0) (modify f).
Proof.
  intros Hf s (H1 & H2 & H3). destruct (Hf s) as (F1 & F2 & F3).
  cbn. unfold same_context. now rewrite F1, F2, F3.
Qed.

Lemma quiet_when (b : bool) (m : M unit) :
  quiet (same_context s0) m -> quiet (same_context s0) (when b m).
Proof. destruct b; [trivial|]. intros _. apply quiet_ret. Qed.

Lemma quiet_load (p : TCBPtr) : quiet (same_context s0) (load p).
Proof. intros s Hs. unfold load. repeat case_match; cbn; auto. Qed.

Lemma quiet_rd {A : Type} (f : TCB -> A) (p : TCBPtr) : quiet (same_context s0) (rd f p).
Proof. apply quiet_bind; [apply quiet_load|]. intros t. apply quiet_ret. Qed.

Lemma quiet_wr (upd : TCB -> TCB) (p : TCBPtr) : quiet (same_context s0) (wr upd p).
Proof.
  apply quiet_bind; [apply quiet_load|]. intros t.
  destruct p; [|apply quiet_raise]. apply quiet_modify. now intros s.
Qed.

Lemma quiet_load_sem (i : nat) : quiet (same_context s0) (load_sem i).
Proof. intros s Hs. unfold load_sem. case_match; cbn; auto. Qed.

Lemma quiet_wr_sem (upd : YKSEM -> YKSEM) (i : nat) : quiet (same_context s0) (wr_sem upd i).
Proof.
  apply quiet_bind; [apply quiet_load_sem|]. intros m. apply quiet_modify. now intros s.
Qed.

Lemma quiet_load_q (i : nat) : quiet (same_context s0) (load_q i).
Proof. intros s Hs. unfold load_q. case_match; cbn; auto. Qed.

Lemma quiet_wr_q (upd : YKQ -> YKQ) (i : nat) : quiet (same_context s0) (wr_q upd i).
Proof.
  apply quiet_bind; [apply quiet_load_q|]. intros m. apply quiet_modify. now intros s.
Qed.
End Quiet.

(** Decompose code that makes no call of the scheduler. *)
Ltac qt1 :=
  lazymatch goal with
  | |- quiet _ (bind (gets YKInterruptNestLevel) _) => fail
  | |- quiet _ (bind (gets YKStartedFlag) _) => fail
  | |- quiet _ (bind _ _) => apply quiet_bind; [|intros ?]
  | |- quiet _ (ret _) => apply quiet_ret
  | |- quiet _ (gets _) => apply quiet_gets
  | |- quiet _ (raise _) => apply quiet_raise
  | |- quiet _ (printString _) => apply quiet_modify; now intros ?
  | |- quiet _ (mem_store _ _) => apply quiet_modify; now intros ?
  | |- quiet _ (rd _ _) => apply quiet_rd
  | |- quiet _ (wr _ _) => apply quiet_wr
  | |- quiet _ (touch _) => apply quiet_rd
  | |- quiet _ (load_sem _) => apply quiet_load_sem
  | |- quiet _ (wr_sem _ _) => apply quiet_wr_sem
  | |- quiet _ (load_q _) => apply quiet_load_q
  | |- quiet _ (wr_q _ _) => apply quiet_wr_q
  | |- quiet _ YKEnterMutex => unfold YKEnterMutex
  | |- quiet _ YKExitMutex => apply quiet_modify; now intros ?
  | |- quiet _ (when _ _) => apply quiet_when
  | |- quiet _ (modify _) => apply quiet_modify; now intros ?
  | |- quiet _ (if ?b then _ else _) => destruct b
  end.

Ltac qt := repeat qt1.

Section QuietHelpers.
Variable s0 : kstate.

Lemma quiet_insertReady (newTCB : TCBPtr) : quiet (same_context s0) (insertReady newTCB).
Proof.
  assert (Hw : forall fuel cur, quiet (same_context s0) (insertReady_walk fuel cur newTCB)).
  { induction fuel as [|fuel IH]; intros cur; cbn [insertReady_walk]; qt. apply IH. }
  unfold insertReady, walk_fuel. qt. apply Hw.
Qed.

Lemma quiet_removeDelayed : quiet (same_context s0) removeDelayed.
Proof. unfold removeDelayed. qt. Qed.

Lemma quiet_removePend (get_head : M TCBPtr) (set_head : TCBPtr -> M unit) :
  quiet (same_context s0) get_head -> (forall p, quiet (same_context s0) (set_head p)) ->
  quiet (same_context s0) (removePend get_head set_head).
Proof. intros Hg Hs. unfold removePend. qt; first [exact Hg|apply Hs]. Qed.

Lemma quiet_removePendSem (ptr : nat) : quiet (same_context s0) (removePendSem ptr).
Proof. apply quiet_removePend; [|intros p]; qt. Qed.

Lemma quiet_removePendQ (ptr : nat) : quiet (same_context s0) (removePendQ ptr).
Proof. apply quiet_removePend; [|intros p]; qt. Qed.

Lemma quiet_undelay (fuel : nat) (tmp : TCBPtr) : quiet (same_context s0) (undelay fuel tmp).
Proof.
  revert tmp. induction fuel as [|fuel IH]; intros tmp; cbn [undelay]; qt.
  - apply quiet_insertReady.
  - apply quiet_removeDelayed.
  - apply IH.
Qed.

(** The guarded call of the scheduler is not made while the condition that
    guards it is false. *)
Lemma quiet_guarded (v : kstate -> Z) (zero : bool) :
  (forall s, same_context s0 s -> (v s =? 0) = zero) -> zero = false ->
  quiet (same_context s0) (x <- gets v ;; when (x =? 0) YKScheduler).
Proof.
  intros Hv -> s Hs. unfold bind, gets. cbn. rewrite (Hv s Hs). exact Hs.
Qed.
End QuietHelpers.

(** X6: A post made in an interrupt (nesting level not 0), and the tick handler
    called in one, never reach the dispatcher: they return (or stop) with
    the current task as it was. *)
Theorem no_dispatch_in_isr (s : kstate) :
  YKInterruptNestLevel s <> 0 ->
  (forall semPtr, nosw (same_context s) (YKSemPost semPtr s)) /\
  (forall QPtr msg, nosw (same_context s) (YKQPost QPtr msg s)) /\
  (forall MsgQPtr msg, nosw (same_context s) (YKTickHandler MsgQPtr msg s)).
Proof.
  intros Hn.
  assert (Hs : same_context s s) by now repeat split.
  assert (Hnest : forall s', same_context s s' -> (YKInterruptNestLevel s' =? 0) = false).
  { intros s' (H1 & _). rewrite H1. now apply Z.eqb_neq. }
  assert (Hpost : forall QPtr msg, quiet (same_context s) (YKQPost QPtr msg)).
  { intros QPtr msg. unfold YKQPost. qt.
    - apply quiet_removePendQ.
    - apply quiet_insertReady.
    - now apply (quiet_guarded s YKInterruptNestLevel false). }
  split; [|split].
  - intros semPtr. revert Hs. generalize s at 2 4.
    change (quiet (same_context s) (YKSemPost semPtr)).
    unfold YKSemPost. qt.
    + apply quiet_removePendSem.
    + apply quiet_insertReady.
    + now apply (quiet_guarded s YKInterruptNestLevel false).
  - intros QPtr msg. now apply Hpost.
  - intros MsgQPtr msg. revert Hs. generalize s at 2 4.
    change (quiet (same_context s) (YKTickHandler MsgQPtr msg)).
    unfold YKTickHandler, walk_fuel. qt.
    + apply quiet_removeDelayed.
    + apply quiet_undelay.
    + apply Hpost.
Qed.

(** The post from an interrupt to the queue on which two tasks pend returns
    with the idle task still current. *)
Lemma no_dispatch_in_isr_witness :
  YKCurrentTask two_waiters_in_isr = Some 0%nat /\
  returned (YKQPost 0%nat 77 two_waiters_in_isr) <> None /\
  nosw (same_context two_waiters_in_isr) (YKQPost 0%nat 77 two_waiters_in_isr).
Proof.
  assert (Hn : YKInterruptNestLevel two_waiters_in_isr <> 0)
    by (vm_compute; discriminate).
  split; [vm_compute; reflexivity|]. split; [vm_compute; discriminate|].
  exact (proj1 (proj2 (no_dispatch_in_isr two_waiters_in_isr Hn)) 0%nat 77).
Defined.

(** X7: A task created before the kernel is started (started flag 0) enters
    the ready list without a call of the scheduler. *)
Theorem no_dispatch_before_start (s : kstate) (taskCode taskStack taskPriority : Z) :
  YKStartedFlag s = 0 ->
  nosw (same_context s) (YKNewTask taskCode taskStack taskPriority s).
Proof.
  intros Hst.
  assert (Hs : same_context s s) by now repeat split.
  revert Hs. generalize s at 2 4.
  change (quiet (same_context s) (YKNewTask taskCode taskStack taskPriority)).
  unfold YKNewTask, allocateTCB. qt.
  - apply quiet_insertReady.
  - intros s' Hs'. unfold bind, gets. cbn.
    destruct Hs' as (H1 & H2 & H3). rewrite H2, Hst. cbn. now repeat split.
Qed.

(** The creation of the first application task after the idle task. *)
Lemma no_dispatch_before_start_witness :
  returned (YKNewTask 0 0 50 idle_created) <> None /\
  nosw (same_context idle_created) (YKNewTask 0 0 50 idle_created).
Proof.
  assert (Hst : YKStartedFlag idle_created = 0) by (vm_compute; reflexivity).
  split; [vm_compute; discriminate|].
  exact (no_dispatch_before_start idle_created 0 0 50 Hst).
Defined.

(** ** The ready list: removal and insertion *)

Lemma tcores_insert (tasks : list TCB) (i : nat) (t t' : TCB) :
  tasks !! i = Some t ->
  set_next NULL (set_prev NULL t') = set_next NULL (set_prev NULL t) ->
  tcores (<[i := t']> tasks) = tcores tasks.
Proof.
  intros H E. unfold tcores. rewrite list_fmap_insert, E.
  apply list_insert_id. now rewrite list_lookup_fmap, H.
Qed.

(** A new predecessor for the first node, a new successor for the last. *)
Lemma dll_set_first (tasks : list TCB) (pv pv' nx : TCBPtr) (j : nat) (l : list nat) (tj : TCB) :
  dll tasks pv (j :: l) nx -> j ∉ l -> tasks !! j = Some tj ->
  dll (<[j := set_prev pv' tj]> tasks) pv' (j :: l) nx.
Proof.
  intros [(t & Ht & Hp & Hn) Hl] Hj Htj. rewrite Htj in Ht. injection Ht as <-.
  split.
  - exists (set_prev pv' tj).
    rewrite list_lookup_insert_eq by (eapply lookup_lt_Some; eauto). now repeat split.
  - apply (dll_frame tasks); [|exact Hl].
    intros i Hi. apply list_lookup_insert_ne. intros ->. now apply Hj.
Qed.

Lemma dll_set_last (tasks : list TCB) (pv nx nx' : TCBPtr) (l : list nat) (p : nat) (tp : TCB) :
  dll tasks pv (l ++ [p]) nx -> p ∉ l -> tasks !! p = Some tp ->
  dll (<[p := set_next nx' tp]> tasks) pv (l ++ [p]) nx'.
Proof.
  intros Hd Hp Htp. apply dll_app in Hd as [D1 [(t & Ht & Hpv & Hn) _]].
  rewrite Htp in Ht. injection Ht as <-.
  apply dll_app. split.
  - apply (dll_frame tasks); [|exact D1].
    intros i Hi. apply list_lookup_insert_ne. intros ->. now apply Hp.
  - split; [|exact Logic.I]. exists (set_next nx' tp).
    rewrite list_lookup_insert_eq by (eapply lookup_lt_Some; eauto). now repeat split.
Qed.

Lemma head_or_snoc (l l' : list nat) (p : nat) (nx : TCBPtr) :
  exists x, head_or ((l ++ [p]) ++ l') nx = Some x /\ x ∈ l ++ [p].
Proof.
  destruct l as [|i l]; eexists; (split; [reflexivity|]); left.
Qed.

(** Discharge the writes to links in a goal on [tcores]. *)
Ltac tc :=
  sproj;
  repeat (erewrite tcores_insert; [|lk; first [reflexivity|eassumption]|reflexivity]).

(** [removeReady] on a task of the ready list other than the idle task:
    the four cases of the code (only element, head, tail, inner element). *)
Lemma removeReady_spec (s : kstate) (l1 l2 : list nat) (r : nat) (t : TCB) :
  ready_is s (l1 ++ r :: l2) ->
  YKTasks s !! r = Some t -> taskID t <> IDLE_TASK_ID ->
  exists s',
    removeReady (Some r) s = Ret tt s' /\
    ready_is s' (l1 ++ l2) /\
    node (YKTasks s') NULL r NULL /\
    console s' = console s /\
    ready_relinked (l1 ++ r :: l2) s s'.
Proof.
  intros (Hnd & Hdll & Hhead & Htail) Ht Hid.
  pose proof Hid as Hid'. apply Z.eqb_neq in Hid'.
  pose proof Hdll as Hd. apply dll_app in Hd as [D1 [(t' & Ht' & Hpv & Hnx) D2]].
  rewrite Ht in Ht'. injection Ht' as <-.
  pose proof Hnd as Hnd'. apply NoDup_app in Hnd' as (Hnd1 & Hdisj & Hnd2).
  apply NoDup_cons in Hnd2 as [Hr2 Hnd2].
  assert (Hr1 : r ∉ l1) by (intros Hi; apply (Hdisj r Hi); left).
  assert (Hlen : (r < length (YKTasks s))%nat) by (eapply lookup_lt_Some; eauto).
  assert (Hout : forall i, i ∉ l1 ++ r :: l2 -> i <> r).
  { intros i Hi ->. apply Hi. apply elem_of_app. right. left. }
  destruct l1 as [|p l1 _] using rev_ind; [destruct l2 as [|j l2]|destruct l2 as [|j l2]].
  - (* the only element *)
    unfold removeReady.
    step_by ltac:(apply (rd_Some taskID _ _ _ Ht)).
    step_by ltac:(reflexivity). step_by ltac:(reflexivity).
    rewrite Hid', Hhead, Htail. cbn [app head_or last_or last is_null ptr_eqb andb].
    rewrite !Nat.eqb_refl. cbn [andb].
    step_by ltac:(reflexivity). step_by ltac:(reflexivity).
    step_by ltac:(apply wr_Some; exact Ht).
    rewrite (wr_Some _ _ r (set_prev NULL t)) by (sproj; now rewrite list_lookup_insert_eq).
    eexists. split; [reflexivity|]. sproj.
    split; [|split; [|split; [reflexivity|split; [|split]]]].
    + repeat split. apply NoDup_nil_2.
    + exists (set_next NULL (set_prev NULL t)). lk. now repeat split.
    + reflexivity.
    + now tc.
    + intros i Hi. apply Hout in Hi. sproj. now lk.
  - (* the head *)
    cbn [app head_or] in Hhead, Hnx.
    destruct D2 as [(tj & Htj & Hjp & Hjn) D2'].
    assert (Hjr : j <> r) by (intros ->; apply Hr2; left).
    assert (Hrt : YKReadyTail s <> Some r).
    { rewrite Htail. cbn [app]. rewrite last_or_cons.
      destruct (last_or_in l2 j (Some r)) as (x & -> & Hx).
      intros [= ->]. now apply Hr2. }
    rewrite (removeReady_head s r j t tj) by assumption.
    eexists. split; [reflexivity|]. sproj.
    split; [|split; [|split; [reflexivity|split; [|split]]]].
    + split; [exact Hnd2|]. split; [|split].
      * apply (dll_frame (<[j := set_prev NULL tj]> (YKTasks s))).
        { intros i Hi. apply list_lookup_insert_ne. intros ->. now apply Hr2. }
        apply (dll_set_first _ (Some r)); [split; [now exists tj|exact D2']| |exact Htj].
        now apply NoDup_cons in Hnd2.
      * reflexivity.
      * cbn [YKReadyTail with_YKTasks with_YKReadyHead]. rewrite Htail. cbn [app].
        now rewrite !last_or_cons.
    + exists (set_next NULL t). lk. now repeat split.
    + reflexivity.
    + now tc.
    + intros i Hi. pose proof (Hout i Hi).
      assert (i <> j) by (intros ->; apply Hi; apply elem_of_app; right; right; left).
      sproj. now lk.
  - (* the tail *)
    destruct (head_or_snoc l1 [r] p NULL) as (h & Hh & Hhin).
    assert (Hhr : h <> r) by (intros ->; now apply Hr1).
    assert (Hpr : p <> r) by (intros ->; apply Hr1; apply elem_of_app; right; left).
    rewrite Hh in Hhead.
    rewrite last_or_app in Htail, Hpv. cbn [last_or last] in Htail, Hpv.
    cbn [head_or] in Hnx, D1.
    pose proof D1 as D1'. apply dll_app in D1' as [_ [(tp & Htp & Hpp & Hpn) _]].
    unfold removeReady.
    step_by ltac:(apply (rd_Some taskID _ _ _ Ht)).
    step_by ltac:(reflexivity). step_by ltac:(reflexivity).
    rewrite Hid', Hhead, Htail. cbn [is_null].
    rewrite (ptr_eqb_neq (Some h) (Some r)) by congruence.
    rewrite ptr_eqb_refl. cbn [andb].
    step_by ltac:(apply (rd_Some prev _ _ _ Ht)). rewrite Hpv.
    step_by ltac:(reflexivity).
    step_by ltac:(apply wr_Some; exact Htp).
    rewrite (wr_Some _ _ r t) by (sproj; now lk).
    eexists. split; [reflexivity|]. rewrite app_nil_r.
    split; [|split; [|split; [reflexivity|split; [|split]]]].
    + split; [exact Hnd1|]. sproj. split; [|split].
      * apply (dll_frame (<[p := set_next NULL tp]> (YKTasks s))).
        { intros i Hi. apply list_lookup_insert_ne. intros ->. now apply Hr1. }
        apply (dll_set_last _ _ (Some r)); [exact D1| |exact Htp].
        apply NoDup_app in Hnd1 as (_ & Hd & _). intros Hi. apply (Hd p Hi). left.
      * rewrite Hhead, <- Hh. now destruct l1.
      * now rewrite last_or_app.
    + exists (set_prev NULL t). sproj. lk. now repeat split.
    + reflexivity.
    + now tc.
    + intros i Hi. pose proof (Hout i Hi).
      assert (i <> p).
      { intros ->. apply Hi. apply elem_of_app. left. apply elem_of_app. right. left. }
      sproj. now lk.
  - (* between two elements *)
    destruct (head_or_snoc l1 (r :: j :: l2) p NULL) as (h & Hh & Hhin).
    assert (Hhr : h <> r) by (intros ->; now apply Hr1).
    assert (Hpr : p <> r) by (intros ->; apply Hr1; apply elem_of_app; right; left).
    assert (Hjr : j <> r) by (intros ->; apply Hr2; left).
    assert (Hpj : p <> j).
    { intros ->. apply (Hdisj j); [apply elem_of_app; right; left|right; left]. }
    rewrite Hh in Hhead.
    rewrite last_or_app, !last_or_cons in Htail.
    rewrite last_or_app in Hpv. cbn [last_or last] in Hpv.
    cbn [head_or] in Hnx, D1.
    pose proof D1 as D1'. apply dll_app in D1' as [_ [(tp & Htp & Hpp & Hpn) _]].
    destruct D2 as [(tj & Htj & Hjp & Hjn) D2'].
    assert (Hrt : YKReadyTail s <> Some r).
    { rewrite Htail. destruct (last_or_in l2 j (Some r)) as (x & Hx & Hxin).
      rewrite last_or_cons in Hx. rewrite Hx. intros [= ->]. now apply Hr2. }
    unfold removeReady.
    step_by ltac:(apply (rd_Some taskID _ _ _ Ht)).
    step_by ltac:(reflexivity). step_by ltac:(reflexivity).
    rewrite Hid', Hhead. cbn [is_null].
    rewrite (ptr_eqb_neq (Some h) (Some r)) by congruence.
    rewrite (ptr_eqb_neq (YKReadyTail s) (Some r)) by exact Hrt. cbn [andb].
    step_by ltac:(apply (rd_Some next _ _ _ Ht)). rewrite Hnx.
    step_by ltac:(apply (rd_Some prev _ _ _ Ht)). rewrite Hpv.
    step_by ltac:(apply wr_Some; exact Htj).
    step_by ltac:(apply (wr_Some _ _ p tp); sproj; now lk).
    step_by ltac:(apply (wr_Some _ _ r t); sproj; now lk).
    rewrite (wr_Some _ _ r (set_next NULL t)) by (sproj; now lk).
    eexists. split; [reflexivity|].
    split; [|split; [|split; [reflexivity|split; [|split]]]].
    + split; [|sproj; split; [|split]].
      * apply NoDup_app. split; [exact Hnd1|]. split; [|exact Hnd2].
        intros x Hx Hx'. apply (Hdisj x Hx). now right.
      * apply dll_app. split.
        -- apply (dll_frame (<[p := set_next (Some j) tp]> (YKTasks s))).
           { intros i Hi.
             assert (i <> r) by (intros ->; now apply Hr1).
             assert (i <> j) by (intros ->; apply (Hdisj j Hi); right; left).
             destruct (decide (i = p)) as [->|]; now lk. }
           apply (dll_set_last _ _ (Some r)); [exact D1| |exact Htp].
           apply NoDup_app in Hnd1 as (_ & Hd & _). intros Hi. apply (Hd p Hi). left.
        -- rewrite last_or_app. cbn [last_or last].
           apply (dll_frame (<[j := set_prev (Some p) tj]> (YKTasks s))).
           { intros i Hi.
             assert (i <> r) by (intros ->; now apply Hr2).
             assert (i <> p).
             { intros ->. apply (Hdisj p); [apply elem_of_app; right; left|now right]. }
             destruct (decide (i = j)) as [->|]; now lk. }
           apply (dll_set_first _ (Some r)); [split; [now exists tj|exact D2']| |exact Htj].
           now apply NoDup_cons in Hnd2.
      * rewrite Hhead, <- Hh. now destruct l1.
      * rewrite Htail, last_or_app, last_or_cons. reflexivity.
    + exists (set_prev NULL (set_next NULL t)). sproj. lk. now repeat split.
    + reflexivity.
    + now tc.
    + intros i Hi. pose proof (Hout i Hi).
      assert (i <> p).
      { intros ->. apply Hi. apply elem_of_app. left. apply elem_of_app. right. left. }
      assert (i <> j).
      { intros ->. apply Hi. apply elem_of_app. right. right. left. }
      sproj. now lk.
Qed.

(** [insertReady] of a task whose priority differs from those of the ready
    tasks: the four cases of the code (empty list, new head, new tail, inner
    position found by the walk). *)
Lemma insertReady_spec (s : kstate) (l1 l2 : list nat) (new : nat) (tn : TCB) :
  ready_is s (l1 ++ l2) -> new ∉ l1 ++ l2 -> YKTasks s !! new = Some tn ->
  Forall (fun i => prio_of (YKTasks s) i < priority tn) l1 ->
  Forall (fun i => priority tn < prio_of (YKTasks s) i) l2 ->
  exists s',
    insertReady (Some new) s = Ret tt s' /\
    ready_is s' (l1 ++ new :: l2) /\
    console s' =
      match l1, l2 with
      | _ :: _, [] =>
          console s ++
          ["ERROR in insertReady(): New task priority shouldn't be lowest in ready queue!\n\r"%string]
      | _, _ => console s
      end /\
    ready_relinked (l1 ++ new :: l2) s s'.
Proof.
  intros (Hnd & Hdll & Hhead & Htail) Hnew Htn Hlt Hgt.
  pose proof (dll_length _ _ _ _ Hnd Hdll) as Hlen.
  assert (Hnl : (new < length (YKTasks s))%nat) by (eapply lookup_lt_Some; eauto).
  assert (Hout : forall i, i ∉ l1 ++ new :: l2 -> i <> new).
  { intros i Hi ->. apply Hi. apply elem_of_app. right. left. }
  pose proof Hnd as Hnd'. apply NoDup_app in Hnd' as (Hnd1 & Hdisj & Hnd2).
  assert (Hn1 : new ∉ l1) by (intros Hi; apply Hnew; apply elem_of_app; now left).
  assert (Hn2 : new ∉ l2) by (intros Hi; apply Hnew; apply elem_of_app; now right).
  assert (Hndn : NoDup (l1 ++ new :: l2)).
  { apply NoDup_app. split; [exact Hnd1|]. split; [|now apply NoDup_cons].
    intros x Hx [->|Hx']%elem_of_cons; [now apply Hn1|now apply (Hdisj x)]. }
  destruct l1 as [|p l1 _] using rev_ind; [destruct l2 as [|c l2]|destruct l2 as [|c l2]].
  - (* the empty list *)
    cbn [app head_or last_or last] in Hhead, Htail.
    unfold insertReady. cbn [is_null].
    step_by ltac:(reflexivity). rewrite Hhead. cbn [is_null NULL].
    step_by ltac:(reflexivity). step_by ltac:(reflexivity).
    step_by ltac:(apply wr_Some; exact Htn).
    rewrite (wr_Some _ _ new (set_prev NULL tn)) by (sproj; now lk).
    eexists. split; [reflexivity|].
    split; [|split; [|split; [|split]]].
    + split; [exact Hndn|]. sproj. split; [|now split].
      split; [|exact Logic.I]. exists (set_next NULL (set_prev NULL tn)). lk. now repeat split.
    + reflexivity.
    + reflexivity.
    + now tc.
    + intros i Hi. apply Hout in Hi. sproj. now lk.
  - (* before the head *)
    cbn [app head_or] in Hhead. cbn [app] in Hdll, Htail.
    pose proof Hdll as [(tc & Htc & Hcp & Hcn) D2].
    apply Forall_cons in Hgt as [Hc Hgt]. rewrite (prio_of_Some _ _ _ Htc) in Hc.
    apply Z.ltb_lt in Hc.
    assert (Hcn' : c <> new) by (intros ->; apply Hn2; left).
    unfold insertReady. cbn [is_null].
    step_by ltac:(reflexivity). rewrite Hhead. cbn [is_null].
    step_by ltac:(apply (rd_Some priority _ _ _ Htn)).
    step_by ltac:(apply (rd_Some priority _ _ _ Htc)).
    rewrite Hc.
    step_by ltac:(apply wr_Some; exact Htc).
    step_by ltac:(apply (wr_Some _ _ new tn); sproj; now lk).
    step_by ltac:(apply (wr_Some _ _ new (set_next (Some c) tn)); sproj; now lk).
    eexists. split; [reflexivity|].
    split; [|split; [|split; [|split]]].
    + split; [exact Hndn|]. sproj. split; [|split].
      * split.
        -- exists (set_prev NULL (set_next (Some c) tn)). lk. now repeat split.
        -- apply (dll_frame (<[c := set_prev (Some new) tc]> (YKTasks s))).
           { intros i Hi. assert (i <> new) by (intros ->; now apply Hn2). now lk. }
           apply (dll_set_first _ NULL); [exact Hdll| |exact Htc].
           now apply NoDup_cons in Hnd2.
      * reflexivity.
      * rewrite Htail. cbn [app]. now rewrite !last_or_cons.
    + reflexivity.
    + reflexivity.
    + now tc.
    + intros i Hi. pose proof (Hout i Hi).
      assert (i <> c) by (intros ->; apply Hi; right; left).
      sproj. now lk.
  - (* after the tail *)
    rewrite app_nil_r in *.
    destruct (head_or_snoc l1 [] p NULL) as (h & Hh & Hhin). rewrite app_nil_r in Hh.
    rewrite Hh in Hhead.
    rewrite last_or_app in Htail. cbn [last_or last] in Htail.
    destruct (dll_lookup _ _ _ _ _ Hdll Hhin) as (th & Hth).
    pose proof (proj1 (Forall_forall _ _) Hlt h Hhin) as Hhp. cbn beta in Hhp.
    rewrite (prio_of_Some _ _ _ Hth) in Hhp.
    pose proof Hdll as D1. apply dll_app in D1 as [_ [(tp & Htp & Hpp & Hpn) _]].
    assert (Hpp' : priority tp < priority tn).
    { rewrite <- (prio_of_Some _ _ _ Htp).
      apply (proj1 (Forall_forall _ _) Hlt p). apply elem_of_app. right. left. }
    apply Z.ltb_lt in Hpp'.
    assert (Hhp' : (priority tn <? priority th) = false) by (apply Z.ltb_ge; lia).
    assert (Hpn' : p <> new) by (intros ->; apply Hn1; apply elem_of_app; right; left).
    unfold insertReady. cbn [is_null].
    step_by ltac:(reflexivity). rewrite Hhead. cbn [is_null].
    step_by ltac:(apply (rd_Some priority _ _ _ Htn)).
    step_by ltac:(apply (rd_Some priority _ _ _ Hth)).
    rewrite Hhp'.
    step_by ltac:(reflexivity). rewrite Htail.
    step_by ltac:(apply (rd_Some priority _ _ _ Htp)).
    rewrite Hpp'.
    step_by ltac:(reflexivity).
    step_by ltac:(apply (wr_Some _ _ p tp); sproj; exact Htp).
    step_by ltac:(apply (wr_Some _ _ new tn); sproj; now lk).
    step_by ltac:(apply (wr_Some _ _ new (set_prev (Some p) tn)); sproj; now lk).
    eexists. split; [reflexivity|].
    split; [|split; [|split; [|split]]].
    + split; [exact Hndn|]. sproj. split; [|split].
      * apply dll_app. split.
        -- cbn [head_or].
           apply (dll_frame (<[p := set_next (Some new) tp]> (YKTasks s))).
           { intros i Hi. assert (i <> new) by (intros ->; now apply Hn1). now lk. }
           apply (dll_set_last _ _ NULL); [exact Hdll| |exact Htp].
           apply NoDup_app in Hnd1 as (_ & Hd & _). intros Hi. apply (Hd p Hi). left.
        -- rewrite last_or_app. cbn [last_or last]. split; [|exact Logic.I].
           exists (set_next NULL (set_prev (Some p) tn)). lk. now repeat split.
      * rewrite Hhead, <- Hh. now destruct l1.
      * now rewrite last_or_app.
    + now destruct l1.
    + reflexivity.
    + now tc.
    + intros i Hi. pose proof (Hout i Hi).
      assert (i <> p).
      { intros ->. apply Hi. apply elem_of_app. left. apply elem_of_app. right. left. }
      sproj. now lk.
  - (* between two elements *)
    destruct (head_or_snoc l1 (c :: l2) p NULL) as (h & Hh & Hhin).
    rewrite Hh in Hhead.
    rewrite last_or_app in Htail.
    destruct (last_or_in l2 c (last_or (l1 ++ [p]) NULL)) as (x & Hx & Hxin).
    rewrite Hx in Htail.
    assert (Hhin' : h ∈ (l1 ++ [p]) ++ c :: l2) by (apply elem_of_app; now left).
    assert (Hxin' : x ∈ (l1 ++ [p]) ++ c :: l2) by (apply elem_of_app; now right).
    destruct (dll_lookup _ _ _ _ _ Hdll Hhin') as (th & Hth).
    destruct (dll_lookup _ _ _ _ _ Hdll Hxin') as (tx & Htx).
    pose proof (proj1 (Forall_forall _ _) Hlt h Hhin) as Hhp. cbn beta in Hhp.
    rewrite (prio_of_Some _ _ _ Hth) in Hhp.
    pose proof (proj1 (Forall_forall _ _) Hgt x Hxin) as Hxp. cbn beta in Hxp.
    rewrite (prio_of_Some _ _ _ Htx) in Hxp.
    pose proof Hdll as D. apply dll_app in D as [D1 D2].
    pose proof D1 as D1'. apply dll_app in D1' as [_ [(tp & Htp & Hpp & Hpn) _]].
    pose proof D2 as [(tc & Htc & Hcp & Hcn) D2'].
    rewrite last_or_app in Hcp. cbn [last_or last] in Hcp.
    assert (Hcge : priority tn <= prio_of (YKTasks s) c).
    { apply Forall_cons in Hgt as [Hc _]. lia. }
    assert (Hhp' : (priority tn <? priority th) = false) by (apply Z.ltb_ge; lia).
    assert (Hxp' : (priority tx <? priority tn) = false) by (apply Z.ltb_ge; lia).
    assert (Hpn' : p <> new) by (intros ->; apply Hn1; apply elem_of_app; right; left).
    assert (Hcn' : c <> new) by (intros ->; apply Hn2; left).
    assert (Hpc : p <> c).
    { intros ->. apply (Hdisj c); [apply elem_of_app; right; left|left]. }
    assert (Hwalk : insertReady_walk (S (length (YKTasks s))) (Some h) (Some new) s
                    = Ret (Some c) s).
    { rewrite <- Hh.
      apply (insertReady_walk_finds s _ _ _ _ tn NULL); try assumption.
      rewrite length_app in Hlen. lia. }
    unfold insertReady. cbn [is_null].
    step_by ltac:(reflexivity). rewrite Hhead. cbn [is_null].
    step_by ltac:(apply (rd_Some priority _ _ _ Htn)).
    step_by ltac:(apply (rd_Some priority _ _ _ Hth)).
    rewrite Hhp'.
    step_by ltac:(reflexivity). rewrite Htail.
    step_by ltac:(apply (rd_Some priority _ _ _ Htx)).
    rewrite Hxp'.
    step_by ltac:(reflexivity).
    step_by ltac:(exact Hwalk).
    step_by ltac:(apply (rd_Some prev _ _ _ Htc)).
    rewrite Hcp.
    step_by ltac:(apply (wr_Some _ _ p tp); exact Htp).
    step_by ltac:(apply (wr_Some _ _ new tn); sproj; now lk).
    step_by ltac:(apply (wr_Some _ _ c tc); sproj; now lk).
    rewrite (wr_Some _ _ new (set_prev (Some p) tn)) by (sproj; now lk).
    eexists. split; [reflexivity|].
    split; [|split; [|split; [|split]]].
    + split; [exact Hndn|]. sproj. split; [|split].
      * apply dll_app. split; [|split].
        -- cbn [head_or].
           apply (dll_frame (<[p := set_next (Some new) tp]> (YKTasks s))).
           { intros i Hi.
             assert (i <> new) by (intros ->; now apply Hn1).
             assert (i <> c) by (intros ->; apply (Hdisj c Hi); left).
             destruct (decide (i = p)) as [->|]; now lk. }
           apply (dll_set_last _ _ (Some c)); [exact D1| |exact Htp].
           apply NoDup_app in Hnd1 as (_ & Hd & _). intros Hi. apply (Hd p Hi). left.
        -- rewrite last_or_app. cbn [last_or last head_or].
           exists (set_next (Some c) (set_prev (Some p) tn)). lk. now repeat split.
        -- apply (dll_frame (<[c := set_prev (Some new) tc]> (YKTasks s))).
           { intros i Hi.
             assert (i <> new) by (intros ->; now apply Hn2).
             assert (i <> p).
             { intros ->. apply (Hdisj p); [apply elem_of_app; right; left|exact Hi]. }
             destruct (decide (i = c)) as [->|]; now lk. }
           apply (dll_set_first _ (last_or (l1 ++ [p]) NULL)); [exact D2| |exact Htc].
           now apply NoDup_cons in Hnd2.
      * rewrite Hhead, <- Hh. now destruct l1.
      * rewrite Htail, <- Hx. rewrite !last_or_app, !last_or_cons. reflexivity.
    + now destruct l1.
    + reflexivity.
    + now tc.
    + intros i Hi. pose proof (Hout i Hi).
      assert (i <> p).
      { intros ->. apply Hi. apply elem_of_app. left. apply elem_of_app. right. left. }
      assert (i <> c).
      { intros ->. apply Hi. apply elem_of_app. right. right. left. }
      sproj. now lk.
Qed.

Lemma dllb_correct (tasks : list TCB) (pv nx : TCBPtr) (l : list nat) :
  dllb tasks pv l nx = true -> dll tasks pv l nx.
Proof.
  revert pv. induction l as [|i l IH]; intros pv H; [exact Logic.I|].
  cbn in H. destruct (tasks !! i) as [t|] eqn:E; [|discriminate].
  apply andb_prop in H as [H H3]. apply andb_prop in H as [H1 H2].
  apply ptr_eqb_eq in H1, H2. split; [now exists t|now apply IH].
Qed.

Lemma ready_isb_correct (s : kstate) (l : list nat) :
  ready_isb s l = true -> ready_is s l.
Proof.
  unfold ready_isb. intros H.
  apply andb_prop in H as [H H4]. apply andb_prop in H as [H H3].
  apply andb_prop in H as [H1 H2].
  apply bool_decide_eq_true in H1. apply dllb_correct in H2.
  apply ptr_eqb_eq in H3, H4. now repeat split.
Qed.

(** X8: [removeReady] on a task of the ready list other than the idle task
    unlinks exactly that task: the others stay ready in their order, the
    head and tail pointers follow, the removed task has no link left,
    nothing is reported, and no ID, priority or delay count and no task
    outside the list is touched. *)
Theorem removeReady_unlinks (s : kstate) (l1 l2 : list nat) (r : nat) (t : TCB) :
  ready_is s (l1 ++ r :: l2) ->
  YKTasks s !! r = Some t -> taskID t <> IDLE_TASK_ID ->
  exists s',
    removeReady (Some r) s = Ret tt s' /\
    ready_is s' (l1 ++ l2) /\
    node (YKTasks s') NULL r NULL /\
    console s' = console s /\
    tcores (YKTasks s') = tcores (YKTasks s) /\
    forall i, i ∉ l1 ++ r :: l2 -> YKTasks s' !! i = YKTasks s !! i.
Proof.
  intros H Ht Hid.
  destruct (removeReady_spec s l1 l2 r t H Ht Hid) as (s' & H1 & H2 & H3 & H4 & _ & H5 & H6).
  now exists s'.
Qed.

(** The second of three tasks is removed from between its neighbours. *)
Lemma removeReady_unlinks_witness :
  exists s',
    removeReady (Some 2%nat) delay_start = Ret tt s' /\
    ready_is s' ([1%nat] ++ [3%nat; 0%nat]) /\
    node (YKTasks s') NULL 2%nat NULL /\
    console s' = console delay_start /\
    tcores (YKTasks s') = tcores (YKTasks delay_start) /\
    forall i, i ∉ [1%nat] ++ 2%nat :: [3%nat; 0%nat] -> YKTasks s' !! i = YKTasks delay_start !! i.
Proof.
  refine (removeReady_unlinks delay_start [1%nat] [3%nat; 0%nat] 2%nat
            (mkTCB 2 0 2 (Some 3%nat) (Some 1%nat)) _ _ _).
  - apply ready_isb_correct. vm_compute. reflexivity.
  - vm_compute. reflexivity.
  - vm_compute. discriminate.
Defined.

(** X9: [insertReady] of a task that is not in the ready list, and whose
    priority differs from those of the ready tasks, links it after the tasks
    of smaller priority value and before those of greater priority value;
    the head and tail pointers follow.  An error is reported, and the task
    inserted all the same, only when it becomes the last one of a list that
    was not empty. *)
Theorem insertReady_by_priority (s : kstate) (l1 l2 : list nat) (new : nat) (tn : TCB) :
  ready_is s (l1 ++ l2) -> new ∉ l1 ++ l2 -> YKTasks s !! new = Some tn ->
  Forall (fun i => prio_of (YKTasks s) i < priority tn) l1 ->
  Forall (fun i => priority tn < prio_of (YKTasks s) i) l2 ->
  exists s',
    insertReady (Some new) s = Ret tt s' /\
    ready_is s' (l1 ++ new :: l2) /\
    console s' =
      match l1, l2 with
      | _ :: _, [] =>
          console s ++
          ["ERROR in insertReady(): New task priority shouldn't be lowest in ready queue!\n\r"%string]
      | _, _ => console s
      end /\
    tcores (YKTasks s') = tcores (YKTasks s) /\
    forall i, i ∉ l1 ++ new :: l2 -> YKTasks s' !! i = YKTasks s !! i.
Proof.
  intros H Hn Ht Hlt Hgt.
  destruct (insertReady_spec s l1 l2 new tn H Hn Ht Hlt Hgt) as (s' & H1 & H2 & H3 & _ & H5 & H6).
  now exists s'.
Qed.

(** The task removed from the ready list is inserted where it was. *)
Lemma insertReady_by_priority_witness :
  exists s',
    insertReady (Some 2%nat) (after (removeReady (Some 2%nat) delay_start)) = Ret tt s' /\
    ready_is s' ([1%nat] ++ 2%nat :: [3%nat; 0%nat]) /\
    console s' = console (after (removeReady (Some 2%nat) delay_start)) /\
    tcores (YKTasks s') = tcores (YKTasks (after (removeReady (Some 2%nat) delay_start))) /\
    forall i, i ∉ [1%nat] ++ 2%nat :: [3%nat; 0%nat] ->
              YKTasks s' !! i = YKTasks (after (removeReady (Some 2%nat) delay_start)) !! i.
Proof.
  refine (insertReady_by_priority (after (removeReady (Some 2%nat) delay_start))
            [1%nat] [3%nat; 0%nat] 2%nat (mkTCB 2 0 2 NULL NULL) _ _ _ _ _).
  - apply ready_isb_correct. vm_compute. reflexivity.
  - apply (bool_decide_unpack _). vm_compute. exact Logic.I.
  - vm_compute. reflexivity.
  - apply (bool_decide_unpack _). vm_compute. exact Logic.I.
  - apply (bool_decide_unpack _). vm_compute. exact Logic.I.
Defined.

(** ** Task creation *)

Lemma allocateTCB_Ret (s : kstate) :
  (numTasksCreated s < S MAX_TASKS)%nat ->
  allocateTCB s = Ret (Some (numTasksCreated s)) (with_numTasksCreated (S (numTasksCreated s)) s).
Proof.
  intros H. unfold allocateTCB.
  step_by ltac:(reflexivity).
  replace (Nat.leb (MAX_TASKS + 1) (numTasksCreated s)) with false
    by (symmetry; apply Nat.leb_gt; lia).
  reflexivity.
Qed.

Lemma ready_is_frame (s s' : kstate) (l : list nat) :
  ready_is s l ->
  (forall i, i ∈ l -> YKTasks s' !! i = YKTasks s !! i) ->
  YKReadyHead s' = YKReadyHead s -> YKReadyTail s' = YKReadyTail s ->
  ready_is s' l.
Proof.
  intros (Hnd & Hdll & Hh & Ht) Hf Hh' Ht'.
  split; [exact Hnd|]. split; [now apply (dll_frame (YKTasks s))|].
  now rewrite Hh', Ht'.
Qed.

Lemma prio_of_frame (tasks tasks' : list TCB) (i : nat) :
  tasks' !! i = tasks !! i -> prio_of tasks' i = prio_of tasks i.
Proof. unfold prio_of. now intros ->. Qed.

Lemma Forall_prio_frame (P : Z -> Prop) (tasks tasks' : list TCB) (l : list nat) :
  (forall i, i ∈ l -> tasks' !! i = tasks !! i) ->
  Forall (fun i => P (prio_of tasks i)) l -> Forall (fun i => P (prio_of tasks' i)) l.
Proof.
  intros Hf H. apply Forall_forall. intros i Hi.
  rewrite (prio_of_frame tasks tasks' i (Hf i Hi)).
  exact (proj1 (Forall_forall _ _) H i Hi).
Qed.

(** [YKNewTask] up to the insertion: the next pool entry is initialised. *)
Lemma YKNewTask_body (s : kstate) (taskCode taskStack taskPriority : Z) (t0 : TCB) :
  (numTasksCreated s < S MAX_TASKS)%nat -> YKTasks s !! numTasksCreated s = Some t0 ->
  YKNewTask taskCode taskStack taskPriority s
  = (insertReady (Some (numTasksCreated s)) ;;
     when (intEnabled s) YKExitMutex ;;
     started <- gets YKStartedFlag ;;
     when (negb (started =? 0)) YKScheduler)
      (with_YKTasks
         (<[numTasksCreated s :=
              mkTCB (taskIDCount s) 0 (wrap_uchar taskPriority) NULL NULL]> (YKTasks s))
         (with_taskIDCount (wrap_int (taskIDCount s + 1))
            (with_numTasksCreated (S (numTasksCreated s)) (with_intEnabled false s)))).
Proof.
  intros Hn Ht0.
  assert (Hlen : (numTasksCreated s < length (YKTasks s))%nat) by (eapply lookup_lt_Some; eauto).
  unfold YKNewTask.
  step_by ltac:(apply YKEnterMutex_Ret).
  step_by ltac:(apply allocateTCB_Ret; exact Hn).
  sproj.
  step_by ltac:(unfold touch; erewrite bind_Ret; [reflexivity|apply load_Some; exact Ht0]).
  step_by ltac:(reflexivity).
  step_by ltac:(reflexivity). sproj.
  step_by ltac:(apply wr_Some; exact Ht0). sproj.
  step_by ltac:(apply wr_Some; sproj; apply list_lookup_insert_eq; exact Hlen). sproj.
  rewrite list_insert_insert_eq.
  step_by ltac:(apply wr_Some; sproj; apply list_lookup_insert_eq; exact Hlen). sproj.
  rewrite list_insert_insert_eq.
  step_by ltac:(apply wr_Some; sproj; apply list_lookup_insert_eq; exact Hlen). sproj.
  rewrite list_insert_insert_eq.
  step_by ltac:(apply wr_Some; sproj; apply list_lookup_insert_eq; exact Hlen). sproj.
  rewrite list_insert_insert_eq.
  step_by ltac:(unfold touch; erewrite bind_Ret;
                [reflexivity|apply load_Some; sproj; apply list_lookup_insert_eq; exact Hlen]).
  reflexivity.
Qed.

(** X10: [YKNewTask], while the pool has a free entry, initialises the
    next entry with the next task ID, a delay count of 0 and the priority
    (an [unsigned char]) and links it into the ready list at the place of
    its priority; the counters of created tasks and of IDs advance, the
    interrupt flag is restored, and the scheduler is called if and only if
    the kernel has been started. *)
Theorem YKNewTask_enters_ready_list (s : kstate) (l1 l2 : list nat)
    (taskCode taskStack taskPriority : Z) (n : nat) (t0 : TCB) :
  numTasksCreated s = n -> (n < S MAX_TASKS)%nat -> YKTasks s !! n = Some t0 ->
  ready_is s (l1 ++ l2) -> n ∉ l1 ++ l2 ->
  Forall (fun i => prio_of (YKTasks s) i < wrap_uchar taskPriority) l1 ->
  Forall (fun i => wrap_uchar taskPriority < prio_of (YKTasks s) i) l2 ->
  exists s',
    YKNewTask taskCode taskStack taskPriority s
    = (if YKStartedFlag s =? 0 then Ret tt s' else YKScheduler s') /\
    ready_is s' (l1 ++ n :: l2) /\
    (exists t, YKTasks s' !! n = Some t /\ taskID t = taskIDCount s /\
               delayCount t = 0 /\ priority t = wrap_uchar taskPriority) /\
    (forall i, i ∉ l1 ++ n :: l2 -> YKTasks s' !! i = YKTasks s !! i) /\
    (forall i, i <> n -> prio_of (YKTasks s') i = prio_of (YKTasks s) i) /\
    numTasksCreated s' = S n /\
    taskIDCount s' = wrap_int (taskIDCount s + 1) /\
    intEnabled s' = intEnabled s /\
    YKCurrentTask s' = YKCurrentTask s.
Proof.
  intros Hnum Hn Ht0 Hr Hnew Hlt Hgt. subst n.
  assert (Hlen : (numTasksCreated s < length (YKTasks s))%nat) by (eapply lookup_lt_Some; eauto).
  rewrite (YKNewTask_body s taskCode taskStack taskPriority t0 Hn Ht0).
  set (tn := mkTCB (taskIDCount s) 0 (wrap_uchar taskPriority) NULL NULL).
  set (s1 := with_YKTasks _ _).
  assert (Hf : forall i, i ∈ l1 ++ l2 -> YKTasks s1 !! i = YKTasks s !! i).
  { intros i Hi. unfold s1. sproj. apply list_lookup_insert_ne. intros <-. now apply Hnew. }
  assert (Hr1 : ready_is s1 (l1 ++ l2)) by (now apply (ready_is_frame s)).
  assert (Htn : YKTasks s1 !! numTasksCreated s = Some tn).
  { unfold s1. sproj. now apply list_lookup_insert_eq. }
  destruct (insertReady_spec s1 l1 l2 (numTasksCreated s) tn Hr1 Hnew Htn)
    as (s2 & Hrun & Hr2 & _ & Heq & Hcore & Hframe).
  { apply (Forall_prio_frame (fun p => p < wrap_uchar taskPriority) (YKTasks s)); [|exact Hlt].
    intros i Hi. apply Hf. apply elem_of_app. now left. }
  { apply (Forall_prio_frame (fun p => wrap_uchar taskPriority < p) (YKTasks s)); [|exact Hgt].
    intros i Hi. apply Hf. apply elem_of_app. now right. }
  step_by ltac:(exact Hrun).
  exists (with_intEnabled (intEnabled s) s2).
  assert (Hmx : when (intEnabled s) YKExitMutex s2 = Ret tt (with_intEnabled (intEnabled s) s2)).
  { rewrite Heq. unfold s1. destruct (intEnabled s); reflexivity. }
  split; [|split; [|split; [|split; [|split]]]].
  - step_by ltac:(exact Hmx).
    step_by ltac:(reflexivity).
    replace (YKStartedFlag (with_intEnabled (intEnabled s) s2)) with (YKStartedFlag s)
      by (rewrite Heq; reflexivity).
    now destruct (YKStartedFlag s =? 0).
  - apply (ready_is_frame s2); [exact Hr2|reflexivity..].
  - assert (Hc : tcores (YKTasks s2) !! numTasksCreated s
                 = tcores (YKTasks s1) !! numTasksCreated s) by now rewrite Hcore.
    unfold tcores in Hc. rewrite !list_lookup_fmap, Htn in Hc.
    destruct (YKTasks s2 !! numTasksCreated s) as [t|] eqn:E; [|discriminate].
    exists t. split; [exact E|]. unfold tn in Hc. cbn in Hc.
    injection Hc as Hid Hdc Hpr. now repeat split.
  - intros i Hi. sproj. rewrite (Hframe i Hi). unfold s1. sproj.
    apply list_lookup_insert_ne. intros <-. apply Hi. apply elem_of_app. right. left.
  - intros i Hi. sproj.
    assert (Hc : tcores (YKTasks s2) !! i = tcores (YKTasks s1) !! i) by now rewrite Hcore.
    unfold tcores in Hc. rewrite !list_lookup_fmap in Hc.
    assert (Hs1 : YKTasks s1 !! i = YKTasks s !! i)
      by (unfold s1; sproj; apply list_lookup_insert_ne; congruence).
    rewrite Hs1 in Hc.
    unfold prio_of.
    destruct (YKTasks s2 !! i) as [t|], (YKTasks s !! i) as [t'|]; try discriminate;
      [|reflexivity].
    cbn in Hc. now injection Hc as Hid Hdc Hpr.
  - rewrite Heq. unfold s1. now repeat split.
Qed.

(** The first application task, created after the idle task. *)
Lemma YKNewTask_enters_ready_list_witness :
  exists s',
    YKNewTask 0 0 50 idle_created = Ret tt s' /\
    ready_is s' [1%nat; 0%nat] /\
    numTasksCreated s' = 2%nat.
Proof.
  destruct (YKNewTask_enters_ready_list idle_created [] [0%nat] 0 0 50 1%nat zeroTCB)
    as (s' & H1 & H2 & _ & _ & _ & H3 & _).
  - vm_compute. reflexivity.
  - unfold MAX_TASKS. lia.
  - vm_compute. reflexivity.
  - apply ready_isb_correct. vm_compute. reflexivity.
  - apply (bool_decide_unpack _). vm_compute. exact Logic.I.
  - apply Forall_nil_2.
  - apply (bool_decide_unpack _). vm_compute. exact Logic.I.
  - exists s'. replace (YKStartedFlag idle_created =? 0) with true in H1
      by (vm_compute; reflexivity).
    exact (conj H1 (conj H2 H3)).
Defined.

(** ** The delayed list: insertion *)

Lemma with_YKTasks_same (s : kstate) : with_YKTasks (YKTasks s) s = s.
Proof. now destruct s. Qed.

Lemma set_delayCount_same (t : TCB) : set_delayCount (delayCount t) t = t.
Proof. now destruct t. Qed.

Lemma delay_of_Some (tasks : list TCB) (i : nat) (t : TCB) :
  tasks !! i = Some t -> delay_of tasks i = delayCount t.
Proof. unfold delay_of. now intros ->. Qed.

Lemma delay_of_frame (tasks tasks' : list TCB) (i : nat) :
  tasks' !! i = tasks !! i -> delay_of tasks' i = delay_of tasks i.
Proof. unfold delay_of. now intros ->. Qed.

Lemma total_delay_cons (tasks : list TCB) (i : nat) (l : list nat) :
  total_delay tasks (i :: l) = delay_of tasks i + total_delay tasks l.
Proof. reflexivity. Qed.

Lemma total_delay_frame (tasks tasks' : list TCB) (l : list nat) :
  (forall i, i ∈ l -> tasks' !! i = tasks !! i) ->
  total_delay tasks' l = total_delay tasks l.
Proof.
  induction l as [|i l IH]; intros H; [reflexivity|].
  rewrite !total_delay_cons, IH by (intros k Hk; apply H; now right).
  now rewrite (delay_of_frame tasks tasks' i) by (apply H; left).
Qed.

Lemma total_delay_app (tasks : list TCB) (l1 l2 : list nat) :
  total_delay tasks (l1 ++ l2) = total_delay tasks l1 + total_delay tasks l2.
Proof.
  induction l1 as [|i l1 IH]; [reflexivity|].
  cbn [app]. rewrite !total_delay_cons, IH. lia.
Qed.

Lemma total_delay_nonneg (tasks : list TCB) (l : list nat) :
  Forall (fun i => 0 <= delay_of tasks i) l -> 0 <= total_delay tasks l.
Proof.
  induction 1 as [|i l Hi _ IH]; [cbn; lia|]. rewrite total_delay_cons. lia.
Qed.

Lemma Forall_delay_frame (P : Z -> Prop) (tasks tasks' : list TCB) (l : list nat) :
  (forall i, i ∈ l -> tasks' !! i = tasks !! i) ->
  Forall (fun i => P (delay_of tasks i)) l -> Forall (fun i => P (delay_of tasks' i)) l.
Proof.
  intros Hf H. apply Forall_forall. intros i Hi.
  rewrite (delay_of_frame tasks tasks' i (Hf i Hi)).
  exact (proj1 (Forall_forall _ _) H i Hi).
Qed.

(** The walk of [insertDelayed] stops at the first task due later than the
    new one, having subtracted the counts of the tasks it passed. *)
Lemma insertDelayed_walk_finds (l1 : list nat) :
  forall (s : kstate) (c : nat) (l2 : list nat) (new : nat) (tn : TCB)
         (pv nx : TCBPtr) (fuel : nat),
  dll (YKTasks s) pv (l1 ++ c :: l2) nx ->
  new ∉ l1 ++ c :: l2 ->
  YKTasks s !! new = Some tn ->
  Forall (fun i => 0 <= delay_of (YKTasks s) i) l1 ->
  total_delay (YKTasks s) l1 <= delayCount tn < 32768 ->
  delayCount tn < total_delay (YKTasks s) l1 + delay_of (YKTasks s) c ->
  (length l1 < fuel)%nat ->
  insertDelayed_walk fuel (head_or (l1 ++ c :: l2) nx) (Some new) s
  = Ret (Some c)
      (with_YKTasks
         (<[new := set_delayCount (delayCount tn - total_delay (YKTasks s) l1) tn]>
            (YKTasks s)) s).
Proof.
  induction l1 as [|i l1 IH]; intros s c l2 new tn pv nx fuel Hl Hnew Htn Hpos Hle Hlt Hf.
  - destruct fuel as [|fuel]; [cbn in Hf; lia|].
    destruct Hl as [(tc & Htc & _) _].
    change (total_delay (YKTasks s) []) with 0 in *.
    rewrite (delay_of_Some _ _ _ Htc) in Hlt.
    cbn [app head_or insertDelayed_walk].
    step_by ltac:(apply (rd_Some delayCount _ _ _ Htn)).
    step_by ltac:(apply (rd_Some delayCount _ _ _ Htc)).
    replace (delayCount tc <=? delayCount tn) with false by (symmetry; apply Z.leb_gt; lia).
    cbn [andb]. rewrite Z.sub_0_r, set_delayCount_same, list_insert_id by exact Htn.
    now rewrite with_YKTasks_same.
  - destruct fuel as [|fuel]; [cbn in Hf; lia|].
    cbn [app] in Hl. destruct Hl as [(ti & Hti & _ & Hnx) Hl].
    apply Forall_cons in Hpos as [Hi Hpos].
    pose proof (total_delay_nonneg _ _ Hpos) as Hnn.
    rewrite total_delay_cons in Hle, Hlt |- *.
    rewrite (delay_of_Some _ _ _ Hti) in *.
    assert (Hin : i <> new) by (intros ->; apply Hnew; left).
    cbn [app head_or insertDelayed_walk].
    step_by ltac:(apply (rd_Some delayCount _ _ _ Htn)).
    step_by ltac:(apply (rd_Some delayCount _ _ _ Hti)).
    replace (delayCount ti <=? delayCount tn) with true by (symmetry; apply Z.leb_le; lia).
    cbn [andb is_null negb].
    step_by ltac:(apply wr_Some; exact Htn).
    rewrite wrap_int_small by lia.
    set (tn1 := set_delayCount (delayCount tn - delayCount ti) tn).
    set (s1 := with_YKTasks (<[new := tn1]> (YKTasks s)) s).
    assert (Hfr : forall k, k <> new -> YKTasks s1 !! k = YKTasks s !! k).
    { intros k Hk. unfold s1. sproj. now apply list_lookup_insert_ne. }
    assert (Hfr' : forall k, k ∈ l1 ++ c :: l2 -> YKTasks s1 !! k = YKTasks s !! k).
    { intros k Hk. apply Hfr. intros ->. apply Hnew. now right. }
    step_by ltac:(apply (rd_Some next _ i ti); now rewrite Hfr).
    rewrite Hnx.
    assert (Htot : total_delay (YKTasks s1) l1 = total_delay (YKTasks s) l1).
    { apply total_delay_frame. intros k Hk. apply Hfr'. apply elem_of_app. now left. }
    assert (Hdc : delay_of (YKTasks s1) c = delay_of (YKTasks s) c).
    { apply delay_of_frame, Hfr'. apply elem_of_app. right. left. }
    rewrite (IH s1 c l2 new tn1 (Some i) nx fuel).
    + rewrite Htot. unfold s1. sproj. rewrite list_insert_insert_eq.
      replace (delayCount tn - (delayCount ti + total_delay (YKTasks s) l1))
        with (delayCount tn1 - total_delay (YKTasks s) l1) by (unfold tn1; cbn; lia).
      reflexivity.
    + now apply (dll_frame (YKTasks s)).
    + intros Hk. apply Hnew. now right.
    + unfold s1. sproj. apply list_lookup_insert_eq. eapply lookup_lt_Some; eauto.
    + apply (Forall_delay_frame (fun d => 0 <= d) (YKTasks s)); [|exact Hpos].
      intros k Hk. apply Hfr'. apply elem_of_app. now left.
    + rewrite Htot. unfold tn1. cbn. lia.
    + rewrite Htot, Hdc. unfold tn1. cbn. lia.
    + cbn in Hf. lia.
Qed.

Lemma dcores_insert (tasks : list TCB) (i : nat) (t t' : TCB) :
  tasks !! i = Some t ->
  set_delayCount 0 (set_next NULL (set_prev NULL t'))
  = set_delayCount 0 (set_next NULL (set_prev NULL t)) ->
  dcores (<[i := t']> tasks) = dcores tasks.
Proof.
  intros H E. unfold dcores. rewrite list_fmap_insert, E.
  apply list_insert_id. now rewrite list_lookup_fmap, H.
Qed.

Ltac dc :=
  sproj;
  repeat (erewrite dcores_insert; [|lk; first [reflexivity|eassumption]|reflexivity]).

Lemma dll_replace_first (tasks : list TCB) (pv pv' nx : TCBPtr) (j : nat) (l : list nat)
    (tj t' : TCB) :
  dll tasks pv (j :: l) nx -> j ∉ l -> tasks !! j = Some tj ->
  prev t' = pv' -> next t' = next tj ->
  dll (<[j := t']> tasks) pv' (j :: l) nx.
Proof.
  intros [(t & Ht & Hp & Hn) Hl] Hj Htj Hp' Hn'. rewrite Htj in Ht. injection Ht as <-.
  split.
  - exists t'. rewrite list_lookup_insert_eq by (eapply lookup_lt_Some; eauto).
    split; [reflexivity|]. split; [exact Hp'|congruence].
  - apply (dll_frame tasks); [|exact Hl].
    intros i Hi. apply list_lookup_insert_ne. intros ->. now apply Hj.
Qed.

(** [insertDelayed] into the empty list, before the head, or before an inner
    task. *)
Lemma insertDelayed_spec (s : kstate) (l1 l2 : list nat) (new : nat) (tn : TCB) :
  delayed_is s (l1 ++ l2) -> new ∉ l1 ++ l2 ->
  YKTasks s !! new = Some tn -> taskID tn <> IDLE_TASK_ID ->
  Forall (fun i => 0 <= delay_of (YKTasks s) i) l1 ->
  total_delay (YKTasks s) l1 <= delayCount tn < 32768 ->
  match l2 with
  | [] => l1 = []
  | c :: _ => delayCount tn < total_delay (YKTasks s) l1 + delay_of (YKTasks s) c /\
              delay_of (YKTasks s) c < 32768
  end ->
  exists s',
    insertDelayed (Some new) s = Ret tt s' /\
    delayed_is s' (l1 ++ new :: l2) /\
    delay_of (YKTasks s') new = delayCount tn - total_delay (YKTasks s) l1 /\
    match l2 with
    | [] => True
    | c :: _ => delay_of (YKTasks s') c
                = delay_of (YKTasks s) c - (delayCount tn - total_delay (YKTasks s) l1)
    end /\
    (forall i, i <> new -> head l2 <> Some i ->
               delay_of (YKTasks s') i = delay_of (YKTasks s) i) /\
    delayed_relinked (l1 ++ new :: l2) s s'.
Proof.
  intros (Hnd & Hdll & Hhead & Htail) Hnew Htn Hid Hpos Hle Hl2.
  pose proof (dll_length _ _ _ _ Hnd Hdll) as Hlen.
  assert (Hnl : (new < length (YKTasks s))%nat) by (eapply lookup_lt_Some; eauto).
  assert (Hout : forall i, i ∉ l1 ++ new :: l2 -> i <> new).
  { intros i Hi ->. apply Hi. apply elem_of_app. right. left. }
  pose proof Hnd as Hnd'. apply NoDup_app in Hnd' as (Hnd1 & Hdisj & Hnd2).
  assert (Hn1 : new ∉ l1) by (intros Hi; apply Hnew; apply elem_of_app; now left).
  assert (Hn2 : new ∉ l2) by (intros Hi; apply Hnew; apply elem_of_app; now right).
  assert (Hndn : NoDup (l1 ++ new :: l2)).
  { apply NoDup_app. split; [exact Hnd1|]. split; [|now apply NoDup_cons].
    intros x Hx [->|Hx']%elem_of_cons; [now apply Hn1|now apply (Hdisj x)]. }
  pose proof Hid as Hid'. apply Z.eqb_neq in Hid'.
  destruct l2 as [|c l2].
  - (* the empty list *)
    subst l1. cbn [app head_or last_or last] in Hhead, Htail.
    rewrite (insertDelayed_empty s new tn Hhead Htn Hid).
    eexists. split; [reflexivity|].
    split; [|split; [|split; [|split; [|split; [|split]]]]].
    + split; [exact Hndn|]. sproj. split; [|now split].
      split; [|exact Logic.I]. exists (set_next NULL (set_prev NULL tn)). lk. now repeat split.
    + sproj. erewrite delay_of_Some by (now lk). cbn. lia.
    + exact Logic.I.
    + intros i Hi _. sproj. apply delay_of_frame. now lk.
    + reflexivity.
    + now dc.
    + intros i Hi. apply Hout in Hi. sproj. now lk.
  - destruct Hl2 as [Hlt Hc32].
    assert (Hcn' : c <> new) by (intros ->; apply Hn2; left).
    assert (Hc2 : c ∉ l2) by (now apply NoDup_cons in Hnd2).
    destruct l1 as [|p l1 _] using rev_ind.
    + (* before the head *)
      cbn [app head_or] in Hhead. cbn [app] in Hdll, Htail.
      change (total_delay (YKTasks s) []) with 0 in *.
      pose proof Hdll as [(tc & Htc & Hcp & Hcn) D2].
      rewrite (delay_of_Some _ _ _ Htc) in *.
      unfold insertDelayed. cbn [is_null].
      step_by ltac:(apply (rd_Some taskID _ _ _ Htn)).
      step_by ltac:(reflexivity).
      rewrite Hid', Hhead. cbn [is_null].
      step_by ltac:(apply (rd_Some delayCount _ _ _ Htn)).
      step_by ltac:(apply (rd_Some delayCount _ _ _ Htc)).
      replace (delayCount tn <? delayCount tc) with true by (symmetry; apply Z.ltb_lt; lia).
      rewrite wrap_int_small by lia.
      step_by ltac:(apply wr_Some; exact Htc).
      step_by ltac:(apply (wr_Some _ _ c (set_delayCount (delayCount tc - delayCount tn) tc));
                    sproj; now lk).
      step_by ltac:(apply (wr_Some _ _ new tn); sproj; now lk).
      step_by ltac:(apply (wr_Some _ _ new (set_next (Some c) tn)); sproj; now lk).
      eexists. split; [reflexivity|]. sproj. rewrite !list_insert_insert_eq.
      split; [|split; [|split; [|split; [|split; [|split]]]]].
      * split; [exact Hndn|]. sproj. split; [|split].
        -- split.
           ++ exists (set_prev NULL (set_next (Some c) tn)). lk. now repeat split.
           ++ apply (dll_frame (<[c := set_prev (Some new)
                                          (set_delayCount (delayCount tc - delayCount tn) tc)]>
                                  (YKTasks s))).
              { intros i Hi. assert (i <> new) by (intros ->; now apply Hn2). now lk. }
              now apply (dll_replace_first _ NULL _ _ _ _ tc).
        -- reflexivity.
        -- rewrite Htail. cbn [app]. now rewrite !last_or_cons.
      * sproj. erewrite delay_of_Some by (now lk). cbn. lia.
      * sproj. erewrite delay_of_Some by (now lk). cbn. lia.
      * intros i Hi Hic. sproj. apply delay_of_frame.
        assert (i <> c) by (intros ->; now apply Hic). now lk.
      * reflexivity.
      * now dc.
      * intros i Hi. pose proof (Hout i Hi).
        assert (i <> c) by (intros ->; apply Hi; right; left).
        sproj. now lk.
    + (* between two elements *)
      destruct (head_or_snoc l1 (c :: l2) p NULL) as (h & Hh & Hhin).
      rewrite Hh in Hhead.
      assert (Hhin' : h ∈ (l1 ++ [p]) ++ c :: l2) by (apply elem_of_app; now left).
      destruct (dll_lookup _ _ _ _ _ Hdll Hhin') as (th & Hth).
      pose proof Hdll as D. apply dll_app in D as [D1 D2].
      pose proof D1 as D1'. apply dll_app in D1' as [_ [(tp & Htp & Hpp & Hpn) _]].
      pose proof D2 as [(tc & Htc & Hcp & Hcn) D2'].
      rewrite last_or_app in Hcp. cbn [last_or last] in Hcp.
      assert (Hpn' : p <> new) by (intros ->; apply Hn1; apply elem_of_app; right; left).
      assert (Hpc : p <> c).
      { intros ->. apply (Hdisj c); [apply elem_of_app; right; left|left]. }
      (* the head is not later than the new task *)
      assert (Hhd : delayCount th <= delayCount tn).
      { rewrite <- (delay_of_Some _ _ _ Hth).
        pose proof (total_delay_nonneg _ _ Hpos) as Hnn.
        destruct l1 as [|i l1]; cbn [app head_or] in Hh; injection Hh as <-.
        - cbn [app] in Hle. rewrite total_delay_cons in Hle.
          change (total_delay (YKTasks s) []) with 0 in Hle. lia.
        - cbn [app] in Hle, Hpos. rewrite total_delay_cons in Hle.
          apply Forall_cons in Hpos as [_ Hpos].
          pose proof (total_delay_nonneg _ _ Hpos). lia. }
      set (r := delayCount tn - total_delay (YKTasks s) (l1 ++ [p])).
      assert (Hr : 0 <= r < delayCount tc).
      { unfold r. rewrite (delay_of_Some _ _ _ Htc) in Hlt. lia. }
      rewrite (delay_of_Some _ _ _ Htc) in Hc32.
      assert (Hwalk : insertDelayed_walk (S (length (YKTasks s))) (Some h) (Some new) s
                      = Ret (Some c)
                          (with_YKTasks (<[new := set_delayCount r tn]> (YKTasks s)) s)).
      { rewrite <- Hh.
        apply (insertDelayed_walk_finds (l1 ++ [p]) s c l2 new tn NULL NULL); try assumption.
        rewrite length_app in Hlen. lia. }
      unfold insertDelayed. cbn [is_null].
      step_by ltac:(apply (rd_Some taskID _ _ _ Htn)).
      step_by ltac:(reflexivity).
      rewrite Hid', Hhead. cbn [is_null].
      step_by ltac:(apply (rd_Some delayCount _ _ _ Htn)).
      step_by ltac:(apply (rd_Some delayCount _ _ _ Hth)).
      replace (delayCount tn <? delayCount th) with false by (symmetry; apply Z.ltb_ge; lia).
      step_by ltac:(reflexivity).
      step_by ltac:(exact Hwalk).
      cbn [is_null].
      step_by ltac:(apply (rd_Some prev _ c tc); sproj; now lk).
      rewrite Hcp.
      step_by ltac:(apply (wr_Some _ _ p tp); sproj; now lk).
      step_by ltac:(apply (wr_Some _ _ new (set_delayCount r tn)); sproj; now lk).
      step_by ltac:(apply (wr_Some _ _ c tc); sproj; now lk).
      step_by ltac:(apply (wr_Some _ _ new (set_prev (Some p) (set_delayCount r tn)));
                    sproj; now lk).
      step_by ltac:(apply (rd_Some next _ new
                             (set_next (Some c) (set_prev (Some p) (set_delayCount r tn))));
                    sproj; now lk).
      cbn [next set_next].
      step_by ltac:(apply (rd_Some delayCount _ c (set_prev (Some new) tc)); sproj; now lk).
      step_by ltac:(apply (rd_Some delayCount _ new
                             (set_next (Some c) (set_prev (Some p) (set_delayCount r tn))));
                    sproj; now lk).
      cbn [delayCount set_next set_prev set_delayCount].
      rewrite wrap_int_small by lia.
      rewrite (wr_Some _ _ c (set_prev (Some new) tc)) by (sproj; now lk).
      eexists. split; [reflexivity|]. sproj.
      split; [|split; [|split; [|split; [|split; [|split]]]]].
      * split; [exact Hndn|]. sproj. split; [|split].
        -- apply dll_app. split; [|split; [|split]].
           ++ cbn [head_or].
              apply (dll_frame (<[p := set_next (Some new) tp]> (YKTasks s))).
              { intros i Hi.
                assert (i <> new) by (intros ->; now apply Hn1).
                assert (i <> c) by (intros ->; apply (Hdisj c Hi); left).
                destruct (decide (i = p)) as [->|]; now lk. }
              apply (dll_set_last _ _ (Some c)); [exact D1| |exact Htp].
              apply NoDup_app in Hnd1 as (_ & Hd & _). intros Hi. apply (Hd p Hi). left.
           ++ rewrite last_or_app. cbn [last_or last head_or].
              eexists. split; [now lk|]. now split.
           ++ cbn [head_or]. eexists. split; [now lk|]. now split.
           ++ apply (dll_frame (YKTasks s)); [|exact D2'].
              intros i Hi.
              assert (i <> new) by (intros ->; apply Hn2; now right).
              assert (i <> c) by (intros ->; now apply Hc2).
              assert (i <> p).
              { intros ->. apply (Hdisj p); [apply elem_of_app; right; left|now right]. }
              now lk.
        -- rewrite Hhead, <- Hh. now destruct l1.
        -- rewrite Htail. rewrite !last_or_app, !last_or_cons. reflexivity.
      * erewrite delay_of_Some by (now lk). reflexivity.
      * erewrite delay_of_Some by (now lk). rewrite (delay_of_Some _ _ _ Htc). reflexivity.
      * intros i Hi Hic.
        assert (i <> c) by (intros ->; now apply Hic).
        destruct (decide (i = p)) as [->|].
        -- rewrite (delay_of_Some _ p (set_next (Some new) tp)) by now lk.
           now rewrite (delay_of_Some _ _ _ Htp).
        -- apply delay_of_frame. now lk.
      * reflexivity.
      * now dc.
      * intros i Hi. pose proof (Hout i Hi).
        assert (i <> p).
        { intros ->. apply Hi. apply elem_of_app. left. apply elem_of_app. right. left. }
        assert (i <> c).
        { intros ->. apply Hi. apply elem_of_app. right. right. left. }
        sproj. now lk.
Qed.

Lemma total_delay_ext (tasks tasks' : list TCB) (l : list nat) :
  (forall i, i ∈ l -> delay_of tasks' i = delay_of tasks i) ->
  total_delay tasks' l = total_delay tasks l.
Proof.
  induction l as [|i l IH]; intros H; [reflexivity|].
  rewrite !total_delay_cons, IH by (intros k Hk; apply H; now right).
  now rewrite H by left.
Qed.

(** The same in terms of the ticks until each task is due. *)
Lemma insertDelayed_totals (s : kstate) (l1 l2 : list nat) (new : nat) (tn : TCB) :
  delayed_is s (l1 ++ l2) -> new ∉ l1 ++ l2 ->
  YKTasks s !! new = Some tn -> taskID tn <> IDLE_TASK_ID ->
  Forall (fun i => 0 <= delay_of (YKTasks s) i) l1 ->
  total_delay (YKTasks s) l1 <= delayCount tn < 32768 ->
  match l2 with
  | [] => l1 = []
  | c :: _ => delayCount tn < total_delay (YKTasks s) l1 + delay_of (YKTasks s) c /\
              delay_of (YKTasks s) c < 32768
  end ->
  exists s',
    insertDelayed (Some new) s = Ret tt s' /\
    delayed_is s' (l1 ++ new :: l2) /\
    total_delay (YKTasks s') (l1 ++ [new]) = delayCount tn /\
    (forall k, total_delay (YKTasks s') (take k l1) = total_delay (YKTasks s) (take k l1)) /\
    match l2 with
    | [] => True
    | c :: l2' =>
        forall k, total_delay (YKTasks s') (l1 ++ new :: c :: take k l2')
                  = total_delay (YKTasks s) (l1 ++ c :: take k l2')
    end /\
    delayed_relinked (l1 ++ new :: l2) s s'.
Proof.
  intros Hd Hnew Htn Hid Hpos Hle Hl2.
  destruct (insertDelayed_spec s l1 l2 new tn Hd Hnew Htn Hid Hpos Hle Hl2)
    as (s' & Hrun & Hd' & Hdn & Hdc & Hoth & Hrel).
  destruct Hd as (Hnd & _).
  apply NoDup_app in Hnd as (Hnd1 & Hdisj & Hnd2).
  assert (H1 : forall l, l ⊆ l1 -> total_delay (YKTasks s') l = total_delay (YKTasks s) l).
  { intros l Hl. apply total_delay_ext. intros i Hi. apply Hl in Hi. apply Hoth.
    - intros ->. apply Hnew. apply elem_of_app. now left.
    - destruct l2 as [|c l2]; [discriminate|]. intros [= ->]. apply (Hdisj i Hi). left. }
  exists s'. split; [exact Hrun|]. split; [exact Hd'|]. split; [|split; [|split; [|exact Hrel]]].
  - rewrite total_delay_app, total_delay_cons, (H1 l1), Hdn by reflexivity.
    change (total_delay (YKTasks s') []) with 0. lia.
  - intros k. apply H1. intros i Hi. now apply subseteq_take in Hi.
  - destruct l2 as [|c l2]; [exact Logic.I|]. intros k.
    rewrite !total_delay_app, !total_delay_cons, (H1 l1), Hdn, Hdc by reflexivity.
    assert (H2 : total_delay (YKTasks s') (take k l2) = total_delay (YKTasks s) (take k l2)).
    { apply total_delay_ext. intros i Hi. apply subseteq_take in Hi.
      apply NoDup_cons in Hnd2 as [Hc _]. apply Hoth.
      - intros ->. apply Hnew. apply elem_of_app. right. now right.
      - intros [= ->]. now apply Hc. }
    rewrite H2. lia.
Qed.

(** X11: [insertDelayed] of a task other than the idle task, with a count
    in [0 .. 32767], into the empty delayed list or before the first task
    due later than it, keeps the list well formed and every due time: the
    new task is due after exactly its count, and every task that was in the
    list is due when it was (the count of the task that follows the new one
    is reduced accordingly). *)
Theorem insertDelayed_keeps_wake_times (s : kstate) (l1 l2 : list nat) (new : nat) (tn : TCB) :
  delayed_is s (l1 ++ l2) -> new ∉ l1 ++ l2 ->
  YKTasks s !! new = Some tn -> taskID tn <> IDLE_TASK_ID ->
  Forall (fun i => 0 <= delay_of (YKTasks s) i) l1 ->
  total_delay (YKTasks s) l1 <= delayCount tn < 32768 ->
  match l2 with
  | [] => l1 = []
  | c :: _ => delayCount tn < total_delay (YKTasks s) l1 + delay_of (YKTasks s) c /\
              delay_of (YKTasks s) c < 32768
  end ->
  exists s',
    insertDelayed (Some new) s = Ret tt s' /\
    delayed_is s' (l1 ++ new :: l2) /\
    total_delay (YKTasks s') (l1 ++ [new]) = delayCount tn /\
    (forall k, total_delay (YKTasks s') (take k l1) = total_delay (YKTasks s) (take k l1)) /\
    match l2 with
    | [] => True
    | c :: l2' =>
        forall k, total_delay (YKTasks s') (l1 ++ new :: c :: take k l2')
                  = total_delay (YKTasks s) (l1 ++ c :: take k l2')
    end.
Proof.
  intros Hd Hnew Htn Hid Hpos Hle Hl2.
  destruct (insertDelayed_totals s l1 l2 new tn Hd Hnew Htn Hid Hpos Hle Hl2)
    as (s' & H1 & H2 & H3 & H4 & H5 & _).
  now exists s'.
Qed.

Lemma delayed_isb_correct (s : kstate) (l : list nat) :
  delayed_isb s l = true -> delayed_is s l.
Proof.
  unfold delayed_isb. intros H.
  apply andb_prop in H as [H H4]. apply andb_prop in H as [H H3].
  apply andb_prop in H as [H1 H2].
  apply bool_decide_eq_true in H1. apply dllb_correct in H2.
  apply ptr_eqb_eq in H3, H4. now repeat split.
Qed.

(** A task due in 8 ticks is inserted between those due in 7 and in 10. *)
Lemma insertDelayed_keeps_wake_times_witness :
  exists s',
    insertDelayed (Some 3%nat) delay_8_pending = Ret tt s' /\
    delayed_is s' [2%nat; 3%nat; 1%nat] /\
    total_delay (YKTasks s') [2%nat; 3%nat] = 8 /\
    total_delay (YKTasks s') [2%nat; 3%nat; 1%nat]
    = total_delay (YKTasks delay_8_pending) [2%nat; 1%nat].
Proof.
  destruct (insertDelayed_keeps_wake_times delay_8_pending [2%nat] [1%nat] 3%nat
              (mkTCB 3 8 3 NULL NULL))
    as (s' & H1 & H2 & H3 & _ & H4).
  - apply delayed_isb_correct. vm_compute. reflexivity.
  - apply (bool_decide_unpack _). vm_compute. exact Logic.I.
  - vm_compute. reflexivity.
  - vm_compute. discriminate.
  - apply (bool_decide_unpack _). vm_compute. exact Logic.I.
  - vm_compute. split; [discriminate|reflexivity].
  - vm_compute. split; reflexivity.
  - exists s'. exact (conj H1 (conj H2 (conj H3 (H4 0%nat)))).
Defined.

(** ** [YKDelayTask] *)

Lemma tcores_lookup (tasks tasks' : list TCB) (i : nat) (t : TCB) :
  tcores tasks' = tcores tasks -> tasks !! i = Some t ->
  exists t', tasks' !! i = Some t' /\ taskID t' = taskID t /\
             delayCount t' = delayCount t /\ priority t' = priority t.
Proof.
  intros Hc Ht.
  assert (H : tcores tasks' !! i = tcores tasks !! i) by now rewrite Hc.
  unfold tcores in H. rewrite !list_lookup_fmap, Ht in H.
  destruct (tasks' !! i) as [t'|]; [|discriminate].
  exists t'. cbn in H. injection H as H1 H2 H3. now repeat split.
Qed.

Lemma tcores_dcores (tasks tasks' : list TCB) :
  tcores tasks' = tcores tasks -> dcores tasks' = dcores tasks.
Proof.
  intros H.
  assert (E : forall l, dcores l = set_delayCount 0 <$> tcores l).
  { intros l. unfold dcores, tcores. now rewrite <- list_fmap_compose. }
  now rewrite !E, H.
Qed.

Lemma delayed_is_frame (s s' : kstate) (l : list nat) :
  delayed_is s l ->
  (forall i, i ∈ l -> YKTasks s' !! i = YKTasks s !! i) ->
  YKDelayedHead s' = YKDelayedHead s -> YKDelayedTail s' = YKDelayedTail s ->
  delayed_is s' l.
Proof.
  intros (Hnd & Hdll & Hh & Ht) Hf Hh' Ht'.
  split; [exact Hnd|]. split; [now apply (dll_frame (YKTasks s))|].
  now rewrite Hh', Ht'.
Qed.

(** The three steps of [YKDelayTask] composed. *)
Lemma YKDelayTask_spec (s : kstate) (r1 r2 d1 d2 : list nat) (c : nat) (t : TCB) (n : Z) :
  YKCurrentTask s = Some c -> YKTasks s !! c = Some t -> taskID t <> IDLE_TASK_ID ->
  ready_is s (r1 ++ c :: r2) -> delayed_is s (d1 ++ d2) ->
  Forall (fun i => i ∉ d1 ++ d2) (r1 ++ c :: r2) ->
  0 < n < 32768 ->
  Forall (fun i => 0 <= delay_of (YKTasks s) i) d1 ->
  total_delay (YKTasks s) d1 <= n ->
  match d2 with
  | [] => d1 = []
  | x :: _ => n < total_delay (YKTasks s) d1 + delay_of (YKTasks s) x /\
              delay_of (YKTasks s) x < 32768
  end ->
  exists s',
    YKDelayTask n s = YKScheduler s' /\
    ready_is s' (r1 ++ r2) /\
    delayed_is s' (d1 ++ c :: d2) /\
    total_delay (YKTasks s') (d1 ++ [c]) = n /\
    (forall k, total_delay (YKTasks s') (take k d1) = total_delay (YKTasks s) (take k d1)) /\
    match d2 with
    | [] => True
    | x :: d2' =>
        forall k, total_delay (YKTasks s') (d1 ++ c :: x :: take k d2')
                  = total_delay (YKTasks s) (d1 ++ x :: take k d2')
    end /\
    console s' = console s /\ intEnabled s' = intEnabled s /\
    YKCurrentTask s' = Some c /\
    dcores (YKTasks s') = dcores (YKTasks s).
Proof.
  intros Hcur Ht Hid Hr Hd Hdisj Hn Hpos Hle Hd2.
  pose proof (proj1 (Forall_forall _ _) Hdisj) as Hdisj'. cbn beta in Hdisj'.
  clear Hdisj. rename Hdisj' into Hdisj.
  assert (Hcd : c ∉ d1 ++ d2) by (apply Hdisj, elem_of_app; right; left).
  set (s0 := with_intEnabled false s).
  (* the caller leaves the ready list *)
  destruct (removeReady_spec s0 r1 r2 c t) as (s1 & Hrun1 & Hr1 & Hnode1 & Hcons1 & Heq1 & Hcore1 & Hfr1);
    [exact Hr|exact Ht|exact Hid|].
  destruct Hnode1 as (t1 & Ht1 & Hp1 & Hn1).
  destruct (tcores_lookup _ _ c t Hcore1 Ht) as (t1' & Ht1' & Hid1 & Hdc1 & Hpr1).
  rewrite Ht1 in Ht1'. injection Ht1' as <-.
  assert (Hfd1 : forall i, i ∈ d1 ++ d2 -> YKTasks s1 !! i = YKTasks s !! i).
  { intros i Hi. apply Hfr1. intros Hi'. now apply (Hdisj i Hi'). }
  (* its delay count is set *)
  set (s2 := with_YKTasks (<[c := set_delayCount n t1]> (YKTasks s1)) s1).
  assert (Hfd2 : forall i, i ∈ d1 ++ d2 -> YKTasks s2 !! i = YKTasks s !! i).
  { intros i Hi. unfold s2. sproj. rewrite list_lookup_insert_ne; [now apply Hfd1|].
    intros ->. now apply Hcd. }
  assert (Hd2' : delayed_is s2 (d1 ++ d2)).
  { apply (delayed_is_frame s); [exact Hd|exact Hfd2| |]; unfold s2; rewrite Heq1; reflexivity. }
  assert (Ht2 : YKTasks s2 !! c = Some (set_delayCount n t1)).
  { unfold s2. sproj. apply list_lookup_insert_eq. eapply lookup_lt_Some; eauto. }
  assert (Htot1 : total_delay (YKTasks s2) d1 = total_delay (YKTasks s) d1).
  { apply total_delay_frame. intros i Hi. apply Hfd2. apply elem_of_app. now left. }
  (* it enters the delayed list *)
  destruct (insertDelayed_totals s2 d1 d2 c (set_delayCount n t1))
    as (s3 & Hrun3 & Hd3 & Htn3 & Hpre3 & Hsuf3 & Heq3 & Hcore3 & Hfr3).
  { exact Hd2'. }
  { exact Hcd. }
  { exact Ht2. }
  { cbn. congruence. }
  { apply (Forall_delay_frame (fun d => 0 <= d) (YKTasks s)); [|exact Hpos].
    intros i Hi. apply Hfd2. apply elem_of_app. now left. }
  { rewrite Htot1. cbn. lia. }
  { destruct d2 as [|x d2]; [exact Hd2|].
    rewrite Htot1, (delay_of_frame (YKTasks s) (YKTasks s2) x)
      by (apply Hfd2; apply elem_of_app; right; left).
    exact Hd2. }
  exists (with_intEnabled (intEnabled s) s3).
  assert (Hcur1 : YKCurrentTask s1 = Some c) by (rewrite Heq1; exact Hcur).
  assert (Hmx : when (intEnabled s) YKExitMutex s3 = Ret tt (with_intEnabled (intEnabled s) s3)).
  { rewrite Heq3. unfold s2. rewrite Heq1. unfold s0. destruct (intEnabled s); reflexivity. }
  split; [|split; [|split; [|split; [|split; [|split; [|split; [|split; [|split]]]]]]]].
  - unfold YKDelayTask.
    rewrite (wrap_uint_small n), (wrap_int_small n) by lia.
    replace (n <=? 0) with false by (symmetry; apply Z.leb_gt; lia).
    step_by ltac:(apply YKEnterMutex_Ret).
    step_by ltac:(reflexivity).
    step_by ltac:(reflexivity). sproj. rewrite Hcur.
    step_by ltac:(exact Hrun1).
    step_by ltac:(reflexivity). rewrite Hcur1.
    step_by ltac:(apply wr_Some; exact Ht1).
    step_by ltac:(reflexivity). sproj. rewrite Hcur1.
    step_by ltac:(exact Hrun3).
    step_by ltac:(exact Hmx).
    reflexivity.
  - apply (ready_is_frame s1); [exact Hr1| |rewrite Heq3; reflexivity..].
    intros i Hi. sproj. rewrite Hfr3.
    + unfold s2. sproj. apply list_lookup_insert_ne. intros <-.
      destruct Hr as (Hnd & _). apply NoDup_app in Hnd as (_ & Hx & Hnd).
      apply NoDup_cons in Hnd as [Hc2 _].
      apply elem_of_app in Hi as [Hi|Hi]; [apply (Hx c Hi); left|now apply Hc2].
    + intros Hi'. apply elem_of_app in Hi' as [Hi'|Hi'].
      * apply (Hdisj i); [|apply elem_of_app; now left].
        apply elem_of_app in Hi as [Hi|Hi]; apply elem_of_app; [now left|right; now right].
      * apply elem_of_cons in Hi' as [->|Hi'].
        -- destruct Hr as (Hnd & _). apply NoDup_app in Hnd as (_ & Hx & Hnd).
           apply NoDup_cons in Hnd as [Hc2 _].
           apply elem_of_app in Hi as [Hi|Hi]; [apply (Hx c Hi); left|now apply Hc2].
        -- apply (Hdisj i); [|apply elem_of_app; now right].
           apply elem_of_app in Hi as [Hi|Hi]; apply elem_of_app; [now left|right; now right].
  - apply (delayed_is_frame s3); [exact Hd3|reflexivity..].
  - sproj. rewrite Htn3. reflexivity.
  - intros k. sproj. rewrite Hpre3. apply total_delay_frame.
    intros i Hi. apply Hfd2. apply elem_of_app. left. now apply subseteq_take in Hi.
  - destruct d2 as [|x d2]; [exact Logic.I|]. intros k. sproj. rewrite Hsuf3.
    apply total_delay_frame. intros i Hi. apply Hfd2.
    apply elem_of_app in Hi as [Hi|Hi]; apply elem_of_app; [now left|right].
    apply elem_of_cons in Hi as [->|Hi]; [left|right; now apply subseteq_take in Hi].
  - rewrite Heq3. unfold s2. sproj. rewrite Hcons1. reflexivity.
  - reflexivity.
  - rewrite Heq3. unfold s2. sproj. exact Hcur1.
  - sproj. rewrite Hcore3. unfold s2. sproj.
    rewrite (dcores_insert _ c t1) by (exact Ht1 || reflexivity).
    now apply tcores_dcores.
Qed.

Lemma dcores_lookup (tasks tasks' : list TCB) (i : nat) (t : TCB) :
  dcores tasks' = dcores tasks -> tasks !! i = Some t ->
  exists t', tasks' !! i = Some t' /\ taskID t' = taskID t /\ priority t' = priority t.
Proof.
  intros Hc Ht.
  assert (H : dcores tasks' !! i = dcores tasks !! i) by now rewrite Hc.
  unfold dcores in H. rewrite !list_lookup_fmap, Ht in H.
  destruct (tasks' !! i) as [t'|]; [|discriminate].
  exists t'. cbn in H. injection H as H1 H2. now repeat split.
Qed.

(** X12: [YKDelayTask] with a count between 1 and 32767 moves the calling
    task from the ready list to the delayed list, at the place where the
    counts before it sum to no more than the count and the next task is due
    later: the caller is due after exactly that count, every other delayed
    task is due when it was, nothing is reported, and the scheduler is
    called, which dispatches the head of the ready list when that is
    another task. *)
Theorem YKDelayTask_moves_caller (s : kstate) (r1 r2 d1 d2 : list nat) (c : nat)
    (t : TCB) (n : Z) :
  YKCurrentTask s = Some c -> YKTasks s !! c = Some t -> taskID t <> IDLE_TASK_ID ->
  ready_is s (r1 ++ c :: r2) -> delayed_is s (d1 ++ d2) ->
  Forall (fun i => i ∉ d1 ++ d2) (r1 ++ c :: r2) ->
  0 < n < 32768 ->
  Forall (fun i => 0 <= delay_of (YKTasks s) i) d1 ->
  total_delay (YKTasks s) d1 <= n ->
  match d2 with
  | [] => d1 = []
  | x :: _ => n < total_delay (YKTasks s) d1 + delay_of (YKTasks s) x /\
              delay_of (YKTasks s) x < 32768
  end ->
  exists s',
    YKDelayTask n s = YKScheduler s' /\
    ready_is s' (r1 ++ r2) /\
    delayed_is s' (d1 ++ c :: d2) /\
    total_delay (YKTasks s') (d1 ++ [c]) = n /\
    (forall k, total_delay (YKTasks s') (take k d1) = total_delay (YKTasks s) (take k d1)) /\
    match d2 with
    | [] => True
    | x :: d2' =>
        forall k, total_delay (YKTasks s') (d1 ++ c :: x :: take k d2')
                  = total_delay (YKTasks s) (d1 ++ x :: take k d2')
    end /\
    console s' = console s /\ intEnabled s' = intEnabled s /\
    (forall h th, head_or (r1 ++ r2) NULL = Some h -> YKTasks s !! h = Some th ->
                  taskID th <> taskID t ->
                  switched (YKDelayTask n s) = Some (sched_switch_state s')).
Proof.
  intros Hcur Ht Hid Hr Hd Hdisj Hn Hpos Hle Hd2.
  destruct (YKDelayTask_spec s r1 r2 d1 d2 c t n Hcur Ht Hid Hr Hd Hdisj Hn Hpos Hle Hd2)
    as (s' & Hrun & Hr' & Hd' & H1 & H2 & H3 & H4 & H5 & Hcur' & Hcore).
  exists s'. do 8 (split; [assumption|]).
  intros h th Hh Hth Hne. rewrite Hrun.
  destruct (dcores_lookup _ _ h th Hcore Hth) as (th' & Hth' & Hidh & _).
  destruct (dcores_lookup _ _ c t Hcore Ht) as (t' & Ht' & Hidc & _).
  pose proof (YKScheduler_cases s') as Hs.
  destruct Hr' as (_ & _ & Hhead & _). rewrite Hhead, Hh, Hcur' in Hs.
  rewrite (load_Some _ _ _ Hth'), (load_Some _ _ _ Ht') in Hs.
  rewrite Hidh, Hidc in Hs. apply Z.eqb_neq in Hne. rewrite Hne in Hs.
  now rewrite Hs.
Qed.

(** The third task delays itself by 8 ticks while the first two are due in
    7 and in 10 ticks. *)
Lemma YKDelayTask_moves_caller_witness :
  exists s',
    switched (YKDelayTask 8 delay_10_7) = Some (sched_switch_state s') /\
    ready_is s' [0%nat] /\
    delayed_is s' [2%nat; 3%nat; 1%nat] /\
    total_delay (YKTasks s') [2%nat; 3%nat] = 8 /\
    total_delay (YKTasks s') [2%nat; 3%nat; 1%nat]
    = total_delay (YKTasks delay_10_7) [2%nat; 1%nat].
Proof.
  destruct (YKDelayTask_moves_caller delay_10_7 [] [0%nat] [2%nat] [1%nat] 3%nat
              (mkTCB 3 0 3 (Some 0%nat) NULL) 8)
    as (s' & _ & H2 & H3 & H4 & _ & H5 & _ & _ & H6).
  - vm_compute. reflexivity.
  - vm_compute. reflexivity.
  - vm_compute. discriminate.
  - apply ready_isb_correct. vm_compute. reflexivity.
  - apply delayed_isb_correct. vm_compute. reflexivity.
  - apply (bool_decide_unpack _). vm_compute. exact Logic.I.
  - lia.
  - apply (bool_decide_unpack _). vm_compute. exact Logic.I.
  - vm_compute. discriminate.
  - vm_compute. split; reflexivity.
  - exists s'.
    refine (conj (H6 0%nat (mkTCB 0 0 100 NULL (Some 3%nat)) _ _ _)
              (conj H2 (conj H3 (conj H4 (H5 0%nat))))).
    + reflexivity.
    + vm_compute. reflexivity.
    + vm_compute. discriminate.
Defined.

(** ** Pending lists: insertion and removal *)

(** The walk of [insertPendSem] and [insertPendQ] stops at the first task
    whose priority is not smaller than the new task's, or at the last task. *)
Lemma insertPend_walk_finds (s : kstate) (l1 l2 : list nat) (c new : nat) (tn : TCB)
    (pv nx : TCBPtr) (fuel : nat) :
  dll (YKTasks s) pv (l1 ++ c :: l2) nx ->
  YKTasks s !! new = Some tn ->
  Forall (fun i => prio_of (YKTasks s) i < priority tn) l1 ->
  priority tn <= prio_of (YKTasks s) c ->
  (length l1 < fuel)%nat ->
  insertPend_walk fuel (head_or (l1 ++ c :: l2) nx) (Some new) s = Ret (Some c) s.
Proof.
  intros Hl Hn Hlt Hge. revert pv fuel Hl Hlt.
  induction l1 as [|i l1 IH]; intros pv fuel Hl Hlt Hf.
  - destruct fuel as [|fuel]; [cbn in Hf; lia|].
    destruct Hl as [(tc & Htc & _) _].
    rewrite (prio_of_Some _ _ _ Htc) in Hge. apply Z.ltb_ge in Hge.
    cbn [app head_or insertPend_walk].
    step_by ltac:(apply (rd_Some priority _ _ _ Htc)).
    step_by ltac:(apply (rd_Some priority _ _ _ Hn)).
    now rewrite Hge.
  - destruct fuel as [|fuel]; [cbn in Hf; lia|].
    cbn [app] in Hl. destruct Hl as [(ti & Hti & _ & Hnx) Hl].
    apply Forall_cons in Hlt as [Hi Hlt].
    rewrite (prio_of_Some _ _ _ Hti) in Hi. apply Z.ltb_lt in Hi.
    cbn [app head_or insertPend_walk].
    step_by ltac:(apply (rd_Some priority _ _ _ Hti)).
    step_by ltac:(apply (rd_Some priority _ _ _ Hn)).
    rewrite Hi.
    step_by ltac:(apply (rd_Some next _ _ _ Hti)).
    rewrite Hnx.
    replace (is_null (head_or (l1 ++ c :: l2) nx)) with false by (now destruct l1).
    apply (IH (Some i)); [exact Hl|exact Hlt|cbn in Hf; lia].
Qed.

Lemma insertPend_walk_last (s : kstate) (l1 : list nat) (p new : nat) (tn : TCB)
    (pv : TCBPtr) (fuel : nat) :
  dll (YKTasks s) pv (l1 ++ [p]) NULL ->
  YKTasks s !! new = Some tn ->
  Forall (fun i => prio_of (YKTasks s) i < priority tn) (l1 ++ [p]) ->
  (length l1 < fuel)%nat ->
  insertPend_walk fuel (head_or (l1 ++ [p]) NULL) (Some new) s = Ret (Some p) s.
Proof.
  intros Hl Hn. revert pv fuel Hl.
  induction l1 as [|i l1 IH]; intros pv fuel Hl Hlt Hf.
  - destruct fuel as [|fuel]; [cbn in Hf; lia|].
    destruct Hl as [(tp & Htp & _ & Hnx) _].
    apply Forall_cons in Hlt as [Hp _].
    rewrite (prio_of_Some _ _ _ Htp) in Hp. apply Z.ltb_lt in Hp.
    cbn [app head_or insertPend_walk].
    step_by ltac:(apply (rd_Some priority _ _ _ Htp)).
    step_by ltac:(apply (rd_Some priority _ _ _ Hn)).
    rewrite Hp.
    step_by ltac:(apply (rd_Some next _ _ _ Htp)).
    now rewrite Hnx.
  - destruct fuel as [|fuel]; [cbn in Hf; lia|].
    cbn [app] in Hl, Hlt. destruct Hl as [(ti & Hti & _ & Hnx) Hl].
    apply Forall_cons in Hlt as [Hi Hlt].
    rewrite (prio_of_Some _ _ _ Hti) in Hi. apply Z.ltb_lt in Hi.
    cbn [app head_or insertPend_walk].
    step_by ltac:(apply (rd_Some priority _ _ _ Hti)).
    step_by ltac:(apply (rd_Some priority _ _ _ Hn)).
    rewrite Hi.
    step_by ltac:(apply (rd_Some next _ _ _ Hti)).
    rewrite Hnx.
    replace (is_null (head_or (l1 ++ [p]) NULL)) with false by (now destruct l1).
    apply (IH (Some i)); [exact Hl|exact Hlt|cbn in Hf; lia].
Qed.

Section PendList.
Variable ok : kstate -> Prop.
Variable hd : kstate -> TCBPtr.
Variable upd : TCBPtr -> kstate -> kstate.
Variable get_head : M TCBPtr.
Variable set_head : TCBPtr -> M unit.
Hypothesis get_ok : forall s, ok s -> get_head s = Ret (hd s) s.
Hypothesis set_ok : forall p s, ok s -> set_head p s = Ret tt (upd p s).
Hypothesis ok_tasks : forall T s, ok s -> ok (with_YKTasks T s).
Hypothesis ok_upd : forall p s, ok s -> ok (upd p s).
Hypothesis hd_tasks : forall T s, hd (with_YKTasks T s) = hd s.
Hypothesis hd_upd : forall p s, ok s -> hd (upd p s) = p.
Hypothesis tasks_upd : forall p s, YKTasks (upd p s) = YKTasks s.
Hypothesis upd_tasks : forall p T s, upd p (with_YKTasks T s) = with_YKTasks T (upd p s).
Hypothesis upd_same : forall s, ok s -> upd (hd s) s = s.

Ltac okk Hok := repeat first [apply ok_tasks | apply ok_upd]; exact Hok.

(** Removal of the first of at least two waiters. *)
Lemma removePend_spec (s : kstate) (h j : nat) (l : list nat) :
  pend_is ok hd s (h :: j :: l) ->
  exists s',
    removePend get_head set_head s = Ret (Some h) s' /\
    pend_is ok hd s' (j :: l) /\
    node (YKTasks s') NULL h NULL /\
    pend_relinked hd upd (h :: j :: l) s s'.
Proof.
  intros (Hok & Hnd & Hdll & Hhd).
  destruct Hdll as [(th & Hth & Hhp & Hhn) [(tj & Htj & Hjp & Hjn) Hl]].
  cbn [head_or] in Hhd, Hhn.
  apply NoDup_cons in Hnd as [Hh' Hnd]. pose proof Hnd as Hnd'.
  apply NoDup_cons in Hnd' as [Hj' _].
  assert (Hjh : j <> h) by (intros ->; apply Hh'; left).
  unfold removePend.
  step_by ltac:(apply get_ok; exact Hok). rewrite Hhd. cbn [is_null].
  step_by ltac:(apply (rd_Some next _ _ _ Hth)). rewrite Hhn.
  step_by ltac:(apply set_ok; exact Hok).
  step_by ltac:(apply (wr_Some _ _ j tj); now rewrite tasks_upd).
  step_by ltac:(apply (wr_Some _ _ h th); sproj; rewrite tasks_upd; now lk).
  sproj. rewrite !tasks_upd.
  eexists. split; [reflexivity|].
  split; [|split; [|split; [|split]]].
  - split; [okk Hok|]. split; [exact Hnd|]. sproj. split.
    + split.
      * exists (set_prev NULL tj). lk. now repeat split.
      * apply (dll_frame (YKTasks s)); [|exact Hl].
        intros i Hi.
        assert (i <> h) by (intros ->; apply Hh'; now right).
        assert (i <> j) by (intros ->; now apply Hj').
        now lk.
    + now rewrite !hd_tasks, hd_upd.
  - exists (set_next NULL th). sproj. lk. now repeat split.
  - rewrite !hd_tasks, hd_upd by exact Hok. sproj.
    now rewrite <- !upd_tasks.
  - now tc.
  - intros i Hi.
    assert (i <> h) by (intros ->; apply Hi; left).
    assert (i <> j) by (intros ->; apply Hi; right; left).
    sproj. now lk.
Qed.
(** Insertion at the place of the priority: the four cases of the code. *)
Lemma insertPend_spec (msg : string) (s : kstate) (l1 l2 : list nat) (new : nat) (tn : TCB) :
  pend_is ok hd s (l1 ++ l2) -> new ∉ l1 ++ l2 -> YKTasks s !! new = Some tn ->
  Forall (fun i => prio_of (YKTasks s) i < priority tn) l1 ->
  Forall (fun i => priority tn < prio_of (YKTasks s) i) l2 ->
  exists s',
    insertPend msg get_head set_head (Some new) s = Ret tt s' /\
    pend_is ok hd s' (l1 ++ new :: l2) /\
    pend_relinked hd upd (l1 ++ new :: l2) s s'.
Proof.
  intros (Hok & Hnd & Hdll & Hhead) Hnew Htn Hlt Hgt.
  pose proof (dll_length _ _ _ _ Hnd Hdll) as Hlen.
  assert (Hnl : (new < length (YKTasks s))%nat) by (eapply lookup_lt_Some; eauto).
  assert (Hout : forall i, i ∉ l1 ++ new :: l2 -> i <> new).
  { intros i Hi ->. apply Hi. apply elem_of_app. right. left. }
  pose proof Hnd as Hnd'. apply NoDup_app in Hnd' as (Hnd1 & Hdisj & Hnd2).
  assert (Hn1 : new ∉ l1) by (intros Hi; apply Hnew; apply elem_of_app; now left).
  assert (Hn2 : new ∉ l2) by (intros Hi; apply Hnew; apply elem_of_app; now right).
  assert (Hndn : NoDup (l1 ++ new :: l2)).
  { apply NoDup_app. split; [exact Hnd1|]. split; [|now apply NoDup_cons].
    intros x Hx [->|Hx']%elem_of_cons; [now apply Hn1|now apply (Hdisj x)]. }
  destruct l1 as [|p l1 _] using rev_ind; [destruct l2 as [|c l2]|destruct l2 as [|c l2]].
  - (* the empty list *)
    cbn [app head_or] in Hhead.
    unfold insertPend. cbn [is_null].
    step_by ltac:(apply get_ok; exact Hok). rewrite Hhead. cbn [is_null NULL].
    step_by ltac:(apply set_ok; exact Hok).
    step_by ltac:(apply (wr_Some _ _ new tn); now rewrite tasks_upd).
    rewrite (wr_Some _ _ new (set_prev NULL tn)) by (sproj; rewrite tasks_upd; now lk).
    sproj. rewrite !tasks_upd.
    eexists. split; [reflexivity|].
    split; [|split; [|split]].
    + split; [okk Hok|]. split; [exact Hndn|]. sproj. split.
      * split; [|exact Logic.I]. exists (set_next NULL (set_prev NULL tn)). lk.
        now repeat split.
      * now rewrite !hd_tasks, hd_upd.
    + rewrite !hd_tasks, hd_upd by exact Hok. sproj. now rewrite <- !upd_tasks.
    + now tc.
    + intros i Hi. apply Hout in Hi. sproj. now lk.
  - (* before the head *)
    cbn [app head_or] in Hhead. cbn [app] in Hdll.
    pose proof Hdll as [(tc & Htc & Hcp & Hcn) D2].
    apply Forall_cons in Hgt as [Hc Hgt]. rewrite (prio_of_Some _ _ _ Htc) in Hc.
    apply Z.ltb_lt in Hc.
    assert (Hcn' : c <> new) by (intros ->; apply Hn2; left).
    unfold insertPend. cbn [is_null].
    step_by ltac:(apply get_ok; exact Hok). rewrite Hhead. cbn [is_null].
    step_by ltac:(apply (rd_Some priority _ _ _ Htn)).
    step_by ltac:(apply (rd_Some priority _ _ _ Htc)).
    rewrite Hc.
    step_by ltac:(apply wr_Some; exact Htc).
    step_by ltac:(apply (wr_Some _ _ new tn); sproj; now lk).
    step_by ltac:(apply (wr_Some _ _ new (set_next (Some c) tn)); sproj; now lk).
    rewrite set_ok by okk Hok.
    eexists. split; [reflexivity|].
    split; [|split; [|split]].
    + split; [okk Hok|]. split; [exact Hndn|].
      rewrite tasks_upd. sproj. split.
      * split.
        -- exists (set_prev NULL (set_next (Some c) tn)). lk. now repeat split.
        -- apply (dll_frame (<[c := set_prev (Some new) tc]> (YKTasks s))).
           { intros i Hi. assert (i <> new) by (intros ->; now apply Hn2). now lk. }
           apply (dll_set_first _ NULL); [exact Hdll| |exact Htc].
           now apply NoDup_cons in Hnd2.
      * rewrite hd_upd by okk Hok. reflexivity.
    + rewrite hd_upd by okk Hok. rewrite tasks_upd. sproj.
      now rewrite !upd_tasks.
    + rewrite tasks_upd. now tc.
    + intros i Hi. pose proof (Hout i Hi).
      assert (i <> c) by (intros ->; apply Hi; right; left).
      rewrite tasks_upd. sproj. now lk.
  - (* after the last element *)
    rewrite app_nil_r in *.
    destruct (head_or_snoc l1 [] p NULL) as (h & Hh & Hhin). rewrite app_nil_r in Hh.
    rewrite Hh in Hhead.
    destruct (dll_lookup _ _ _ _ _ Hdll Hhin) as (th & Hth).
    pose proof (proj1 (Forall_forall _ _) Hlt h Hhin) as Hhp. cbn beta in Hhp.
    rewrite (prio_of_Some _ _ _ Hth) in Hhp.
    pose proof Hdll as D1. apply dll_app in D1 as [_ [(tp & Htp & Hpp & Hpn) _]].
    cbn [head_or] in Hpn.
    assert (Hpp' : priority tp < priority tn).
    { rewrite <- (prio_of_Some _ _ _ Htp).
      apply (proj1 (Forall_forall _ _) Hlt p). apply elem_of_app. right. left. }
    apply Z.ltb_lt in Hpp'.
    assert (Hhp' : (priority tn <? priority th) = false) by (apply Z.ltb_ge; lia).
    assert (Hpn' : p <> new) by (intros ->; apply Hn1; apply elem_of_app; right; left).
    assert (Hwalk : insertPend_walk (S (length (YKTasks s))) (Some h) (Some new) s
                    = Ret (Some p) s).
    { rewrite <- Hh. apply (insertPend_walk_last s l1 p new tn NULL); try assumption.
      rewrite length_app in Hlen. cbn in Hlen. lia. }
    unfold insertPend. cbn [is_null].
    step_by ltac:(apply get_ok; exact Hok). rewrite Hhead. cbn [is_null].
    step_by ltac:(apply (rd_Some priority _ _ _ Htn)).
    step_by ltac:(apply (rd_Some priority _ _ _ Hth)).
    rewrite Hhp'.
    step_by ltac:(reflexivity).
    step_by ltac:(exact Hwalk).
    step_by ltac:(apply (rd_Some next _ _ _ Htp)). rewrite Hpn.
    step_by ltac:(apply (rd_Some priority _ _ _ Htn)).
    step_by ltac:(apply (rd_Some priority _ _ _ Htp)).
    rewrite Hpp'. cbn [is_null NULL andb].
    step_by ltac:(apply (wr_Some _ _ p tp); exact Htp).
    step_by ltac:(apply (wr_Some _ _ new tn); sproj; now lk).
    rewrite (wr_Some _ _ new (set_prev (Some p) tn)) by (sproj; now lk).
    eexists. split; [reflexivity|].
    split; [|split; [|split]].
    + split; [okk Hok|]. split; [exact Hndn|]. sproj. split.
      * apply dll_app. split.
        -- cbn [head_or].
           apply (dll_frame (<[p := set_next (Some new) tp]> (YKTasks s))).
           { intros i Hi. assert (i <> new) by (intros ->; now apply Hn1). now lk. }
           apply (dll_set_last _ _ NULL); [exact Hdll| |exact Htp].
           apply NoDup_app in Hnd1 as (_ & Hd & _). intros Hi. apply (Hd p Hi). left.
        -- rewrite last_or_app. cbn [last_or last]. split; [|exact Logic.I].
           exists (set_next NULL (set_prev (Some p) tn)). lk. now repeat split.
      * rewrite !hd_tasks, Hhead, <- Hh. now destruct l1.
    + rewrite !hd_tasks. sproj. rewrite upd_tasks, upd_same by exact Hok. reflexivity.
    + now tc.
    + intros i Hi. pose proof (Hout i Hi).
      assert (i <> p).
      { intros ->. apply Hi. apply elem_of_app. left. apply elem_of_app. right. left. }
      sproj. now lk.
  - (* between two elements *)
    destruct (head_or_snoc l1 (c :: l2) p NULL) as (h & Hh & Hhin).
    rewrite Hh in Hhead.
    assert (Hhin' : h ∈ (l1 ++ [p]) ++ c :: l2) by (apply elem_of_app; now left).
    destruct (dll_lookup _ _ _ _ _ Hdll Hhin') as (th & Hth).
    pose proof (proj1 (Forall_forall _ _) Hlt h Hhin) as Hhp. cbn beta in Hhp.
    rewrite (prio_of_Some _ _ _ Hth) in Hhp.
    pose proof Hdll as D. apply dll_app in D as [D1 D2].
    pose proof D1 as D1'. apply dll_app in D1' as [_ [(tp & Htp & Hpp & Hpn) _]].
    pose proof D2 as [(tc & Htc & Hcp & Hcn) D2'].
    rewrite last_or_app in Hcp. cbn [last_or last] in Hcp.
    assert (Hcgt : priority tn < priority tc).
    { apply Forall_cons in Hgt as [Hc _]. now rewrite (prio_of_Some _ _ _ Htc) in Hc. }
    assert (Hcge : priority tn <= prio_of (YKTasks s) c).
    { rewrite (prio_of_Some _ _ _ Htc). lia. }
    assert (Hhp' : (priority tn <? priority th) = false) by (apply Z.ltb_ge; lia).
    assert (Hcp' : (priority tc <? priority tn) = false) by (apply Z.ltb_ge; lia).
    assert (Hpn' : p <> new) by (intros ->; apply Hn1; apply elem_of_app; right; left).
    assert (Hcn' : c <> new) by (intros ->; apply Hn2; left).
    assert (Hpc : p <> c).
    { intros ->. apply (Hdisj c); [apply elem_of_app; right; left|left]. }
    assert (Hwalk : insertPend_walk (S (length (YKTasks s))) (Some h) (Some new) s
                    = Ret (Some c) s).
    { rewrite <- Hh.
      apply (insertPend_walk_finds s _ _ _ _ tn NULL); try assumption.
      rewrite length_app in Hlen. lia. }
    unfold insertPend. cbn [is_null].
    step_by ltac:(apply get_ok; exact Hok). rewrite Hhead. cbn [is_null].
    step_by ltac:(apply (rd_Some priority _ _ _ Htn)).
    step_by ltac:(apply (rd_Some priority _ _ _ Hth)).
    rewrite Hhp'.
    step_by ltac:(reflexivity).
    step_by ltac:(exact Hwalk).
    step_by ltac:(apply (rd_Some next _ _ _ Htc)).
    step_by ltac:(apply (rd_Some priority _ _ _ Htn)).
    step_by ltac:(apply (rd_Some priority _ _ _ Htc)).
    rewrite Hcp', andb_false_r.
    step_by ltac:(apply (rd_Some prev _ _ _ Htc)).
    rewrite Hcp.
    step_by ltac:(apply (wr_Some _ _ p tp); exact Htp).
    step_by ltac:(apply (wr_Some _ _ new tn); sproj; now lk).
    step_by ltac:(apply (wr_Some _ _ c tc); sproj; now lk).
    rewrite (wr_Some _ _ new (set_prev (Some p) tn)) by (sproj; now lk).
    eexists. split; [reflexivity|].
    split; [|split; [|split]].
    + split; [okk Hok|]. split; [exact Hndn|].
      sproj. split.
      * apply dll_app. split; [|split].
        -- cbn [head_or].
           apply (dll_frame (<[p := set_next (Some new) tp]> (YKTasks s))).
           { intros i Hi.
             assert (i <> new) by (intros ->; now apply Hn1).
             assert (i <> c) by (intros ->; apply (Hdisj c Hi); left).
             destruct (decide (i = p)) as [->|]; now lk. }
           apply (dll_set_last _ _ (Some c)); [exact D1| |exact Htp].
           apply NoDup_app in Hnd1 as (_ & Hd & _). intros Hi. apply (Hd p Hi). left.
        -- rewrite last_or_app. cbn [last_or last head_or].
           exists (set_next (Some c) (set_prev (Some p) tn)). lk. now repeat split.
        -- apply (dll_frame (<[c := set_prev (Some new) tc]> (YKTasks s))).
           { intros i Hi.
             assert (i <> new) by (intros ->; now apply Hn2).
             assert (i <> p).
             { intros ->. apply (Hdisj p); [apply elem_of_app; right; left|exact Hi]. }
             destruct (decide (i = c)) as [->|]; now lk. }
           apply (dll_set_first _ (last_or (l1 ++ [p]) NULL)); [exact D2| |exact Htc].
           now apply NoDup_cons in Hnd2.
      * rewrite !hd_tasks, Hhead, <- Hh. now destruct l1.
    + rewrite !hd_tasks. sproj. rewrite upd_tasks, upd_same by exact Hok. reflexivity.
    + now tc.
    + intros i Hi. pose proof (Hout i Hi).
      assert (i <> p).
      { intros ->. apply Hi. apply elem_of_app. left. apply elem_of_app. right. left. }
      assert (i <> c).
      { intros ->. apply Hi. apply elem_of_app. right. right. left. }
      sproj. now lk.
Qed.
End PendList.

(** ** Semaphores with waiting tasks *)

Lemma bind_eq {A B : Type} (m : M A) (f : A -> M B) (s : kstate) (o : outcome A) :
  m s = o -> (x <- m ;; f x) s = obind o f.
Proof. unfold bind. now intros ->. Qed.

Section SemPend.
Variable i : nat.

Lemma sem_get_ok (s : kstate) :
  sem_ok i s -> (m <- load_sem i ;; ret (sem_pendHead m)) s = Ret (sem_head i s) s.
Proof.
  intros [m Hm]. unfold sem_head. rewrite Hm.
  now rewrite (bind_Ret _ _ _ _ _ (load_sem_Some _ _ _ Hm)).
Qed.

Lemma sem_set_ok (p : TCBPtr) (s : kstate) :
  sem_ok i s -> wr_sem (set_sem_pendHead p) i s = Ret tt (sem_set_head i p s).
Proof.
  intros [m Hm]. unfold sem_set_head. rewrite Hm. now apply wr_sem_Some.
Qed.

Lemma sem_ok_tasks (T : list TCB) (s : kstate) : sem_ok i s -> sem_ok i (with_YKTasks T s).
Proof. exact id. Qed.

Lemma sem_ok_upd (p : TCBPtr) (s : kstate) : sem_ok i s -> sem_ok i (sem_set_head i p s).
Proof.
  intros [m Hm]. unfold sem_ok, sem_set_head. rewrite Hm. cbn.
  rewrite list_lookup_insert_eq by (eapply lookup_lt_Some; eauto). eauto.
Qed.

Lemma sem_hd_tasks (T : list TCB) (s : kstate) : sem_head i (with_YKTasks T s) = sem_head i s.
Proof. reflexivity. Qed.

Lemma sem_hd_upd (p : TCBPtr) (s : kstate) : sem_ok i s -> sem_head i (sem_set_head i p s) = p.
Proof.
  intros [m Hm]. unfold sem_head, sem_set_head. rewrite Hm. cbn.
  now rewrite list_lookup_insert_eq by (eapply lookup_lt_Some; eauto).
Qed.

Lemma sem_tasks_upd (p : TCBPtr) (s : kstate) : YKTasks (sem_set_head i p s) = YKTasks s.
Proof. unfold sem_set_head. now destruct (YKSemaphores s !! i). Qed.

Lemma sem_upd_tasks (p : TCBPtr) (T : list TCB) (s : kstate) :
  sem_set_head i p (with_YKTasks T s) = with_YKTasks T (sem_set_head i p s).
Proof.
  unfold sem_set_head. cbn [YKSemaphores with_YKTasks].
  now destruct (YKSemaphores s !! i).
Qed.

Lemma sem_upd_same (s : kstate) : sem_ok i s -> sem_set_head i (sem_head i s) s = s.
Proof.
  intros [m Hm]. unfold sem_head, sem_set_head. rewrite Hm.
  rewrite list_insert_id by (destruct m; exact Hm). now destruct s.
Qed.

Lemma insertPendSem_spec (s : kstate) (l1 l2 : list nat) (new : nat) (tn : TCB) :
  pend_is (sem_ok i) (sem_head i) s (l1 ++ l2) -> new ∉ l1 ++ l2 ->
  YKTasks s !! new = Some tn ->
  Forall (fun k => prio_of (YKTasks s) k < priority tn) l1 ->
  Forall (fun k => priority tn < prio_of (YKTasks s) k) l2 ->
  exists s',
    insertPendSem (Some new) i s = Ret tt s' /\
    pend_is (sem_ok i) (sem_head i) s' (l1 ++ new :: l2) /\
    pend_relinked (sem_head i) (sem_set_head i) (l1 ++ new :: l2) s s'.
Proof.
  unfold insertPendSem.
  apply insertPend_spec;
    auto using sem_get_ok, sem_set_ok, sem_ok_tasks, sem_ok_upd, sem_hd_tasks, sem_hd_upd,
      sem_tasks_upd, sem_upd_tasks, sem_upd_same.
Qed.

Lemma removePendSem_spec (s : kstate) (h j : nat) (l : list nat) :
  pend_is (sem_ok i) (sem_head i) s (h :: j :: l) ->
  exists s',
    removePendSem i s = Ret (Some h) s' /\
    pend_is (sem_ok i) (sem_head i) s' (j :: l) /\
    node (YKTasks s') NULL h NULL /\
    pend_relinked (sem_head i) (sem_set_head i) (h :: j :: l) s s'.
Proof.
  unfold removePendSem.
  apply removePend_spec;
    auto using sem_get_ok, sem_set_ok, sem_ok_tasks, sem_ok_upd, sem_hd_tasks, sem_hd_upd,
      sem_tasks_upd, sem_upd_tasks, sem_upd_same.
Qed.
End SemPend.

Lemma sem_set_head_lookup (i : nat) (p : TCBPtr) (s : kstate) (m : YKSEM) :
  YKSemaphores s !! i = Some m ->
  YKSemaphores (sem_set_head i p s) !! i = Some (set_sem_pendHead p m).
Proof.
  intros Hm. unfold sem_set_head. rewrite Hm. cbn.
  apply list_lookup_insert_eq. eapply lookup_lt_Some; eauto.
Qed.

Lemma sem_set_head_frame (i : nat) (p : TCBPtr) (s : kstate) :
  YKReadyHead (sem_set_head i p s) = YKReadyHead s /\
  YKReadyTail (sem_set_head i p s) = YKReadyTail s /\
  YKCurrentTask (sem_set_head i p s) = YKCurrentTask s /\
  console (sem_set_head i p s) = console s /\
  intEnabled (sem_set_head i p s) = intEnabled s /\
  YKInterruptNestLevel (sem_set_head i p s) = YKInterruptNestLevel s.
Proof. unfold sem_set_head. now destruct (YKSemaphores s !! i). Qed.

(** What a call that reaches the scheduler with interrupts off does when the
    head of the ready list is not the current task. *)
Lemma blocked_in_scheduler (s' : kstate) (ie : bool) (h c : nat) (th tc : TCB) :
  intEnabled s' = false ->
  YKReadyHead s' = Some h -> YKTasks s' !! h = Some th ->
  YKCurrentTask s' = Some c -> YKTasks s' !! c = Some tc ->
  taskID th <> taskID tc ->
  (YKScheduler ;; when ie YKExitMutex) s'
  = Switch (sched_switch_state s')
      (fun s'' => Ret tt (if ie then with_intEnabled true s'' else s'')).
Proof.
  intros Hie Hh Hth Hc Htc Hne.
  pose proof (YKScheduler_cases s') as Hs.
  rewrite Hh, Hc, (load_Some _ _ _ Hth), (load_Some _ _ _ Htc) in Hs.
  apply Z.eqb_neq in Hne. rewrite Hne, Hie in Hs.
  unfold bind. rewrite Hs. cbn. now destruct ie.
Qed.

(** The steps of a blocking [YKSemPend] composed. *)
Lemma YKSemPend_spec (s : kstate) (i : nat) (m : YKSEM) (c : nat) (t : TCB)
    (r1 r2 p1 p2 : list nat) :
  YKSemaphores s !! i = Some m -> -32768 < value m <= 0 ->
  YKCurrentTask s = Some c -> YKTasks s !! c = Some t -> taskID t <> IDLE_TASK_ID ->
  ready_is s (r1 ++ c :: r2) ->
  sem_pendHead m = head_or (p1 ++ p2) NULL ->
  NoDup (p1 ++ p2) -> dll (YKTasks s) NULL (p1 ++ p2) NULL ->
  Forall (fun k => k ∉ p1 ++ p2) (r1 ++ c :: r2) ->
  Forall (fun k => prio_of (YKTasks s) k < priority t) p1 ->
  Forall (fun k => priority t < prio_of (YKTasks s) k) p2 ->
  exists s' m',
    YKSemPend i s = (YKScheduler ;; when (intEnabled s) YKExitMutex) s' /\
    ready_is s' (r1 ++ r2) /\
    YKSemaphores s' !! i = Some m' /\ value m' = value m - 1 /\
    sem_pendHead m' = head_or (p1 ++ c :: p2) NULL /\
    NoDup (p1 ++ c :: p2) /\ dll (YKTasks s') NULL (p1 ++ c :: p2) NULL /\
    YKCurrentTask s' = Some c /\ console s' = console s /\ intEnabled s' = false /\
    tcores (YKTasks s') = tcores (YKTasks s).
Proof.
  intros Hm Hv Hcur Ht Hid Hr Hph Hpnd Hpdll Hdisj Hlt Hgt.
  pose proof (proj1 (Forall_forall _ _) Hdisj) as Hdisj'. cbn beta in Hdisj'.
  assert (Hcp : c ∉ p1 ++ p2) by (apply Hdisj', elem_of_app; right; left).
  assert (Hilen : (i < length (YKSemaphores s))%nat) by (eapply lookup_lt_Some; eauto).
  set (m0 := set_value (value m - 1) m).
  set (s0 := with_YKSemaphores (<[i := m0]> (YKSemaphores s)) (with_intEnabled false s)).
  assert (Hm0 : YKSemaphores s0 !! i = Some m0).
  { unfold s0. sproj. now apply list_lookup_insert_eq. }
  (* the caller leaves the ready list *)
  destruct (removeReady_spec s0 r1 r2 c t)
    as (s1 & Hrun1 & Hr1 & Hnode1 & Hcons1 & Heq1 & Hcore1 & Hfr1);
    [exact Hr|exact Ht|exact Hid|].
  destruct Hnode1 as (t1 & Ht1 & _).
  destruct (tcores_lookup _ _ c t Hcore1 Ht) as (t1' & Ht1' & Hid1 & _ & Hpr1).
  rewrite Ht1 in Ht1'. injection Ht1' as <-.
  assert (Hfp1 : forall k, k ∈ p1 ++ p2 -> YKTasks s1 !! k = YKTasks s !! k).
  { intros k Hk. apply Hfr1. intros Hk'. now apply (Hdisj' k Hk'). }
  assert (Hm1 : YKSemaphores s1 !! i = Some m0) by (rewrite Heq1; exact Hm0).
  assert (Hp1 : pend_is (sem_ok i) (sem_head i) s1 (p1 ++ p2)).
  { split; [now exists m0|]. split; [exact Hpnd|].
    split; [now apply (dll_frame (YKTasks s))|].
    unfold sem_head. now rewrite Hm1. }
  (* and enters the pending list of the semaphore *)
  destruct (insertPendSem_spec i s1 p1 p2 c t1 Hp1 Hcp Ht1)
    as (s2 & Hrun2 & Hp2 & Heq2 & Hcore2 & Hfr2).
  { rewrite Hpr1.
    apply (Forall_prio_frame (fun p => p < priority t) (YKTasks s)); [|exact Hlt].
    intros k Hk. apply Hfp1. apply elem_of_app. now left. }
  { rewrite Hpr1.
    apply (Forall_prio_frame (fun p => priority t < p) (YKTasks s)); [|exact Hgt].
    intros k Hk. apply Hfp1. apply elem_of_app. now right. }
  destruct (sem_set_head_frame i (sem_head i s2) (with_YKTasks (YKTasks s2) s1))
    as (F1 & F2 & F3 & F4 & F5 & _).
  rewrite <- Heq2 in F1, F2, F3, F4, F5.
  assert (Hcur1 : YKCurrentTask s1 = Some c) by (rewrite Heq1; exact Hcur).
  destruct Hp2 as (_ & Hnd2 & Hdll2 & Hhd2).
  exists s2, (set_sem_pendHead (sem_head i s2) m0).
  split; [|split; [|split; [|split; [|split; [|split; [|split; [|split; [|split; [|split]]]]]]]]].
  - unfold YKSemPend.
    step_by ltac:(apply YKEnterMutex_Ret).
    step_by ltac:(apply load_sem_Some; exact Hm).
    step_by ltac:(apply wr_sem_Some; exact Hm).
    rewrite wrap_int_small by lia.
    change (with_YKSemaphores (<[i:=_]> _) _) with s0.
    replace (value m <=? 0) with true by (symmetry; apply Z.leb_le; lia).
    cbn [when].
    erewrite bind_eq; [reflexivity|].
    step_by ltac:(reflexivity).
    change (YKCurrentTask s0) with (YKCurrentTask s). rewrite Hcur.
    step_by ltac:(exact Hrun1).
    step_by ltac:(reflexivity). rewrite Hcur1.
    step_by ltac:(exact Hrun2).
    reflexivity.
  - apply (ready_is_frame s1); [exact Hr1| |exact F1|exact F2].
    intros k Hk. apply Hfr2. intros Hk'.
    destruct Hr as (Hnd & _). apply NoDup_app in Hnd as (_ & Hx & Hnd).
    apply NoDup_cons in Hnd as [Hc2 _].
    assert (Hkr : k ∈ r1 ++ c :: r2).
    { apply elem_of_app in Hk as [Hk|Hk]; apply elem_of_app; [now left|right; now right]. }
    apply elem_of_app in Hk' as [Hk'|Hk'].
    + apply (Hdisj' k Hkr). apply elem_of_app. now left.
    + apply elem_of_cons in Hk' as [->|Hk'].
      * apply elem_of_app in Hk as [Hk|Hk]; [apply (Hx c Hk); left|now apply Hc2].
      * apply (Hdisj' k Hkr). apply elem_of_app. now right.
  - pose proof (sem_set_head_lookup i (sem_head i s2) (with_YKTasks (YKTasks s2) s1) m0 Hm1)
      as H.
    now rewrite <- Heq2 in H.
  - reflexivity.
  - exact Hhd2.
  - exact Hnd2.
  - exact Hdll2.
  - now rewrite F3.
  - rewrite F4. sproj. rewrite Hcons1. reflexivity.
  - rewrite F5. sproj. rewrite Heq1. reflexivity.
  - now rewrite Hcore2, Hcore1.
Qed.

(** X13: A pend on a semaphore whose value is not positive blocks the
    caller: the value is decremented, the calling task leaves the ready
    list and enters the pending list of the semaphore at the place of its
    priority, nothing is reported, and the scheduler is called with
    interrupts off; when the head of the ready list is another task, it is
    dispatched, and the pend returns, with the interrupt flag restored, when
    the caller is resumed. *)
Theorem YKSemPend_blocks (s : kstate) (i : nat) (m : YKSEM) (c : nat) (t : TCB)
    (r1 r2 p1 p2 : list nat) :
  YKSemaphores s !! i = Some m -> -32768 < value m <= 0 ->
  YKCurrentTask s = Some c -> YKTasks s !! c = Some t -> taskID t <> IDLE_TASK_ID ->
  ready_is s (r1 ++ c :: r2) ->
  sem_pendHead m = head_or (p1 ++ p2) NULL ->
  NoDup (p1 ++ p2) -> dll (YKTasks s) NULL (p1 ++ p2) NULL ->
  Forall (fun k => k ∉ p1 ++ p2) (r1 ++ c :: r2) ->
  Forall (fun k => prio_of (YKTasks s) k < priority t) p1 ->
  Forall (fun k => priority t < prio_of (YKTasks s) k) p2 ->
  exists s' m',
    YKSemPend i s = (YKScheduler ;; when (intEnabled s) YKExitMutex) s' /\
    ready_is s' (r1 ++ r2) /\
    YKSemaphores s' !! i = Some m' /\ value m' = value m - 1 /\
    sem_pendHead m' = head_or (p1 ++ c :: p2) NULL /\
    NoDup (p1 ++ c :: p2) /\ dll (YKTasks s') NULL (p1 ++ c :: p2) NULL /\
    YKCurrentTask s' = Some c /\ console s' = console s /\ intEnabled s' = false /\
    tcores (YKTasks s') = tcores (YKTasks s) /\
    (forall h th, head_or (r1 ++ r2) NULL = Some h -> YKTasks s !! h = Some th ->
                  taskID th <> taskID t ->
                  YKSemPend i s
                  = Switch (sched_switch_state s')
                      (fun s'' => Ret tt (if intEnabled s then with_intEnabled true s''
                                          else s''))).
Proof.
  intros Hm Hv Hcur Ht Hid Hr Hph Hpnd Hpdll Hdisj Hlt Hgt.
  destruct (YKSemPend_spec s i m c t r1 r2 p1 p2) as
    (s' & m' & Hrun & Hr' & Hm' & Hv' & Hph' & Hnd' & Hdll' & Hcur' & Hcons & Hie & Hcore);
    try assumption.
  exists s', m'. do 11 (split; [assumption|]).
  intros h th Hh Hth Hne. rewrite Hrun.
  destruct (tcores_lookup _ _ h th Hcore Hth) as (th' & Hth' & Hidh & _).
  destruct (tcores_lookup _ _ c t Hcore Ht) as (t' & Ht' & Hidc & _).
  destruct Hr' as (_ & _ & Hhead & _). rewrite Hh in Hhead.
  apply (blocked_in_scheduler s' (intEnabled s) h c th' t'); try assumption.
  congruence.
Qed.

(** The second of two tasks pends on a semaphore on which the first one
    waits, and the idle task is dispatched. *)
Lemma YKSemPend_blocks_witness :
  exists s' m',
    switched (YKSemPend 0%nat sem_one_waiter) = Some (sched_switch_state s') /\
    ready_is s' [0%nat] /\
    YKSemaphores s' !! 0%nat = Some m' /\ value m' = -2 /\
    sem_pendHead m' = Some 1%nat /\
    dll (YKTasks s') NULL [1%nat; 2%nat] NULL.
Proof.
  destruct (YKSemPend_blocks sem_one_waiter 0%nat (mkSEM (-1) (Some 1%nat)) 2%nat
              (mkTCB 2 0 20 (Some 0%nat) NULL) [] [0%nat] [1%nat] [])
    as (s' & m' & _ & H2 & H3 & H4 & H5 & _ & H7 & _ & _ & _ & _ & H11).
  - vm_compute. reflexivity.
  - cbn. lia.
  - vm_compute. reflexivity.
  - vm_compute. reflexivity.
  - vm_compute. discriminate.
  - apply ready_isb_correct. vm_compute. reflexivity.
  - reflexivity.
  - apply (bool_decide_unpack _). vm_compute. exact Logic.I.
  - apply dllb_correct. vm_compute. reflexivity.
  - apply (bool_decide_unpack _). vm_compute. exact Logic.I.
  - apply (bool_decide_unpack _). vm_compute. exact Logic.I.
  - apply Forall_nil_2.
  - exists s', m'.
    assert (Hsw : switched (YKSemPend 0%nat sem_one_waiter) = Some (sched_switch_state s')).
    { rewrite (H11 0%nat (mkTCB 0 0 100 NULL (Some 2%nat)));
        [reflexivity|reflexivity|vm_compute; reflexivity|vm_compute; discriminate]. }
    exact (conj Hsw (conj H2 (conj H3 (conj H4 (conj H5 H7))))).
Defined.

(** X14: A post to a semaphore on which at least two tasks wait readies the
    first of them, the one of highest priority: the value is incremented,
    the task leaves the pending list, whose head becomes the next waiter,
    and enters the ready list at the place of its priority.  In an
    interrupt the call then returns with the interrupt flag restored; in a
    task it calls the scheduler. *)
Theorem YKSemPost_wakes_first_waiter (s : kstate) (i : nat) (m : YKSEM) (h j : nat)
    (p : list nat) (th : TCB) (r1 r2 : list nat) :
  YKSemaphores s !! i = Some m -> -32768 <= value m < 0 ->
  sem_pendHead m = Some h ->
  NoDup (h :: j :: p) -> dll (YKTasks s) NULL (h :: j :: p) NULL ->
  YKTasks s !! h = Some th ->
  ready_is s (r1 ++ r2) ->
  Forall (fun k => k ∉ h :: j :: p) (r1 ++ r2) ->
  Forall (fun k => prio_of (YKTasks s) k < priority th) r1 ->
  Forall (fun k => priority th < prio_of (YKTasks s) k) r2 ->
  exists s' m',
    (YKInterruptNestLevel s <> 0 ->
     YKSemPost i s = Ret tt (with_intEnabled (intEnabled s) s')) /\
    (YKInterruptNestLevel s = 0 ->
     YKSemPost i s = (YKScheduler ;; when (intEnabled s) YKExitMutex) s') /\
    ready_is s' (r1 ++ h :: r2) /\
    YKSemaphores s' !! i = Some m' /\ value m' = value m + 1 /\
    sem_pendHead m' = Some j /\
    dll (YKTasks s') NULL (j :: p) NULL /\
    intEnabled s' = false /\ YKCurrentTask s' = YKCurrentTask s /\
    tcores (YKTasks s') = tcores (YKTasks s).
Proof.
  intros Hm Hv Hph Hpnd Hpdll Hth Hr Hdisj Hlt Hgt.
  pose proof (proj1 (Forall_forall _ _) Hdisj) as Hdisj'. cbn beta in Hdisj'.
  assert (Hilen : (i < length (YKSemaphores s))%nat) by (eapply lookup_lt_Some; eauto).
  set (m0 := set_value (value m + 1) m).
  set (s0 := with_YKSemaphores (<[i := m0]> (YKSemaphores s)) (with_intEnabled false s)).
  assert (Hm0 : YKSemaphores s0 !! i = Some m0).
  { unfold s0. sproj. now apply list_lookup_insert_eq. }
  assert (Hp0 : pend_is (sem_ok i) (sem_head i) s0 (h :: j :: p)).
  { split; [now exists m0|]. split; [exact Hpnd|]. split; [exact Hpdll|].
    unfold sem_head. now rewrite Hm0. }
  (* the first waiter leaves the pending list *)
  destruct (removePendSem_spec i s0 h j p Hp0)
    as (s1 & Hrun1 & Hp1 & Hnode1 & Heq1 & Hcore1 & Hfr1).
  destruct (sem_set_head_frame i (sem_head i s1) (with_YKTasks (YKTasks s1) s0))
    as (F1 & F2 & F3 & F4 & F5 & F6).
  rewrite <- Heq1 in F1, F2, F3, F4, F5, F6.
  destruct (tcores_lookup _ _ h th Hcore1 Hth) as (th1 & Hth1 & _ & _ & Hpr1).
  assert (Hfr1' : forall k, k ∈ r1 ++ r2 -> YKTasks s1 !! k = YKTasks s !! k).
  { intros k Hk. apply Hfr1. now apply Hdisj'. }
  assert (Hr1 : ready_is s1 (r1 ++ r2)) by (now apply (ready_is_frame s)).
  assert (Hhr : h ∉ r1 ++ r2).
  { intros Hk. apply (Hdisj' h Hk). left. }
  (* and enters the ready list *)
  destruct (insertReady_spec s1 r1 r2 h th1 Hr1 Hhr Hth1)
    as (s2 & Hrun2 & Hr2 & _ & Heq2 & Hcore2 & Hfr2).
  { rewrite Hpr1.
    apply (Forall_prio_frame (fun q => q < priority th) (YKTasks s)); [|exact Hlt].
    intros k Hk. apply Hfr1'. apply elem_of_app. now left. }
  { rewrite Hpr1.
    apply (Forall_prio_frame (fun q => priority th < q) (YKTasks s)); [|exact Hgt].
    intros k Hk. apply Hfr1'. apply elem_of_app. now right. }
  assert (Hm1 : YKSemaphores s1 !! i = Some (set_sem_pendHead (sem_head i s1) m0)).
  { pose proof (sem_set_head_lookup i (sem_head i s1) (with_YKTasks (YKTasks s1) s0) m0 Hm0)
      as H.
    now rewrite <- Heq1 in H. }
  destruct Hp1 as (_ & Hnd1 & Hdll1 & Hhd1). cbn [head_or] in Hhd1.
  assert (Hie2 : intEnabled s2 = false).
  { rewrite Heq2. sproj. rewrite F5. reflexivity. }
  assert (Hnest2 : YKInterruptNestLevel s2 = YKInterruptNestLevel s).
  { rewrite Heq2. sproj. rewrite F6. reflexivity. }
  assert (Hbody :
            YKSemPost i s
            = obind ((nest <- gets YKInterruptNestLevel ;; when (nest =? 0) YKScheduler) s2)
                (fun _ => when (intEnabled s) YKExitMutex)).
  { unfold YKSemPost.
    step_by ltac:(apply YKEnterMutex_Ret).
    step_by ltac:(apply load_sem_Some; exact Hm).
    step_by ltac:(apply wr_sem_Some; exact Hm).
    rewrite wrap_int_small by lia.
    change (with_YKSemaphores (<[i:=_]> _) _) with s0.
    replace (value m <? 0) with true by (symmetry; apply Z.ltb_lt; lia).
    cbn [when].
    erewrite bind_eq; [reflexivity|].
    step_by ltac:(exact Hrun1).
    step_by ltac:(exact Hrun2).
    reflexivity. }
  exists s2, (set_sem_pendHead (sem_head i s1) m0).
  split; [|split; [|split; [|split; [|split; [|split; [|split; [|split; [|split]]]]]]]].
  - intros Hn. rewrite Hbody. apply Z.eqb_neq in Hn.
    unfold bind, gets. cbn [obind]. rewrite Hnest2, Hn. cbn [when ret obind].
    destruct (intEnabled s); [reflexivity|].
    cbn. rewrite <- Hie2. now rewrite with_intEnabled_same.
  - intros Hn. rewrite Hbody.
    unfold bind at 1 2, gets. cbn [obind]. rewrite Hnest2, Hn. reflexivity.
  - exact Hr2.
  - rewrite Heq2. sproj. exact Hm1.
  - reflexivity.
  - exact Hhd1.
  - apply (dll_frame (YKTasks s1)); [|exact Hdll1].
    intros k Hk. apply Hfr2. intros Hk'.
    apply NoDup_cons in Hpnd as [Hh _].
    apply elem_of_app in Hk' as [Hk'|Hk'].
    + apply (Hdisj' k); [apply elem_of_app; now left|now right].
    + apply elem_of_cons in Hk' as [->|Hk']; [now apply Hh|].
      apply (Hdisj' k); [apply elem_of_app; now right|now right].
  - exact Hie2.
  - rewrite Heq2. sproj. rewrite F3. reflexivity.
  - now rewrite Hcore2, Hcore1.
Qed.

(** The idle task posts the semaphore on which two tasks wait: the task of
    priority 10 is readied. *)
Lemma YKSemPost_wakes_first_waiter_witness :
  exists s' m',
    YKSemPost 0%nat sem_two_waiters
    = (YKScheduler ;; when (intEnabled sem_two_waiters) YKExitMutex) s' /\
    ready_is s' [1%nat; 0%nat] /\
    YKSemaphores s' !! 0%nat = Some m' /\ value m' = -1 /\
    sem_pendHead m' = Some 2%nat.
Proof.
  destruct (YKSemPost_wakes_first_waiter sem_two_waiters 0%nat (mkSEM (-2) (Some 1%nat))
              1%nat 2%nat [] (mkTCB 1 0 10 (Some 2%nat) NULL) [] [0%nat])
    as (s' & m' & _ & H2 & H3 & H4 & H5 & H6 & _).
  - vm_compute. reflexivity.
  - cbn. lia.
  - reflexivity.
  - apply (bool_decide_unpack _). vm_compute. exact Logic.I.
  - apply dllb_correct. vm_compute. reflexivity.
  - vm_compute. reflexivity.
  - apply ready_isb_correct. vm_compute. reflexivity.
  - apply (bool_decide_unpack _). vm_compute. exact Logic.I.
  - apply Forall_nil_2.
  - apply (bool_decide_unpack _). vm_compute. exact Logic.I.
  - exists s', m'.
    assert (Hn : YKInterruptNestLevel sem_two_waiters = 0) by (vm_compute; reflexivity).
    exact (conj (H2 Hn) (conj H3 (conj H4 (conj H5 H6)))).
Defined.

(** ** Queues with waiting tasks *)

Section QPend.
Variable i : nat.

Lemma q_get_ok (s : kstate) :
  q_ok i s -> (q <- load_q i ;; ret (q_pendHead q)) s = Ret (q_head i s) s.
Proof.
  intros [q Hq]. unfold q_head. rewrite Hq.
  now rewrite (bind_Ret _ _ _ _ _ (load_q_Some _ _ _ Hq)).
Qed.

Lemma q_set_ok (p : TCBPtr) (s : kstate) :
  q_ok i s -> wr_q (set_q_pendHead p) i s = Ret tt (q_set_head i p s).
Proof.
  intros [q Hq]. unfold q_set_head. rewrite Hq. now apply wr_q_Some.
Qed.

Lemma q_ok_tasks (T : list TCB) (s : kstate) : q_ok i s -> q_ok i (with_YKTasks T s).
Proof. exact id. Qed.

Lemma q_ok_upd (p : TCBPtr) (s : kstate) : q_ok i s -> q_ok i (q_set_head i p s).
Proof.
  intros [q Hq]. unfold q_ok, q_set_head. rewrite Hq. cbn.
  rewrite list_lookup_insert_eq by (eapply lookup_lt_Some; eauto). eauto.
Qed.

Lemma q_hd_tasks (T : list TCB) (s : kstate) : q_head i (with_YKTasks T s) = q_head i s.
Proof. reflexivity. Qed.

Lemma q_hd_upd (p : TCBPtr) (s : kstate) : q_ok i s -> q_head i (q_set_head i p s) = p.
Proof.
  intros [q Hq]. unfold q_head, q_set_head. rewrite Hq. cbn.
  now rewrite list_lookup_insert_eq by (eapply lookup_lt_Some; eauto).
Qed.

Lemma q_tasks_upd (p : TCBPtr) (s : kstate) : YKTasks (q_set_head i p s) = YKTasks s.
Proof. unfold q_set_head. now destruct (YKQueues s !! i). Qed.

Lemma q_upd_tasks (p : TCBPtr) (T : list TCB) (s : kstate) :
  q_set_head i p (with_YKTasks T s) = with_YKTasks T (q_set_head i p s).
Proof.
  unfold q_set_head. cbn [YKQueues with_YKTasks].
  now destruct (YKQueues s !! i).
Qed.

Lemma q_upd_same (s : kstate) : q_ok i s -> q_set_head i (q_head i s) s = s.
Proof.
  intros [q Hq]. unfold q_head, q_set_head. rewrite Hq.
  rewrite list_insert_id by (destruct q; exact Hq). now destruct s.
Qed.

Lemma insertPendQ_spec (s : kstate) (l1 l2 : list nat) (new : nat) (tn : TCB) :
  pend_is (q_ok i) (q_head i) s (l1 ++ l2) -> new ∉ l1 ++ l2 ->
  YKTasks s !! new = Some tn ->
  Forall (fun k => prio_of (YKTasks s) k < priority tn) l1 ->
  Forall (fun k => priority tn < prio_of (YKTasks s) k) l2 ->
  exists s',
    insertPendQ (Some new) i s = Ret tt s' /\
    pend_is (q_ok i) (q_head i) s' (l1 ++ new :: l2) /\
    pend_relinked (q_head i) (q_set_head i) (l1 ++ new :: l2) s s'.
Proof.
  unfold insertPendQ.
  apply insertPend_spec;
    auto using q_get_ok, q_set_ok, q_ok_tasks, q_ok_upd, q_hd_tasks, q_hd_upd,
      q_tasks_upd, q_upd_tasks, q_upd_same.
Qed.

Lemma removePendQ_spec (s : kstate) (h j : nat) (l : list nat) :
  pend_is (q_ok i) (q_head i) s (h :: j :: l) ->
  exists s',
    removePendQ i s = Ret (Some h) s' /\
    pend_is (q_ok i) (q_head i) s' (j :: l) /\
    node (YKTasks s') NULL h NULL /\
    pend_relinked (q_head i) (q_set_head i) (h :: j :: l) s s'.
Proof.
  unfold removePendQ.
  apply removePend_spec;
    auto using q_get_ok, q_set_ok, q_ok_tasks, q_ok_upd, q_hd_tasks, q_hd_upd,
      q_tasks_upd, q_upd_tasks, q_upd_same.
Qed.
End QPend.

Lemma q_set_head_lookup (i : nat) (p : TCBPtr) (s : kstate) (q : YKQ) :
  YKQueues s !! i = Some q ->
  YKQueues (q_set_head i p s) !! i = Some (set_q_pendHead p q).
Proof.
  intros Hq. unfold q_set_head. rewrite Hq. cbn.
  apply list_lookup_insert_eq. eapply lookup_lt_Some; eauto.
Qed.

Lemma q_set_head_frame (i : nat) (p : TCBPtr) (s : kstate) :
  YKReadyHead (q_set_head i p s) = YKReadyHead s /\
  YKReadyTail (q_set_head i p s) = YKReadyTail s /\
  YKCurrentTask (q_set_head i p s) = YKCurrentTask s /\
  console (q_set_head i p s) = console s /\
  intEnabled (q_set_head i p s) = intEnabled s /\
  YKInterruptNestLevel (q_set_head i p s) = YKInterruptNestLevel s /\
  msgmem (q_set_head i p s) = msgmem s.
Proof. unfold q_set_head. now destruct (YKQueues s !! i). Qed.

(** The message taken is the one at the read position, whether or not the
    queue holds any. *)
Lemma pend_take_Ret (i : nat) (ie : bool) (s : kstate) (q : YKQ) :
  YKQueues s !! i = Some q ->
  pend_take i ie s
  = Ret (msgmem s (nextMsg q))
      (if ie then with_intEnabled true (taken i q s) else taken i q s).
Proof.
  intros Hq.
  assert (Hlen : (i < length (YKQueues s))%nat) by (eapply lookup_lt_Some; eauto).
  unfold pend_take, taken, q_take.
  step_by ltac:(apply load_q_Some; exact Hq).
  step_by ltac:(reflexivity).
  destruct (nextMsg q =? q_end q);
    (step_by ltac:(apply wr_q_Some; exact Hq);
     step_by ltac:(apply load_q_Some; cbn; apply list_lookup_insert_eq; exact Hlen);
     step_by ltac:(apply wr_q_Some; cbn; apply list_lookup_insert_eq; exact Hlen);
     cbn; rewrite list_insert_insert_eq; now destruct ie).
Qed.

(** X15: A pend on a queue that holds no message blocks the caller: the
    calling task leaves the ready list and enters the pending list of the
    queue at the place of its priority, and the scheduler is called with
    interrupts off.  When the head of the ready list is another task, it is
    dispatched; when the caller is resumed, the call returns the message at
    the read position of the queue as it is then, and takes it from the
    queue. *)
Theorem YKQPend_blocks (s : kstate) (i : nat) (q : YKQ) (c : nat) (t : TCB)
    (r1 r2 p1 p2 : list nat) :
  YKQueues s !! i = Some q -> numEntries q = 0 ->
  YKCurrentTask s = Some c -> YKTasks s !! c = Some t -> taskID t <> IDLE_TASK_ID ->
  ready_is s (r1 ++ c :: r2) ->
  q_pendHead q = head_or (p1 ++ p2) NULL ->
  NoDup (p1 ++ p2) -> dll (YKTasks s) NULL (p1 ++ p2) NULL ->
  Forall (fun k => k ∉ p1 ++ p2) (r1 ++ c :: r2) ->
  Forall (fun k => prio_of (YKTasks s) k < priority t) p1 ->
  Forall (fun k => priority t < prio_of (YKTasks s) k) p2 ->
  exists s',
    YKQPend i s = (YKScheduler ;; pend_take i (intEnabled s)) s' /\
    ready_is s' (r1 ++ r2) /\
    YKQueues s' !! i = Some (set_q_pendHead (head_or (p1 ++ c :: p2) NULL) q) /\
    NoDup (p1 ++ c :: p2) /\ dll (YKTasks s') NULL (p1 ++ c :: p2) NULL /\
    YKCurrentTask s' = Some c /\ console s' = console s /\ intEnabled s' = false /\
    msgmem s' = msgmem s /\
    tcores (YKTasks s') = tcores (YKTasks s) /\
    (forall h th, head_or (r1 ++ r2) NULL = Some h -> YKTasks s !! h = Some th ->
                  taskID th <> taskID t ->
                  switched (YKQPend i s) = Some (sched_switch_state s') /\
                  forall s'' q'', YKQueues s'' !! i = Some q'' ->
                    resume (YKQPend i s) s''
                    = Ret (msgmem s'' (nextMsg q''))
                        (if intEnabled s then with_intEnabled true (taken i q'' s'')
                         else taken i q'' s'')).
Proof.
  intros Hq Hn Hcur Ht Hid Hr Hph Hpnd Hpdll Hdisj Hlt Hgt.
  pose proof (proj1 (Forall_forall _ _) Hdisj) as Hdisj'. cbn beta in Hdisj'.
  assert (Hcp : c ∉ p1 ++ p2) by (apply Hdisj', elem_of_app; right; left).
  set (s0 := with_intEnabled false s).
  (* the caller leaves the ready list *)
  destruct (removeReady_spec s0 r1 r2 c t)
    as (s1 & Hrun1 & Hr1 & Hnode1 & Hcons1 & Heq1 & Hcore1 & Hfr1);
    [exact Hr|exact Ht|exact Hid|].
  destruct Hnode1 as (t1 & Ht1 & _).
  destruct (tcores_lookup _ _ c t Hcore1 Ht) as (t1' & Ht1' & Hid1 & _ & Hpr1).
  rewrite Ht1 in Ht1'. injection Ht1' as <-.
  assert (Hfp1 : forall k, k ∈ p1 ++ p2 -> YKTasks s1 !! k = YKTasks s !! k).
  { intros k Hk. apply Hfr1. intros Hk'. now apply (Hdisj' k Hk'). }
  assert (Hq1 : YKQueues s1 !! i = Some q) by (rewrite Heq1; exact Hq).
  assert (Hp1 : pend_is (q_ok i) (q_head i) s1 (p1 ++ p2)).
  { split; [now exists q|]. split; [exact Hpnd|].
    split; [now apply (dll_frame (YKTasks s))|].
    unfold q_head. now rewrite Hq1. }
  (* and enters the pending list of the queue *)
  destruct (insertPendQ_spec i s1 p1 p2 c t1 Hp1 Hcp Ht1)
    as (s2 & Hrun2 & Hp2 & Heq2 & Hcore2 & Hfr2).
  { rewrite Hpr1.
    apply (Forall_prio_frame (fun p => p < priority t) (YKTasks s)); [|exact Hlt].
    intros k Hk. apply Hfp1. apply elem_of_app. now left. }
  { rewrite Hpr1.
    apply (Forall_prio_frame (fun p => priority t < p) (YKTasks s)); [|exact Hgt].
    intros k Hk. apply Hfp1. apply elem_of_app. now right. }
  destruct (q_set_head_frame i (q_head i s2) (with_YKTasks (YKTasks s2) s1))
    as (F1 & F2 & F3 & F4 & F5 & _ & F7).
  rewrite <- Heq2 in F1, F2, F3, F4, F5, F7.
  assert (Hcur1 : YKCurrentTask s1 = Some c) by (rewrite Heq1; exact Hcur).
  destruct Hp2 as (_ & Hnd2 & Hdll2 & Hhd2).
  assert (Hie2 : intEnabled s2 = false) by (rewrite F5; sproj; rewrite Heq1; reflexivity).
  assert (Hcore : tcores (YKTasks s2) = tcores (YKTasks s)) by now rewrite Hcore2, Hcore1.
  assert (Hrun : YKQPend i s = (YKScheduler ;; pend_take i (intEnabled s)) s2).
  { unfold YKQPend.
    step_by ltac:(apply YKEnterMutex_Ret).
    step_by ltac:(apply load_q_Some; exact Hq).
    replace (numEntries q =? 0) with true by (symmetry; apply Z.eqb_eq; exact Hn).
    cbn [when].
    erewrite bind_eq; [reflexivity|].
    step_by ltac:(reflexivity).
    change (YKCurrentTask (with_intEnabled false s)) with (YKCurrentTask s). rewrite Hcur.
    step_by ltac:(exact Hrun1).
    step_by ltac:(reflexivity). rewrite Hcur1.
    step_by ltac:(exact Hrun2).
    reflexivity. }
  exists s2.
  split; [exact Hrun|].
  split; [|split; [|split; [|split; [|split; [|split; [|split; [|split; [|split]]]]]]]].
  - apply (ready_is_frame s1); [exact Hr1| |exact F1|exact F2].
    intros k Hk. apply Hfr2. intros Hk'.
    destruct Hr as (Hnd & _). apply NoDup_app in Hnd as (_ & Hx & Hnd).
    apply NoDup_cons in Hnd as [Hc2 _].
    assert (Hkr : k ∈ r1 ++ c :: r2).
    { apply elem_of_app in Hk as [Hk|Hk]; apply elem_of_app; [now left|right; now right]. }
    apply elem_of_app in Hk' as [Hk'|Hk'].
    + apply (Hdisj' k Hkr). apply elem_of_app. now left.
    + apply elem_of_cons in Hk' as [->|Hk'].
      * apply elem_of_app in Hk as [Hk|Hk]; [apply (Hx c Hk); left|now apply Hc2].
      * apply (Hdisj' k Hkr). apply elem_of_app. now right.
  - pose proof (q_set_head_lookup i (q_head i s2) (with_YKTasks (YKTasks s2) s1) q Hq1) as H.
    rewrite <- Heq2 in H. now rewrite Hhd2 in H.
  - exact Hnd2.
  - exact Hdll2.
  - now rewrite F3.
  - rewrite F4. sproj. rewrite Hcons1. reflexivity.
  - exact Hie2.
  - rewrite F7. sproj. rewrite Heq1. reflexivity.
  - exact Hcore.
  - intros h th Hh Hth Hne.
    destruct (tcores_lookup _ _ h th Hcore Hth) as (th' & Hth' & Hidh & _).
    destruct (tcores_lookup _ _ c t Hcore Ht) as (t' & Ht' & Hidc & _).
    assert (Hhead : YKReadyHead s2 = Some h).
    { rewrite F1. sproj. destruct Hr1 as (_ & _ & Hhead & _). now rewrite Hhead. }
    pose proof (YKScheduler_cases s2) as Hs.
    assert (Hcur2 : YKCurrentTask s2 = Some c) by (rewrite F3; exact Hcur1).
    rewrite Hhead, Hcur2 in Hs.
    rewrite (load_Some _ _ _ Hth'), (load_Some _ _ _ Ht') in Hs.
    replace (taskID th' =? taskID t') with false in Hs
      by (symmetry; apply Z.eqb_neq; congruence).
    rewrite Hie2 in Hs.
    rewrite Hrun. unfold bind. rewrite Hs. cbn [obind switched resume].
    split; [reflexivity|].
    intros s'' q'' Hq''. cbn. now apply pend_take_Ret.
Qed.

(** The second of two tasks pends on the empty queue on which the first one
    waits, and the idle task is dispatched. *)
Lemma YKQPend_blocks_witness :
  exists s',
    switched (YKQPend 0%nat q_one_waiter) = Some (sched_switch_state s') /\
    ready_is s' [0%nat] /\
    YKQueues s' !! 0%nat = Some (mkQ 0 4 1000 1003 1000 1000 (Some 1%nat)) /\
    dll (YKTasks s') NULL [1%nat; 2%nat] NULL.
Proof.
  destruct (YKQPend_blocks q_one_waiter 0%nat (mkQ 0 4 1000 1003 1000 1000 (Some 1%nat))
              2%nat (mkTCB 2 0 20 (Some 0%nat) NULL) [] [0%nat] [1%nat] [])
    as (s' & _ & H2 & H3 & _ & H5 & _ & _ & _ & _ & _ & H11).
  - vm_compute. reflexivity.
  - reflexivity.
  - vm_compute. reflexivity.
  - vm_compute. reflexivity.
  - vm_compute. discriminate.
  - apply ready_isb_correct. vm_compute. reflexivity.
  - reflexivity.
  - apply (bool_decide_unpack _). vm_compute. exact Logic.I.
  - apply dllb_correct. vm_compute. reflexivity.
  - apply (bool_decide_unpack _). vm_compute. exact Logic.I.
  - apply (bool_decide_unpack _). vm_compute. exact Logic.I.
  - apply Forall_nil_2.
  - exists s'.
    destruct (H11 0%nat (mkTCB 0 0 100 NULL (Some 2%nat))) as [Hsw _];
      [reflexivity|vm_compute; reflexivity|vm_compute; discriminate|].
    exact (conj Hsw (conj H2 (conj H3 H5))).
Defined.

(** X16: A post to a queue that is not full and on which at least two tasks
    wait stores the message and readies the first waiter, the one of highest
    priority: the task leaves the pending list, whose head becomes the next
    waiter, and enters the ready list at the place of its priority.  In an
    interrupt the call then returns 1 with the interrupt flag restored; in a
    task it calls the scheduler. *)
Theorem YKQPost_wakes_first_waiter (s : kstate) (i : nat) (q : YKQ) (msg : Z) (h j : nat)
    (p : list nat) (th : TCB) (r1 r2 : list nat) :
  YKQueues s !! i = Some q -> numEntries q < maxEntries q ->
  q_pendHead q = Some h ->
  NoDup (h :: j :: p) -> dll (YKTasks s) NULL (h :: j :: p) NULL ->
  YKTasks s !! h = Some th ->
  ready_is s (r1 ++ r2) ->
  Forall (fun k => k ∉ h :: j :: p) (r1 ++ r2) ->
  Forall (fun k => prio_of (YKTasks s) k < priority th) r1 ->
  Forall (fun k => priority th < prio_of (YKTasks s) k) r2 ->
  exists s',
    (YKInterruptNestLevel s <> 0 ->
     YKQPost i msg s = Ret 1 (with_intEnabled (intEnabled s) s')) /\
    (YKInterruptNestLevel s = 0 ->
     YKQPost i msg s = (YKScheduler ;; when (intEnabled s) YKExitMutex ;; ret 1) s') /\
    ready_is s' (r1 ++ h :: r2) /\
    YKQueues s' !! i = Some (set_q_pendHead (Some j) (q_put q)) /\
    msgmem s' (nextSlot q) = msg /\
    dll (YKTasks s') NULL (j :: p) NULL /\
    intEnabled s' = false /\ YKCurrentTask s' = YKCurrentTask s /\
    tcores (YKTasks s') = tcores (YKTasks s).
Proof.
  intros Hq Hfull Hph Hpnd Hpdll Hth Hr Hdisj Hlt Hgt.
  pose proof (proj1 (Forall_forall _ _) Hdisj) as Hdisj'. cbn beta in Hdisj'.
  set (s0 := with_intEnabled false (posted i q msg s)).
  assert (Hq0 : YKQueues s0 !! i = Some (q_put q)) by (now apply posted_lookup).
  assert (Hp0 : pend_is (q_ok i) (q_head i) s0 (h :: j :: p)).
  { split; [now exists (q_put q)|]. split; [exact Hpnd|]. split; [exact Hpdll|].
    unfold q_head. now rewrite Hq0. }
  (* the first waiter leaves the pending list *)
  destruct (removePendQ_spec i s0 h j p Hp0)
    as (s1 & Hrun1 & Hp1 & Hnode1 & Heq1 & Hcore1 & Hfr1).
  destruct (q_set_head_frame i (q_head i s1) (with_YKTasks (YKTasks s1) s0))
    as (F1 & F2 & F3 & F4 & F5 & F6 & F7).
  rewrite <- Heq1 in F1, F2, F3, F4, F5, F6, F7.
  destruct (tcores_lookup _ _ h th Hcore1 Hth) as (th1 & Hth1 & _ & _ & Hpr1).
  assert (Hfr1' : forall k, k ∈ r1 ++ r2 -> YKTasks s1 !! k = YKTasks s !! k).
  { intros k Hk. apply Hfr1. now apply Hdisj'. }
  assert (Hr1 : ready_is s1 (r1 ++ r2)) by (now apply (ready_is_frame s)).
  assert (Hhr : h ∉ r1 ++ r2).
  { intros Hk. apply (Hdisj' h Hk). left. }
  (* and enters the ready list *)
  destruct (insertReady_spec s1 r1 r2 h th1 Hr1 Hhr Hth1)
    as (s2 & Hrun2 & Hr2 & _ & Heq2 & Hcore2 & Hfr2).
  { rewrite Hpr1.
    apply (Forall_prio_frame (fun x => x < priority th) (YKTasks s)); [|exact Hlt].
    intros k Hk. apply Hfr1'. apply elem_of_app. now left. }
  { rewrite Hpr1.
    apply (Forall_prio_frame (fun x => priority th < x) (YKTasks s)); [|exact Hgt].
    intros k Hk. apply Hfr1'. apply elem_of_app. now right. }
  assert (Hq1 : YKQueues s1 !! i = Some (set_q_pendHead (q_head i s1) (q_put q))).
  { pose proof (q_set_head_lookup i (q_head i s1) (with_YKTasks (YKTasks s1) s0) _ Hq0) as H.
    now rewrite <- Heq1 in H. }
  destruct Hp1 as (_ & Hnd1 & Hdll1 & Hhd1). cbn [head_or] in Hhd1.
  rewrite Hhd1 in Hq1.
  assert (Hie2 : intEnabled s2 = false).
  { rewrite Heq2. sproj. rewrite F5. reflexivity. }
  assert (Hnest2 : YKInterruptNestLevel s2 = YKInterruptNestLevel s).
  { rewrite Heq2. sproj. rewrite F6. reflexivity. }
  assert (Hbody :
            YKQPost i msg s
            = obind ((nest <- gets YKInterruptNestLevel ;; when (nest =? 0) YKScheduler) s2)
                (fun _ => when (intEnabled s) YKExitMutex ;; ret 1)).
  { rewrite (YKQPost_not_full s i q msg Hq Hfull). fold s0. unfold post_wake.
    step_by ltac:(apply load_q_Some; exact Hq0).
    replace (q_pendHead (q_put q)) with (Some h) by (symmetry; exact Hph).
    cbn [is_null negb when].
    erewrite bind_eq; [reflexivity|].
    step_by ltac:(exact Hrun1).
    step_by ltac:(exact Hrun2).
    reflexivity. }
  exists s2.
  split; [|split; [|split; [|split; [|split; [|split; [|split; [|split]]]]]]].
  - intros Hn. rewrite Hbody. apply Z.eqb_neq in Hn.
    unfold bind at 1, gets. cbn [obind]. rewrite Hnest2, Hn. cbn [when ret obind].
    destruct (intEnabled s); [reflexivity|].
    cbn. rewrite <- Hie2. now rewrite with_intEnabled_same.
  - intros Hn. rewrite Hbody.
    unfold bind at 1 2, gets. cbn [obind]. rewrite Hnest2, Hn. reflexivity.
  - exact Hr2.
  - rewrite Heq2. sproj. exact Hq1.
  - rewrite Heq2. sproj. rewrite F7. unfold s0, posted. sproj. now rewrite Z.eqb_refl.
  - apply (dll_frame (YKTasks s1)); [|exact Hdll1].
    intros k Hk. apply Hfr2. intros Hk'.
    apply NoDup_cons in Hpnd as [Hh _].
    apply elem_of_app in Hk' as [Hk'|Hk'].
    + apply (Hdisj' k); [apply elem_of_app; now left|now right].
    + apply elem_of_cons in Hk' as [->|Hk']; [now apply Hh|].
      apply (Hdisj' k); [apply elem_of_app; now right|now right].
  - exact Hie2.
  - rewrite Heq2. sproj. rewrite F3. reflexivity.
  - now rewrite Hcore2, Hcore1.
Qed.

(** The message posted in an interrupt to the queue on which two tasks
    wait. *)
Lemma YKQPost_wakes_first_waiter_witness :
  exists s',
    YKQPost 0%nat 77 two_waiters_in_isr
    = Ret 1 (with_intEnabled (intEnabled two_waiters_in_isr) s') /\
    ready_is s' [1%nat; 0%nat] /\
    YKQueues s' !! 0%nat = Some (mkQ 1 4 1000 1003 1001 1000 (Some 2%nat)) /\
    msgmem s' 1000 = 77.
Proof.
  destruct (YKQPost_wakes_first_waiter two_waiters_in_isr 0%nat
              (mkQ 0 4 1000 1003 1000 1000 (Some 1%nat)) 77
              1%nat 2%nat [] (mkTCB 1 0 10 (Some 2%nat) NULL) [] [0%nat])
    as (s' & H1 & _ & H3 & H4 & H5 & _).
  - vm_compute. reflexivity.
  - cbn. lia.
  - reflexivity.
  - apply (bool_decide_unpack _). vm_compute. exact Logic.I.
  - apply dllb_correct. vm_compute. reflexivity.
  - vm_compute. reflexivity.
  - apply ready_isb_correct. vm_compute. reflexivity.
  - apply (bool_decide_unpack _). vm_compute. exact Logic.I.
  - apply Forall_nil_2.
  - apply (bool_decide_unpack _). vm_compute. exact Logic.I.
  - exists s'.
    assert (Hn : YKInterruptNestLevel two_waiters_in_isr <> 0) by (vm_compute; discriminate).
    exact (conj (H1 Hn) (conj H3 (conj H4 H5))).
Defined.

(** ** The value a post returns *)

(** A call of the scheduler returns at once or leaves the processor; resumed
    in any state, it returns after restoring the interrupt flag. *)
Lemma YKScheduler_shape (s : kstate) :
  match YKScheduler s with
  | Ret _ s' => s' = s
  | Switch s' k =>
      s' = sched_switch_state s /\
      forall s'', k s'' = when (intEnabled s) YKExitMutex s''
  | Fault _ => True
  end.
Proof.
  pose proof (YKScheduler_cases s) as H.
  destruct (load (YKReadyHead s) s) as [th s1|e|] eqn:E1.
  - destruct (load (YKCurrentTask s) s) as [tc s2|e|] eqn:E2.
    + destruct (taskID th =? taskID tc) eqn:E; rewrite H; [reflexivity|].
      now split.
    + now rewrite H.
    + unfold load in E2. now repeat case_match.
  - now rewrite H.
  - unfold load in E1. now repeat case_match.
Qed.

Lemma same_context_refl (s : kstate) : same_context s s.
Proof. now repeat split. Qed.

(** The rest of [YKQPost] once the message is in the queue: whatever holds of
    the queues and their messages still holds when the call returns or
    leaves the processor, and every return, at once or after a resumption in
    any state, is with 1; the call stops on no queue without a waiter. *)
Lemma post_wake_returns_1 (I : kstate -> Prop) (QPtr : nat) (iStatus : bool)
    (s0 : kstate) (q0 : YKQ) :
  qstable I -> I s0 -> YKQueues s0 !! QPtr = Some q0 ->
  match post_wake QPtr iStatus s0 with
  | Ret r s' => r = 1 /\ I s'
  | Switch s' k => I s' /\ forall s'', exists s3, k s'' = Ret 1 s3
  | Fault _ => q_pendHead q0 <> NULL
  end.
Proof.
  intros Hst HI Hq0.
  assert (Hexit : forall s, I s ->
            match (when iStatus YKExitMutex ;; ret 1) s with
            | Ret r s' => r = 1 /\ I s'
            | Switch s' k => I s' /\ forall s'', exists s3, k s'' = Ret 1 s3
            | Fault _ => q_pendHead q0 <> NULL
            end).
  { intros s Hs. destruct iStatus; cbn; (split; [reflexivity|]); [|exact Hs].
    now apply (Hst s). }
  unfold post_wake.
  step_by ltac:(apply load_q_Some; exact Hq0).
  destruct (q_pendHead q0) as [h|] eqn:Hph; cbn [is_null negb when].
  2:{ step_by ltac:(reflexivity). pose proof (Hexit s0 HI) as H.
      destruct ((when iStatus YKExitMutex ;; ret 1) s0); [exact H|congruence|exact H]. }
  pose proof (preserves_removePendQ I Hst QPtr s0 HI) as P1.
  pose proof (quiet_removePendQ s0 QPtr s0 (same_context_refl s0)) as Q1.
  unfold bind at 1 2.
  destruct (removePendQ QPtr s0) as [tmp s1|e|s1 k1]; cbn [obind];
    [|discriminate|contradiction].
  destruct P1 as [HI1 _]. clear Q1.
  pose proof (preserves_insertReady I Hst tmp s1 HI1) as P2.
  pose proof (quiet_insertReady s1 tmp s1 (same_context_refl s1)) as Q2.
  unfold bind at 1.
  destruct (insertReady tmp s1) as [[] s2|e|s2 k2]; cbn [obind];
    [|discriminate|contradiction].
  destruct P2 as [HI2 _]. clear Q2.
  unfold bind at 1, gets. cbn [obind].
  destruct (YKInterruptNestLevel s2 =? 0); cbn [when].
  2:{ cbn [ret obind]. apply (Hexit s2 HI2). }
  pose proof (YKScheduler_shape s2) as Hs.
  destruct (YKScheduler s2) as [[] s3|e|s3 k3]; cbn [obind].
  - subst s3. apply (Hexit s2 HI2).
  - discriminate.
  - destruct Hs as [-> Hk]. split.
    + now apply (Hst s2).
    + intros s''. rewrite Hk.
      destruct (intEnabled s2), iStatus; cbn; eexists; reflexivity.
Qed.

(** C4: a post to a queue whose occupancy has reached its capacity returns 0
    and leaves the whole kernel state, hence the queue, its buffer, its head
    and tail slots and its pending list, as they were.  A post to any other
    queue writes the message at the tail slot and counts it; it then returns
    1, at once or, if the scheduler dispatched another task, as soon as it
    is resumed, in whatever state; it never returns another value, and it
    stops only when a task waits on the queue.  It does stop when a single
    task waits: [removePendQ] stores through the [next] pointer of the only
    waiter, which is [NULL], so that the message is in the queue and the
    call does not return 1. *)
Theorem queue_full_rejected (s : kstate) (QPtr : nat) (q : YKQ) (msg : Z) :
  YKQueues s !! QPtr = Some q ->
  (maxEntries q <= numEntries q -> YKQPost QPtr msg s = Ret 0 s) /\
  (numEntries q < maxEntries q ->
   match YKQPost QPtr msg s with
   | Ret r s' => r = 1 /\ placed QPtr msg s s'
   | Switch s' k =>
       placed QPtr msg s s' /\ forall s'', exists s3, k s'' = Ret 1 s3
   | Fault _ => q_pendHead q <> NULL
   end) /\
  (numEntries q < maxEntries q -> q_pendHead q = NULL ->
   YKQPost QPtr msg s = Ret 1 (posted QPtr q msg s)) /\
  (numEntries q < maxEntries q ->
   forall (h : nat) (th : TCB),
     q_pendHead q = Some h -> YKTasks s !! h = Some th -> next th = NULL ->
     placed QPtr msg s (with_intEnabled false (posted QPtr q msg s)) /\
     removePendQ QPtr (with_intEnabled false (posted QPtr q msg s)) = Fault NullDeref /\
     YKQPost QPtr msg s = Fault NullDeref).
Proof.
  intros Hq.
  assert (H0 : placed QPtr msg s (with_intEnabled false (posted QPtr q msg s))).
  { exists q, (q_put q). split; [exact Hq|].
    split; [exact (posted_lookup QPtr q msg s Hq)|].
    cbn. now rewrite Z.eqb_refl. }
  assert (Hq0 : YKQueues (with_intEnabled false (posted QPtr q msg s)) !! QPtr
                = Some (q_put q)) by exact (posted_lookup QPtr q msg s Hq).
  split; [|split; [|split]].
  - now apply YKQPost_full.
  - intros Hfull. rewrite (YKQPost_not_full _ _ _ _ Hq Hfull).
    exact (post_wake_returns_1 (placed QPtr msg s) QPtr (intEnabled s) _ (q_put q)
             (placed_stable QPtr msg s) H0 Hq0).
  - now apply YKQPost_no_waiter.
  - intros Hfull h th Hph Hth Hnx.
    assert (Hrem : removePendQ QPtr (with_intEnabled false (posted QPtr q msg s))
                   = Fault NullDeref).
    { unfold removePendQ, removePend.
      step_by ltac:(step_by ltac:(apply load_q_Some; exact Hq0); reflexivity).
      replace (q_pendHead (q_put q)) with (Some h) by (symmetry; exact Hph).
      cbn [is_null].
      step_by ltac:(apply rd_Some; exact Hth).
      rewrite Hnx.
      step_by ltac:(apply wr_q_Some; exact Hq0).
      apply bind_Fault. apply wr_NULL. }
    split; [exact H0|]. split; [exact Hrem|].
    rewrite (YKQPost_not_full _ _ _ _ Hq Hfull). unfold post_wake.
    step_by ltac:(apply load_q_Some; exact Hq0).
    replace (q_pendHead (q_put q)) with (Some h) by (symmetry; exact Hph).
    cbn [is_null negb when].
    apply bind_Fault. apply bind_Fault. exact Hrem.
Qed.

(** The third post to a full queue of two slots returns 0 and changes
    nothing; the post to the queue on which one task waits stops in
    [removePendQ]. *)
Lemma queue_full_rejected_witness :
  YKQPost 0%nat 33 full_queue = Ret 0 full_queue /\
  YKQPost 0%nat 77 q_one_waiter = Fault NullDeref.
Proof.
  split.
  - refine (proj1 (queue_full_rejected full_queue 0%nat
                     (mkQ 2 2 1000 1001 1000 1000 NULL) 33 _) _).
    + vm_compute. reflexivity.
    + vm_compute. discriminate.
  - refine (proj2 (proj2 (proj2 (proj2 (proj2 (queue_full_rejected q_one_waiter 0%nat
                     (mkQ 0 4 1000 1003 1000 1000 (Some 1%nat)) 77 _)))
                     _ 1%nat (mkTCB 1 0 10 NULL NULL) _ _ _))).
    + vm_compute. reflexivity.
    + vm_compute. reflexivity.
    + reflexivity.
    + vm_compute. reflexivity.
    + reflexivity.
Defined.

(** ** The tick handler *)

(** The post of the handler to a queue on which no task waits. *)
Lemma tick_tail (s : kstate) (MsgQPtr : nat) (msg : Z) (q : YKQ) :
  YKQueues s !! MsgQPtr = Some q -> q_pendHead q = NULL ->
  (r <- YKQPost MsgQPtr msg ;;
   when (r =? 0) (printString "ERROR in YKTickHandler(): queue overflow!\n\r") ;;
   YKExitMutex) s
  = Ret tt (tick_posted MsgQPtr q msg s).
Proof.
  intros Hq Hp. unfold tick_posted.
  destruct (maxEntries q <=? numEntries q) eqn:E.
  - apply Z.leb_le in E.
    step_by ltac:(apply (YKQPost_full s MsgQPtr q msg Hq E)).
    reflexivity.
  - apply Z.leb_gt in E.
    step_by ltac:(apply (YKQPost_no_waiter s MsgQPtr q msg Hq E Hp)).
    reflexivity.
Qed.

(** X17: A tick that finds the head of the delayed list due in more than
    one tick only counts: the tick number is incremented, the delay count
    of the head is decremented, no task changes list, and, the queue of the
    handler having no waiter, the message is posted to it or the overflow
    is reported.  The handler returns with interrupts on. *)
Theorem tick_counts_down (s : kstate) (MsgQPtr : nat) (msg : Z) (q : YKQ) (h : nat)
    (th : TCB) :
  YKQueues s !! MsgQPtr = Some q -> q_pendHead q = NULL ->
  YKDelayedHead s = Some h -> YKTasks s !! h = Some th -> 1 < delayCount th < 32768 ->
  YKTickHandler MsgQPtr msg s
  = Ret tt
      (tick_posted MsgQPtr q msg
         (with_YKTasks (<[h := set_delayCount (delayCount th - 1) th]> (YKTasks s))
            (with_YKTickNum (wrap_int (YKTickNum s + 1)) (with_intEnabled false s)))).
Proof.
  intros Hq Hp Hh Hth Hd.
  assert (Hlen : (h < length (YKTasks s))%nat) by (eapply lookup_lt_Some; eauto).
  set (sa := with_YKTickNum (wrap_int (YKTickNum s + 1)) (with_intEnabled false s)).
  set (sb := with_YKTasks (<[h := set_delayCount (delayCount th - 1) th]> (YKTasks s)) sa).
  assert (Hblock : (d <- rd delayCount (Some h) ;;
                    wr (set_delayCount (wrap_int (d - 1))) (Some h) ;;
                    tmp <- removeDelayed ;;
                    fuel <- walk_fuel ;;
                    undelay fuel tmp) sa = Ret tt sb).
  { step_by ltac:(apply (rd_Some delayCount _ h th); exact Hth).
    step_by ltac:(apply (wr_Some _ _ h th); exact Hth).
    rewrite wrap_int_small by lia. fold sb.
    step_by ltac:(apply (removeDelayed_not_expired _ h
                           (set_delayCount (delayCount th - 1) th));
                  [exact Hh|unfold sb; sproj; now apply list_lookup_insert_eq|cbn; lia]).
    step_by ltac:(reflexivity).
    reflexivity. }
  unfold YKTickHandler.
  step_by ltac:(apply YKEnterMutex_Ret).
  step_by ltac:(reflexivity).
  step_by ltac:(reflexivity).
  step_by ltac:(reflexivity). sproj. rewrite Hh. cbn [is_null negb when].
  step_by ltac:(exact Hblock).
  apply tick_tail; [exact Hq|exact Hp].
Qed.

(** The first of four tasks has delayed itself by 5 ticks. *)
Lemma tick_counts_down_witness :
  YKTickHandler 0%nat 77 (after (YKDelayTask 5 race_start))
  = Ret tt
      (tick_posted 0%nat (mkQ 0 4 1000 1003 1000 1000 NULL) 77
         (with_YKTasks (<[1%nat := set_delayCount (5 - 1) (mkTCB 1 5 1 NULL NULL)]>
                          (YKTasks (after (YKDelayTask 5 race_start))))
            (with_YKTickNum (wrap_int (YKTickNum (after (YKDelayTask 5 race_start)) + 1))
               (with_intEnabled false (after (YKDelayTask 5 race_start)))))).
Proof.
  refine (tick_counts_down (after (YKDelayTask 5 race_start)) 0%nat 77
            (mkQ 0 4 1000 1003 1000 1000 NULL) 1%nat (mkTCB 1 5 1 NULL NULL) _ _ _ _ _).
  - vm_compute. reflexivity.
  - reflexivity.
  - vm_compute. reflexivity.
  - vm_compute. reflexivity.
  - cbn. lia.
Defined.

(** X18: A tick that finds the head of the delayed list due in one tick,
    and the next delayed task due later, readies the head: its delay count
    becomes 0, it leaves the delayed list, whose head becomes the next task,
    and enters the ready list at the place of its priority; no other delay
    count changes and the scheduler is not called. *)
Theorem tick_readies_expired (s : kstate) (MsgQPtr : nat) (msg : Z) (q : YKQ) (h j : nat)
    (l : list nat) (th : TCB) (r1 r2 : list nat) :
  YKQueues s !! MsgQPtr = Some q -> q_pendHead q = NULL ->
  delayed_is s (h :: j :: l) ->
  YKTasks s !! h = Some th -> delayCount th = 1 -> delay_of (YKTasks s) j <> 0 ->
  ready_is s (r1 ++ r2) ->
  Forall (fun k => k ∉ h :: j :: l) (r1 ++ r2) ->
  Forall (fun k => prio_of (YKTasks s) k < priority th) r1 ->
  Forall (fun k => priority th < prio_of (YKTasks s) k) r2 ->
  exists s',
    YKTickHandler MsgQPtr msg s = Ret tt (tick_posted MsgQPtr q msg s') /\
    ready_is s' (r1 ++ h :: r2) /\
    YKDelayedHead s' = Some j /\ dll (YKTasks s') NULL (j :: l) NULL /\
    delay_of (YKTasks s') h = 0 /\
    (forall k, k <> h -> delay_of (YKTasks s') k = delay_of (YKTasks s) k) /\
    YKTickNum s' = wrap_int (YKTickNum s + 1) /\
    YKQueues s' = YKQueues s /\ msgmem s' = msgmem s /\
    YKCurrentTask s' = YKCurrentTask s.
Proof.
  intros Hq Hp (Hdnd & Hddll & Hdh & Hdt) Hth Hd Hdj Hr Hdisj Hlt Hgt.
  pose proof (proj1 (Forall_forall _ _) Hdisj) as Hdisj'. cbn beta in Hdisj'.
  assert (Hlen : (h < length (YKTasks s))%nat) by (eapply lookup_lt_Some; eauto).
  destruct Hddll as [(th' & Hth' & Hhp & Hhn) Hjl].
  rewrite Hth in Hth'. injection Hth' as <-.
  pose proof Hjl as [(tj & Htj & Hjp & Hjn) Hl].
  cbn [head_or] in Hdh, Hhn.
  pose proof Hdnd as Hdnd'. apply NoDup_cons in Hdnd' as [Hh' Hnd'].
  pose proof Hnd' as Hnd''. apply NoDup_cons in Hnd'' as [Hj' _].
  assert (Hjh : j <> h) by (intros ->; apply Hh'; left).
  rewrite (delay_of_Some _ _ _ Htj) in Hdj.
  set (sa := with_YKTickNum (wrap_int (YKTickNum s + 1)) (with_intEnabled false s)).
  set (th0 := set_delayCount 0 th).
  set (sb := with_YKTasks (<[h := th0]> (YKTasks s)) sa).
  set (sc := with_YKTasks (<[h := set_next NULL th0]>
                             (<[j := set_prev NULL tj]> (YKTasks sb)))
               (with_YKDelayedHead (Some j) sb)).
  assert (Hrem : removeDelayed sb = Ret (Some h) sc).
  { apply (removeDelayed_expired sb h j th0 tj); unfold sb; sproj;
      [exact Hdh|now lk|reflexivity|exact Hhn|now lk|exact Hjh]. }
  (* the expired task enters the ready list *)
  assert (Hfc : forall k, k ∈ r1 ++ r2 -> YKTasks sc !! k = YKTasks s !! k).
  { intros k Hk. pose proof (Hdisj' k Hk) as Hk'.
    assert (k <> h) by (intros ->; apply Hk'; left).
    assert (k <> j) by (intros ->; apply Hk'; right; left).
    unfold sc, sb. sproj. now lk. }
  assert (Hrc : ready_is sc (r1 ++ r2)) by (now apply (ready_is_frame s)).
  assert (Hhr : h ∉ r1 ++ r2) by (intros Hk; apply (Hdisj' h Hk); left).
  assert (Hthc : YKTasks sc !! h = Some (set_next NULL th0)).
  { unfold sc, sb. sproj. now lk. }
  destruct (insertReady_spec sc r1 r2 h (set_next NULL th0) Hrc Hhr Hthc)
    as (sd & Hrund & Hrd & _ & Heqd & Hcored & Hfrd).
  { apply (Forall_prio_frame (fun x => x < priority th) (YKTasks s)); [|exact Hlt].
    intros k Hk. apply Hfc. apply elem_of_app. now left. }
  { apply (Forall_prio_frame (fun x => priority th < x) (YKTasks s)); [|exact Hgt].
    intros k Hk. apply Hfc. apply elem_of_app. now right. }
  assert (Hjr : j ∉ r1 ++ h :: r2).
  { intros Hk. apply elem_of_app in Hk as [Hk|Hk].
    - apply (Hdisj' j); [apply elem_of_app; now left|right; left].
    - apply elem_of_cons in Hk as [->|Hk]; [now apply Hjh|].
      apply (Hdisj' j); [apply elem_of_app; now right|right; left]. }
  assert (Htjd : YKTasks sd !! j = Some (set_prev NULL tj)).
  { rewrite (Hfrd j Hjr). unfold sc, sb. sproj. now lk. }
  assert (Hdhd : YKDelayedHead sd = Some j) by (rewrite Heqd; reflexivity).
  assert (Hblock : (d <- rd delayCount (Some h) ;;
                    wr (set_delayCount (wrap_int (d - 1))) (Some h) ;;
                    tmp <- removeDelayed ;;
                    fuel <- walk_fuel ;;
                    undelay fuel tmp) sa = Ret tt sd).
  { step_by ltac:(apply (rd_Some delayCount _ h th); exact Hth).
    step_by ltac:(apply (wr_Some _ _ h th); exact Hth).
    rewrite Hd. change (wrap_int (1 - 1)) with 0. fold th0. fold sb.
    step_by ltac:(exact Hrem).
    step_by ltac:(reflexivity).
    cbn [undelay is_null].
    step_by ltac:(exact Hrund).
    step_by ltac:(apply (removeDelayed_not_expired sd j (set_prev NULL tj));
                  [exact Hdhd|exact Htjd|exact Hdj]).
    unfold sc, sb. sproj. rewrite !length_insert.
    destruct (length (YKTasks s)) as [|n]; [lia|]. reflexivity. }
  exists sd.
  split; [|split; [|split; [|split; [|split; [|split; [|split; [|split; [|split]]]]]]]].
  - unfold YKTickHandler.
    step_by ltac:(apply YKEnterMutex_Ret).
    step_by ltac:(reflexivity).
    step_by ltac:(reflexivity).
    step_by ltac:(reflexivity). sproj. rewrite Hdh. cbn [is_null negb when].
    step_by ltac:(exact Hblock).
    apply tick_tail; [rewrite Heqd; exact Hq|exact Hp].
  - exact Hrd.
  - exact Hdhd.
  - apply (dll_frame (<[j := set_prev NULL tj]> (YKTasks s))).
    + intros k Hk.
      assert (Hkh : k <> h) by (intros ->; now apply Hh').
      rewrite Hfrd.
      * unfold sc, sb. sproj. destruct (decide (k = j)) as [->|]; now lk.
      * intros Hk'. apply elem_of_app in Hk' as [Hk'|Hk'].
        -- apply (Hdisj' k); [apply elem_of_app; now left|now right].
        -- apply elem_of_cons in Hk' as [->|Hk']; [now apply Hkh|].
           apply (Hdisj' k); [apply elem_of_app; now right|now right].
    + now apply (dll_set_first _ (Some h)).
  - destruct (tcores_lookup _ _ h _ Hcored Hthc) as (t' & Ht' & _ & Hdc & _).
    now rewrite (delay_of_Some _ _ _ Ht'), Hdc.
  - intros k Hk. unfold delay_of.
    assert (Hc : tcores (YKTasks sd) !! k = tcores (YKTasks sc) !! k) by now rewrite Hcored.
    unfold tcores in Hc. rewrite !list_lookup_fmap in Hc.
    assert (Hsc : delayCount <$> YKTasks sc !! k = delayCount <$> YKTasks s !! k).
    { unfold sc, sb. sproj. destruct (decide (k = j)) as [->|]; lk; [|reflexivity].
      now rewrite Htj. }
    destruct (YKTasks sd !! k) as [t1|], (YKTasks sc !! k) as [t2|];
      try discriminate; destruct (YKTasks s !! k) as [t3|]; try discriminate;
      try reflexivity.
    cbn in Hc, Hsc. injection Hc as _ Hc _. injection Hsc as Hsc. congruence.
  - rewrite Heqd. reflexivity.
  - rewrite Heqd. reflexivity.
  - rewrite Heqd. reflexivity.
  - rewrite Heqd. reflexivity.
Qed.

(** The task of priority 5 is readied by the tick. *)
Lemma tick_readies_expired_witness :
  exists s',
    YKTickHandler 0%nat 77 two_delayed
    = Ret tt (tick_posted 0%nat (mkQ 0 4 1000 1003 1000 1000 NULL) 77 s') /\
    ready_is s' [2%nat; 3%nat; 4%nat; 0%nat] /\
    YKDelayedHead s' = Some 1%nat /\
    delay_of (YKTasks s') 2%nat = 0.
Proof.
  destruct (tick_readies_expired two_delayed 0%nat 77 (mkQ 0 4 1000 1003 1000 1000 NULL)
              2%nat 1%nat [] (mkTCB 2 1 5 (Some 1%nat) NULL) [] [3%nat; 4%nat; 0%nat])
    as (s' & H1 & H2 & H3 & _ & H5 & _).
  - vm_compute. reflexivity.
  - reflexivity.
  - apply delayed_isb_correct. vm_compute. reflexivity.
  - vm_compute. reflexivity.
  - reflexivity.
  - vm_compute. discriminate.
  - apply ready_isb_correct. vm_compute. reflexivity.
  - apply (bool_decide_unpack _). vm_compute. exact Logic.I.
  - apply Forall_nil_2.
  - apply (bool_decide_unpack _). vm_compute. exact Logic.I.
  - exists s'. exact (conj H1 (conj H2 (conj H3 H5))).
Defined.

(** X19: Leaving the outermost interrupt (nesting level 1) sets the level
    to 0 and calls the scheduler: when the head of the ready list is the
    interrupted task the call returns; otherwise one context switch is
    counted and the head is dispatched, with interrupts off, and the call
    returns, with the interrupt flag restored, when the interrupted task is
    resumed. *)
Theorem exit_outermost_isr_dispatches (s : kstate) (h c : nat) (th tc : TCB) :
  YKInterruptNestLevel s = 1 ->
  YKReadyHead s = Some h -> YKTasks s !! h = Some th ->
  YKCurrentTask s = Some c -> YKTasks s !! c = Some tc ->
  YKExitISR s
  = if taskID th =? taskID tc
    then Ret tt (with_YKInterruptNestLevel 0 s)
    else Switch (sched_switch_state (with_YKInterruptNestLevel 0 s))
           (fun s'' => Ret tt (if intEnabled s then with_intEnabled true s'' else s'')).
Proof.
  intros Hn Hh Hth Hc Htc.
  unfold YKExitISR.
  step_by ltac:(reflexivity).
  step_by ltac:(reflexivity).
  step_by ltac:(reflexivity). sproj. rewrite Hn.
  change (wrap_int (1 - 1)) with 0. cbn [Z.eqb when].
  pose proof (YKScheduler_cases (with_YKInterruptNestLevel 0 s)) as Hs.
  cbn [YKReadyHead YKCurrentTask with_YKInterruptNestLevel] in Hs.
  rewrite Hh, Hc in Hs.
  rewrite (load_Some (with_YKInterruptNestLevel 0 s) h th Hth) in Hs.
  rewrite (load_Some (with_YKInterruptNestLevel 0 s) c tc Htc) in Hs.
  destruct (taskID th =? taskID tc); rewrite Hs; [reflexivity|].
  cbn [intEnabled with_YKInterruptNestLevel].
  destruct (intEnabled s); reflexivity.
Qed.

(** The interrupt that has readied the task of priority 10 ends: the task
    is dispatched. *)
Lemma exit_outermost_isr_dispatches_witness :
  YKExitISR posted_in_isr
  = Switch (sched_switch_state (with_YKInterruptNestLevel 0 posted_in_isr))
      (fun s'' => Ret tt (if intEnabled posted_in_isr then with_intEnabled true s'' else s'')).
Proof.
  refine (exit_outermost_isr_dispatches posted_in_isr 1%nat 0%nat
            (mkTCB 1 0 10 (Some 0%nat) NULL) (mkTCB 0 0 100 NULL (Some 1%nat)) _ _ _ _ _);
    vm_compute; reflexivity.
Defined.

(** X20: [YKSemCreate], while the pool has a free entry, returns that entry
    with the initial value (converted to [int]) and no waiting task, counts
    one more semaphore created and changes nothing else. *)
Theorem YKSemCreate_fresh (s : kstate) (initialValue : Z) :
  (numSemaphoresCreated s < length (YKSemaphores s))%nat ->
  (numSemaphoresCreated s < MAX_SEMAPHORES)%nat ->
  YKSemCreate initialValue s
  = Ret (numSemaphoresCreated s)
      (with_YKSemaphores
         (<[numSemaphoresCreated s := mkSEM (wrap_int initialValue) NULL]> (YKSemaphores s))
         (with_numSemaphoresCreated (S (numSemaphoresCreated s)) s)).
Proof.
  intros Hlen Hmax.
  destruct (lookup_lt_is_Some_2 _ _ Hlen) as [m Hm].
  unfold YKSemCreate.
  step_by ltac:(apply YKEnterMutex_Ret).
  assert (Ha : allocateSemaphore (with_intEnabled false s)
               = Ret (numSemaphoresCreated s)
                   (with_numSemaphoresCreated (S (numSemaphoresCreated s))
                      (with_intEnabled false s))).
  { unfold allocateSemaphore. step_by ltac:(reflexivity).
    replace (Nat.leb MAX_SEMAPHORES (numSemaphoresCreated (with_intEnabled false s)))
      with false by (symmetry; apply Nat.leb_gt; exact Hmax).
    reflexivity. }
  step_by ltac:(exact Ha).
  step_by ltac:(apply (wr_sem_Some _ _ _ m); exact Hm).
  step_by ltac:(apply (wr_sem_Some _ _ _ (set_value (wrap_int initialValue) m)); sproj;
                now apply list_lookup_insert_eq).
  sproj. rewrite list_insert_insert_eq.
  destruct s as [? ? ? ? ? ? ? ? ? ? ? ? ? ? ? ? ? ie ? ?]. now destruct ie.
Qed.

(** The first semaphore created after the idle task. *)
Lemma YKSemCreate_fresh_witness :
  YKSemCreate 3 idle_created
  = Ret (numSemaphoresCreated idle_created)
      (with_YKSemaphores
         (<[numSemaphoresCreated idle_created := mkSEM (wrap_int 3) NULL]>
            (YKSemaphores idle_created))
         (with_numSemaphoresCreated (S (numSemaphoresCreated idle_created)) idle_created)).
Proof.
  refine (YKSemCreate_fresh idle_created 3 _ _).
  - vm_compute. lia.
  - vm_compute. lia.
Defined.

(** ** Exhausted pools, the idle task, and unexpired delays *)



(** X22: The idle task cannot be delayed.  When the task of ID 0 calls
    [YKDelayTask] with a count between 1 and 32767 both list helpers refuse
    and report: the task stays on the ready list and does not enter the
    delayed list; only its delay count is overwritten before the scheduler
    is called. *)
Theorem idle_task_not_delayed (s : kstate) (c : nat) (t : TCB) (n : Z) :
  YKCurrentTask s = Some c -> YKTasks s !! c = Some t -> taskID t = IDLE_TASK_ID ->
  0 < n < 32768 ->
  YKDelayTask n s
  = YKScheduler
      (with_YKTasks (<[c := set_delayCount n t]> (YKTasks s))
         (with_console
            ((console s
              ++ ["ERROR in removeReady(): Cannot remove IDLE task from ready list!\n\r"%string])
              ++ ["ERROR in insertDelayed(): Cannot delay IDLE task!\n\r"%string]) s)).
Proof.
  intros Hcur Ht Hid Hn.
  assert (Hlen : (c < length (YKTasks s))%nat) by (eapply lookup_lt_Some; eauto).
  apply Z.eqb_eq in Hid.
  unfold YKDelayTask.
  rewrite (wrap_uint_small n), (wrap_int_small n) by lia.
  replace (n <=? 0) with false by (symmetry; apply Z.leb_gt; lia).
  step_by ltac:(apply YKEnterMutex_Ret).
  step_by ltac:(reflexivity).
  step_by ltac:(reflexivity). sproj. rewrite Hcur.
  assert (Hrem : removeReady (Some c) (with_intEnabled false s)
                 = Ret tt (with_console
                             (console s ++
                              ["ERROR in removeReady(): Cannot remove IDLE task from ready list!\n\r"%string])
                             (with_intEnabled false s))).
  { unfold removeReady.
    step_by ltac:(apply (rd_Some taskID _ c t); exact Ht).
    step_by ltac:(reflexivity). step_by ltac:(reflexivity).
    rewrite Hid. reflexivity. }
  step_by ltac:(exact Hrem).
  step_by ltac:(reflexivity). sproj. rewrite Hcur.
  step_by ltac:(apply (wr_Some _ _ c t); exact Ht).
  step_by ltac:(reflexivity). sproj. rewrite Hcur.
  erewrite bind_Ret.
  2:{ unfold insertDelayed. cbn [is_null].
      step_by ltac:(apply (rd_Some taskID _ c (set_delayCount n t)); sproj;
                    now apply list_lookup_insert_eq).
      step_by ltac:(reflexivity).
      cbn [taskID set_delayCount]. rewrite Hid. reflexivity. }
  sproj.
  destruct s as [? ? ? ? ? ? ? ? ? ? ? ? ? ? ? ? ? ie ? ?]. now destruct ie.
Qed.

(** The idle task, current while the only other task is blocked, calls
    [YKDelayTask 3]. *)
Lemma idle_task_not_delayed_witness :
  ready_list (after (YKDelayTask 3 handoff_blocked)) = ready_list handoff_blocked /\
  delayed_list (after (YKDelayTask 3 handoff_blocked)) = [] /\
  YKDelayTask 3 handoff_blocked
  = YKScheduler
      (with_YKTasks (<[0%nat := set_delayCount 3 (mkTCB 0 0 100 NULL NULL)]>
                       (YKTasks handoff_blocked))
         (with_console
            ((console handoff_blocked
              ++ ["ERROR in removeReady(): Cannot remove IDLE task from ready list!\n\r"%string])
              ++ ["ERROR in insertDelayed(): Cannot delay IDLE task!\n\r"%string])
            handoff_blocked)).
Proof.
  split; [vm_compute; reflexivity|]. split; [vm_compute; reflexivity|].
  refine (idle_task_not_delayed handoff_blocked 0%nat (mkTCB 0 0 100 NULL NULL) 3 _ _ _ _).
  - vm_compute. reflexivity.
  - vm_compute. reflexivity.
  - reflexivity.
  - lia.
Defined.

(** X23: [removeDelayed] unlinks nothing but an expired head: a task it
    returns was the head of the delayed list with a delay count of 0, and
    when it returns NULL it has changed nothing. *)
Theorem removeDelayed_only_expired (s s' : kstate) (p : TCBPtr) :
  removeDelayed s = Ret p s' ->
  match p with
  | Some h => YKDelayedHead s = Some h /\
              exists t, YKTasks s !! h = Some t /\ delayCount t = 0 /\
                        YKDelayedHead s' = next t
  | None => s' = s
  end.
Proof.
  unfold removeDelayed. intros H.
  erewrite bind_Ret in H by reflexivity.
  destruct (YKDelayedHead s) as [h|] eqn:Eh; cbn [is_null] in H.
  2:{ injection H as <- <-. reflexivity. }
  destruct (YKTasks s !! h) as [t|] eqn:Et.
  2:{ unfold bind, rd, load in H. cbn in H. rewrite Et in H. discriminate. }
  rewrite (bind_Ret _ _ _ _ _ (rd_Some delayCount _ _ _ Et)) in H.
  destruct (delayCount t =? 0) eqn:Ed.
  2:{ injection H as <- <-. reflexivity. }
  apply Z.eqb_eq in Ed.
  rewrite (bind_Ret _ _ _ _ _ (rd_Some next _ _ _ Et)) in H.
  erewrite bind_Ret in H by reflexivity.
  unfold bind in H.
  destruct (wr (set_prev NULL) (next t) (with_YKDelayedHead (next t) s))
    as [[] s1|e|] eqn:E1; cbn [obind] in H; try discriminate.
  destruct (wr (set_next NULL) (Some h) s1) as [[] s2|e|] eqn:E2; cbn [obind] in H;
    try discriminate.
  injection H as <- <-.
  split; [reflexivity|]. exists t. split; [exact Et|]. split; [exact Ed|].
  assert (H1 : YKDelayedHead s1 = next t).
  { unfold wr, bind, load in E1. cbn in E1. repeat case_match; try discriminate.
    all: injection E1 as <-; reflexivity. }
  unfold wr, bind, load in E2. cbn in E2. repeat case_match; try discriminate.
  injection E2 as <-. exact H1.
Qed.

(** The head of the delayed list, with its delay count at 0, is removed. *)
Lemma removeDelayed_only_expired_witness :
  YKDelayedHead (after (wr (set_delayCount 0) (Some 2%nat) two_delayed)) = Some 2%nat /\
  exists t,
    YKTasks (after (wr (set_delayCount 0) (Some 2%nat) two_delayed)) !! 2%nat = Some t /\
    delayCount t = 0 /\
    YKDelayedHead (after (removeDelayed (after (wr (set_delayCount 0) (Some 2%nat) two_delayed))))
    = next t.
Proof.
  refine (removeDelayed_only_expired
            (after (wr (set_delayCount 0) (Some 2%nat) two_delayed))
            (after (removeDelayed (after (wr (set_delayCount 0) (Some 2%nat) two_delayed))))
            (Some 2%nat) _).
  vm_compute. reflexivity.
Defined.

(** ** The order of the ready list *)

Lemma prio_of_tcores (tasks tasks' : list TCB) (i : nat) :
  tcores tasks' = tcores tasks -> prio_of tasks' i = prio_of tasks i.
Proof.
  intros Hc.
  assert (H : tcores tasks' !! i = tcores tasks !! i) by now rewrite Hc.
  unfold tcores in H. rewrite !list_lookup_fmap in H. unfold prio_of.
  destruct (tasks' !! i) as [t'|], (tasks !! i) as [t|]; try discriminate; [|reflexivity].
  cbn in H. now injection H as _ _ H.
Qed.

Lemma prio_sorted_tcores (tasks tasks' : list TCB) (l : list nat) :
  tcores tasks' = tcores tasks -> prio_sorted tasks l -> prio_sorted tasks' l.
Proof.
  intros Hc. induction l as [|i l IH]; [trivial|]. intros [Hi Hl].
  split; [|now apply IH].
  eapply Forall_impl; [exact Hi|]. intros j Hj. cbn beta in Hj.
  now rewrite !(prio_of_tcores _ _ _ Hc).
Qed.

(** A sorted list splits around a priority that it does not hold. *)
Lemma prio_sorted_split (tasks : list TCB) (l : list nat) (p : Z) :
  prio_sorted tasks l -> Forall (fun i => prio_of tasks i <> p) l ->
  exists l1 l2, l = l1 ++ l2 /\
    Forall (fun i => prio_of tasks i < p) l1 /\ Forall (fun i => p < prio_of tasks i) l2.
Proof.
  induction l as [|i l IH]; intros Hs Hne.
  - exists [], []. now repeat split.
  - destruct Hs as [Hi Hs]. apply Forall_cons in Hne as [Hip Hne].
    destruct (Z.lt_ge_cases (prio_of tasks i) p) as [Hlt|Hge].
    + destruct (IH Hs Hne) as (l1 & l2 & -> & H1 & H2).
      exists (i :: l1), l2. split; [reflexivity|]. split; [|exact H2].
      now apply Forall_cons.
    + exists [], (i :: l). split; [reflexivity|]. split; [apply Forall_nil_2|].
      apply Forall_cons. split; [lia|].
      eapply Forall_impl; [exact Hi|]. intros j Hj. cbn beta in Hj. lia.
Qed.

Lemma prio_sorted_insert (tasks : list TCB) (l1 l2 : list nat) (new : nat) :
  prio_sorted tasks (l1 ++ l2) ->
  Forall (fun i => prio_of tasks i < prio_of tasks new) l1 ->
  Forall (fun i => prio_of tasks new < prio_of tasks i) l2 ->
  prio_sorted tasks (l1 ++ new :: l2).
Proof.
  induction l1 as [|i l1 IH]; intros Hs H1 H2.
  - split; [exact H2|exact Hs].
  - destruct Hs as [Hi Hs]. apply Forall_cons in H1 as [Hin H1].
    split; [|now apply IH].
    apply Forall_app in Hi as [Hi1 Hi2]. apply Forall_app. split; [exact Hi1|].
    apply Forall_cons. split; [exact Hin|exact Hi2].
Qed.

(** X24: [insertReady] keeps the ready list sorted: a task that is not
    ready, and whose priority no ready task has, is added to the list, the
    tasks that were ready keep their order, and the list is again in
    strictly increasing order of priority value, so that its head is the
    most urgent ready task. *)
Theorem insertReady_keeps_sorted (s : kstate) (l : list nat) (new : nat) (tn : TCB) :
  ready_is s l -> prio_sorted (YKTasks s) l ->
  new ∉ l -> YKTasks s !! new = Some tn ->
  Forall (fun i => prio_of (YKTasks s) i <> priority tn) l ->
  exists s' l1 l2,
    l = l1 ++ l2 /\
    insertReady (Some new) s = Ret tt s' /\
    ready_is s' (l1 ++ new :: l2) /\
    prio_sorted (YKTasks s') (l1 ++ new :: l2).
Proof.
  intros Hr Hs Hnew Htn Hne.
  destruct (prio_sorted_split _ _ _ Hs Hne) as (l1 & l2 & -> & H1 & H2).
  destruct (insertReady_spec s l1 l2 new tn Hr Hnew Htn H1 H2)
    as (s' & Hrun & Hr' & _ & _ & Hcore & _).
  exists s', l1, l2. split; [reflexivity|]. split; [exact Hrun|]. split; [exact Hr'|].
  apply (prio_sorted_tcores (YKTasks s)); [exact Hcore|].
  apply prio_sorted_insert; [exact Hs| |]; now rewrite (prio_of_Some _ _ _ Htn).
Qed.

(** The task of priority 2 is put back between those of priority 1 and 3. *)
Lemma insertReady_keeps_sorted_witness :
  exists s' l1 l2,
    [1%nat; 3%nat; 0%nat] = l1 ++ l2 /\
    insertReady (Some 2%nat) (after (removeReady (Some 2%nat) delay_start)) = Ret tt s' /\
    ready_is s' (l1 ++ 2%nat :: l2) /\
    prio_sorted (YKTasks s') (l1 ++ 2%nat :: l2).
Proof.
  refine (insertReady_keeps_sorted (after (removeReady (Some 2%nat) delay_start))
            [1%nat; 3%nat; 0%nat] 2%nat (mkTCB 2 0 2 NULL NULL) _ _ _ _ _).
  - apply ready_isb_correct. vm_compute. reflexivity.
  - cbn [prio_sorted]. repeat split; apply (bool_decide_unpack _); vm_compute; exact Logic.I.
  - apply (bool_decide_unpack _). vm_compute. exact Logic.I.
  - vm_compute. reflexivity.
  - apply (bool_decide_unpack _). vm_compute. exact Logic.I.
Defined.
